(** * gocharting-sdk-demo: broker ledger and demo datafeed

    A shallow embedding of the two parts of the repository that carry
    logic of their own:

    - [Broker]: the in-memory paper-trading ledger of
      [src/components/ChartSDKAdvanced.tsx] (order book, trade book,
      position list, order history);
    - [Datafeed]: the demo datafeed of [src/utils/chart-datafeed.ts],
      in its two editions (the untyped one and the typed rewrite);
    - [Streaming]: the tick stream of the first edition (channel
      registry, socket, dispatch of trades).

    Conventions.  A number that comes in from outside is a finite
    double, held as the rational ([Q]) that it is; what the ledger
    computes from such numbers is a double again, rounded as IEEE
    binary64 rounds ([Num.value], with NaN, the infinities and
    [undefined]); the prices that the datafeed makes up are kept as
    rationals, and no statement about them depends on their rounding.
    An optional property is an [option]; [a || b] is written out with
    the truthiness of the source (0, the empty string, null and
    undefined are falsy).  The wall clock and [Math.random] are inputs of
    the operations that read them. *)

From Stdlib Require Import QArith Qabs Qminmax Qround Qpower Lqa ZArith Lia String Ascii Sorted.
From stdpp Require Import gmap strings list pretty.

(** ** JavaScript strings and truthiness *)

Module Js.

(** [a < b] on two numbers received from outside. *)
Definition Qltb (a b : Q) : bool := negb (Qle_bool b a).

(** [a || b] where [a] is a possibly absent number. *)
Definition or_num (a b : option Q) : option Q :=
  match a with
  | Some x => if Qeq_bool x 0 then b else Some x
  | None => b
  end.

(** [a || d] with a literal default closing the chain. *)
Definition num_or (a : option Q) (d : Q) : Q :=
  match a with
  | Some x => if Qeq_bool x 0 then d else x
  | None => d
  end.

(** [a || b] where [a] is a possibly absent string. *)
Definition or_str (a b : option string) : option string :=
  match a with
  | Some EmptyString => b
  | Some s => Some s
  | None => b
  end.

Definition str_or (a : option string) (d : string) : string :=
  match a with
  | Some EmptyString => d
  | Some s => s
  | None => d
  end.

(** A value of type [number | string], as the take-profit and
    stop-loss fields of an order are declared. *)
Inductive numstr :=
| NSNum (q : Q)
| NSStr (s : string).

Definition truthy_numstr (v : numstr) : bool :=
  match v with
  | NSNum q => negb (Qeq_bool q 0)
  | NSStr s => negb (String.eqb s "")
  end.

Definition or_numstr (a b : option numstr) : option numstr :=
  match a with
  | Some v => if truthy_numstr v then Some v else b
  | None => b
  end.

(** [x || null] on a value that is already [numstr | null]. *)
Definition or_null (a : option numstr) : option numstr :=
  or_numstr a None.

(** [String.prototype.toLowerCase].  A string is held as its UTF-8
    bytes.  The letters A to Z are lowered, and so is the Kelvin sign
    U+212A (the bytes 226, 132, 170), which lowers to k and is the one
    character outside ASCII whose lower case is made of ASCII letters
    only.  The other letters outside ASCII are left as they are: their
    lower case has a character outside ASCII too, so no comparison with
    an ASCII text depends on it. *)
Definition lower_ascii (c : ascii) : ascii :=
  let n := nat_of_ascii c in
  if (65 <=? n)%nat && (n <=? 90)%nat then ascii_of_nat (n + 32) else c.

Definition isKelvin (c1 c2 c3 : ascii) : bool :=
  (nat_of_ascii c1 =? 226)%nat && (nat_of_ascii c2 =? 132)%nat
  && (nat_of_ascii c3 =? 170)%nat.

Fixpoint toLowerCase (s : string) : string :=
  match s with
  | EmptyString => EmptyString
  | String c r =>
      match r with
      | String c2 (String c3 r') =>
          if isKelvin c c2 c3 then String "k" (toLowerCase r')
          else String (lower_ascii c) (toLowerCase r)
      | _ => String (lower_ascii c) (toLowerCase r)
      end
  end.

Fixpoint string_drop (n : nat) (s : string) : string :=
  match n, s with
  | O, _ => s
  | S k, EmptyString => EmptyString
  | S k, String _ r => string_drop k r
  end.

(** [s.replace(pat, rep)] with a string pattern: the first occurrence
    only. *)
Fixpoint replace (pat rep s : string) : string :=
  if String.prefix pat s then rep +:+ string_drop (String.length pat) s
  else match s with
       | EmptyString => EmptyString
       | String c r => String c (replace pat rep r)
       end.

(** [s.includes(sub)]. *)
Fixpoint includes (sub s : string) : bool :=
  if String.prefix sub s then true
  else match s with
       | EmptyString => false
       | String _ r => includes sub r
       end.

(** [s.split(sep)] for a one-character separator. *)
Fixpoint split_on (sep : ascii) (s : string) : list string :=
  match s with
  | EmptyString => [EmptyString]
  | String c r =>
      if Ascii.eqb c sep then EmptyString :: split_on sep r
      else match split_on sep r with
           | [] => [String c EmptyString]
           | w :: ws => String c w :: ws
           end
  end.

(** [arr.findIndex(f)]; [None] stands for the -1 of the source. *)
Fixpoint findIndex {A} (f : A -> bool) (l : list A) : option nat :=
  match l with
  | [] => None
  | x :: r => if f x then Some O else option_map S (findIndex f r)
  end.

(** [arr.splice(i, 1)]. *)
Definition splice1 {A} (i : nat) (l : list A) : list A :=
  take i l ++ drop (S i) l.

End Js.


(** ** Numbers that the ledger computes

    A number that comes in from outside (a field of a message, the
    quantity of the panel) is a finite double and is held as the
    rational that it is.  What the ledger computes from such numbers is
    a double again: [add], [sub], [mul] and [div] round their exact
    result to the nearest double, ties to even, and overflow to an
    infinity; [NaN] and the [undefined] that a member may hold are
    values too.  The sign of a zero is not kept: nothing here tells the
    two zeros apart (the one divisor of the ledger is a [Math.abs]). *)

Module Num.
Local Open Scope Q_scope.

Inductive value :=
| Fin (q : Q)
| Inf (negative : bool)
| NaN
| Undefined.

Coercion Fin : Q >-> value.

(** The exponent of the leading bit of a positive rational. *)
Definition ilog2 (q : Q) : Z :=
  let k := (Z.log2 (Qnum q) - Z.log2 (Zpos (Qden q)))%Z in
  if Qle_bool (2 ^ k) q then k else (k - 1)%Z.

(** Rounding to the nearest integer, ties to the even one. *)
Definition rne (q : Q) : Z :=
  let f := Qfloor q in
  match Qcompare (q - inject_Z f) (1 # 2) with
  | Lt => f
  | Gt => (f + 1)%Z
  | Eq => if Z.even f then f else (f + 1)%Z
  end.

(** The exponent of the last place of a double near a positive
    rational: 53 significant bits, and no exponent below that of the
    subnormal numbers. *)
Definition ulp (q : Q) : Z := Z.max (ilog2 q - 52) (-1074).

Definition roundPos (q : Q) : Q := inject_Z (rne (q / 2 ^ ulp q)) * 2 ^ ulp q.

(** The nearest binary64 number, before the overflow test. *)
Definition round64 (q : Q) : Q :=
  let q := Qred q in
  match Qcompare q 0 with
  | Eq => 0
  | Gt => roundPos q
  | Lt => - roundPos (- q)
  end.

(** [Number.MAX_VALUE] *)
Definition maxDouble : Q := inject_Z (2 ^ 53 - 1) * 2 ^ 971.

(** The double that an exact result becomes. *)
Definition norm (q : Q) : value :=
  let r := round64 q in
  if Qle_bool (Qabs r) maxDouble then Fin r else Inf (Js.Qltb r 0).

(** A decimal literal of the source. *)
Definition literal (q : Q) : value := norm q.

Arguments round64 : simpl never.
Arguments norm : simpl never.
Arguments literal : simpl never.

(** Unary minus and [Math.abs]; [undefined] converts to NaN. *)
Definition neg (a : value) : value :=
  match a with
  | Fin x => Fin (- x)
  | Inf s => Inf (negb s)
  | NaN | Undefined => NaN
  end.

Definition abs (a : value) : value :=
  match a with
  | Fin x => Fin (Qabs x)
  | Inf _ => Inf false
  | NaN | Undefined => NaN
  end.

Definition add (a b : value) : value :=
  match a, b with
  | Fin x, Fin y => norm (x + y)
  | Fin _, Inf s | Inf s, Fin _ => Inf s
  | Inf s, Inf t => if Bool.eqb s t then Inf s else NaN
  | _, _ => NaN
  end.

Definition sub (a b : value) : value := add a (neg b).

Definition mul (a b : value) : value :=
  match a, b with
  | Fin x, Fin y => norm (x * y)
  | Fin x, Inf s | Inf s, Fin x =>
      if Qeq_bool x 0 then NaN else Inf (xorb s (Js.Qltb x 0))
  | Inf s, Inf t => Inf (xorb s t)
  | _, _ => NaN
  end.

Definition div (a b : value) : value :=
  match a, b with
  | Fin x, Fin y =>
      if Qeq_bool y 0 then (if Qeq_bool x 0 then NaN else Inf (Js.Qltb x 0))
      else norm (x / y)
  | Fin _, Inf _ => Fin 0
  | Inf s, Fin y => Inf (xorb s (Js.Qltb y 0))
  | _, _ => NaN
  end.

(** [a < b] and [a <= b]: false as soon as one side is NaN. *)
Definition ltb (a b : value) : bool :=
  match a, b with
  | Fin x, Fin y => Js.Qltb x y
  | Fin _, Inf s => negb s
  | Inf s, Fin _ => s
  | Inf s, Inf t => s && negb t
  | _, _ => false
  end.

Definition leb (a b : value) : bool :=
  match a, b with
  | Fin x, Fin y => Qle_bool x y
  | Fin _, Inf s => negb s
  | Inf s, Fin _ => s
  | Inf s, Inf t => s || negb t
  | _, _ => false
  end.

Definition lt (a b : value) : Prop := ltb a b = true.
Definition le (a b : value) : Prop := leb a b = true.

(** The same number, whatever fraction writes it. *)
Definition same (a b : value) : Prop :=
  match a, b with
  | Fin x, Fin y => x == y
  | Inf s, Inf t => s = t
  | NaN, NaN | Undefined, Undefined => True
  | _, _ => False
  end.

(** [a || b] on values: 0, NaN and [undefined] are falsy. *)
Definition truthy (a : value) : bool :=
  match a with
  | Fin x => negb (Qeq_bool x 0)
  | Inf _ => true
  | NaN | Undefined => false
  end.

Definition or_value (a b : value) : value := if truthy a then a else b.

(** A possibly absent number as a value. *)
Definition ofOption (a : option Q) : value :=
  match a with
  | Some x => Fin x
  | None => Undefined
  end.

End Num.
(** ** The paper-trading ledger of [ChartSDKAdvanced.tsx] *)

Module Broker.
Import Js Num.

Local Open Scope Q_scope.

(** [SecurityData]; [tick_size] and [contract_size] are read through the
    untyped [security] parameter of [createPositionAndTrade].  The
    [productType] and [segment] members are never read. *)
Record SecurityData := mkSecurity {
  s_exchange : option string;
  s_symbol : option string;
  s_full_name : option string;
  s_tick_size : option Q;
  s_contract_size : option Q
}.

Record OrderDetails := mkOrderDetails {
  od_orderId : option string;
  od_price : option Q;
  od_size : option Q;
  od_quantity : option Q;
  od_productId : option string;
  od_orderType : option string;
  od_side : option string;
  od_takeProfit : option numstr;
  od_stopLoss : option numstr;
  od_stopPrice : option Q;
  od_symbol : option string
}.

Record OrderInputData := mkOrderInput {
  i_order : option OrderDetails;
  i_security : option SecurityData;
  i_orderId : option string;
  i_price : option Q;
  i_size : option Q;
  i_quantity : option Q;
  i_symbol : option string;
  i_orderType : option string;
  i_type : option string;
  i_side : option string;
  i_takeProfit : option numstr;
  i_stopLoss : option numstr;
  i_stopPrice : option Q;
  i_ltp : option Q
}.

(** The [{}] that stands in for a missing [order] or [security]. *)
Definition noOrderDetails : OrderDetails :=
  mkOrderDetails None None None None None None None None None None None.

Definition noSecurity : SecurityData := mkSecurity None None None None None.

(** An [Order] of the order book.  Members that every order of this file
    holds with the same constant ([lastTradeTimestamp], [cost], [trades],
    [fee], [info], [isGC], [paperTraderKey], [validity], [commissions],
    [broker], [productType], [rejReason], [segment], [currency] and the
    exchange, segment, tick and lot size of [security]) are left out;
    [datetime] and [timeStamp] are the same instant.  The price is a
    number of a message; the three sizes may be computed, and the size
    may be [undefined] after a modification. *)
Record Order := mkOrder {
  o_orderId : string;
  o_timeStamp : Z;
  o_status : string;
  o_price : Q;
  o_size : value;
  o_productId : string;
  o_remainingSize : value;
  o_orderType : string;
  o_side : string;
  o_fillPrice : option Q;
  o_avgFillPrice : option Q;
  o_filledSize : value;
  o_modifiedAt : option Z;
  o_exchange : string;
  o_symbol : string;
  o_takeProfit : option numstr;
  o_stopLoss : option numstr;
  o_key : string;
  o_stopPrice : option Q;
  o_security_symbol : string;
  o_userTag : option string
}.

Record Trade := mkTrade {
  t_tradeId : string;
  t_orderId : string;
  t_symbol : string;
  t_side : string;
  t_price : Q;
  t_size : value;
  t_value : value;
  t_commission : value;
  t_timestamp : Z
}.

(** A [Position]; the constant members [broker], [productType],
    [currency], [segment], [isGC] are left out. *)
Record Position := mkPosition {
  p_id : string;
  p_productId : string;
  p_symbol : string;
  p_size : value;
  p_size_currency : value;
  p_price : value;
  p_amount : value;
  p_pnl : Q;
  p_unPnl : Q;
  p_rPnl : Q;
  p_exchange : string;
  p_underlying : string;
  p_tick_size : Q;
  p_lot_size : Q;
  p_key : string
}.

Record DemoAccount := mkAccount {
  a_id : string;
  a_name : string;
  a_currency : string;
  a_balance : Q;
  a_equity : Q;
  a_margin : Q;
  a_freeMargin : Q
}.

(** A row of the order-history panel.  The strings that the source
    obtains with [toString] are kept as the values they print, the
    [toLocaleTimeString] stamp as the instant it prints. *)
Record OrderHistoryItem := mkHistory {
  h_timestamp : Z;
  h_side : string;
  h_quantity : value;
  h_symbol : string;
  h_orderType : string;
  h_limitPrice : option Q;
  h_stopLoss : option numstr;
  h_takeProfit : option numstr;
  h_status : string
}.

(** The refs and the state the component keeps: [chartWrapperRef]
    (only whether it is set), [currentSymbol], the three books, the
    account list and the [orderHistory] state. *)
Record BrokerState := mkState {
  chartWrapper : bool;
  currentSymbol : string;
  currentOrderBook : list Order;
  currentTradeBook : list Trade;
  currentPositions : list Position;
  currentAccountList : list DemoAccount;
  orderHistory : list OrderHistoryItem
}.

(** What one call reads from the clock and from [Math.random]: the
    instant, and the [`${Date.now()}_${Math.random()...}`] suffix of each
    identifier the call may mint. *)
Record Draws := mkDraws {
  d_now : Z;
  d_order : string;
  d_trade : string;
  d_position : string;
  d_takeProfit : string;
  d_stopLoss : string
}.

Definition demoAccount : DemoAccount :=
  mkAccount "DEMO_001" "Demo Account (Trading)" "USD" 100000 100000 0 100000.

(** The state at mount, before the chart reports ready. *)
Definition initialState : BrokerState :=
  mkState false "BYBIT:FUTURE:BTCUSDT" [] [] [] [demoAccount]
    [mkHistory 0 "buy" 100 "BTCUSDT" "market" None None None "Filled"].

Definition getCurrentLTP : Q := 110000.

(** Updates of single members, as the assignments of the source. *)
Definition with_orderBook (ob : list Order) (st : BrokerState) : BrokerState :=
  mkState (chartWrapper st) (currentSymbol st) ob (currentTradeBook st)
    (currentPositions st) (currentAccountList st) (orderHistory st).

Definition with_tradeBook (tb : list Trade) (st : BrokerState) : BrokerState :=
  mkState (chartWrapper st) (currentSymbol st) (currentOrderBook st) tb
    (currentPositions st) (currentAccountList st) (orderHistory st).

Definition with_positions (ps : list Position) (st : BrokerState) : BrokerState :=
  mkState (chartWrapper st) (currentSymbol st) (currentOrderBook st)
    (currentTradeBook st) ps (currentAccountList st) (orderHistory st).

Definition with_history (h : list OrderHistoryItem) (st : BrokerState) : BrokerState :=
  mkState (chartWrapper st) (currentSymbol st) (currentOrderBook st)
    (currentTradeBook st) (currentPositions st) (currentAccountList st) h.

Definition with_chartWrapper (b : bool) (st : BrokerState) : BrokerState :=
  mkState b (currentSymbol st) (currentOrderBook st) (currentTradeBook st)
    (currentPositions st) (currentAccountList st) (orderHistory st).

(** [setOrderHistory((prev) => [orderItem, ...prev].slice(0, 10))] *)
Definition addOrderToHistory (item : OrderHistoryItem) (st : BrokerState) : BrokerState :=
  with_history (take 10 (item :: orderHistory st)) st.

(** [x?.toString() || undefined]: an empty string prints as nothing. *)
Definition printed (x : option numstr) : option numstr :=
  match x with
  | Some (NSStr EmptyString) => None
  | _ => x
  end.

(** [updateChartBrokerData] hands the four refs to the chart; it changes
    nothing the component holds. *)
Definition updateChartBrokerData (st : BrokerState) : BrokerState := st.

(** The assignments to an existing position in the same-direction
    branch. *)
Definition position_add (pos : Position) (totalSize avgPrice : value) : Position :=
  mkPosition (p_id pos) (p_productId pos) (p_symbol pos)
    totalSize (abs totalSize) avgPrice (mul avgPrice (abs totalSize))
    (p_pnl pos) (p_unPnl pos) (p_rPnl pos) (p_exchange pos)
    (p_underlying pos) (p_tick_size pos) (p_lot_size pos) (p_key pos).

(** [existingPosition.size = oldSize + orderSizeWithSign] alone. *)
Definition position_set_size (pos : Position) (newSize : value) : Position :=
  mkPosition (p_id pos) (p_productId pos) (p_symbol pos)
    newSize (p_size_currency pos) (p_price pos) (p_amount pos)
    (p_pnl pos) (p_unPnl pos) (p_rPnl pos) (p_exchange pos)
    (p_underlying pos) (p_tick_size pos) (p_lot_size pos) (p_key pos).

(** The two assignments of the reduce branch, after the size is set. *)
Definition position_reprice (pos : Position) : Position :=
  mkPosition (p_id pos) (p_productId pos) (p_symbol pos)
    (p_size pos) (abs (p_size pos)) (p_price pos)
    (mul (p_price pos) (abs (p_size pos)))
    (p_pnl pos) (p_unPnl pos) (p_rPnl pos) (p_exchange pos)
    (p_underlying pos) (p_tick_size pos) (p_lot_size pos) (p_key pos).

(** The five assignments that close [createPositionAndTrade]. *)
Definition order_fill (o : Order) (executionPrice : Q) : Order :=
  mkOrder (o_orderId o) (o_timeStamp o) "filled" (o_price o) (o_size o)
    (o_productId o) 0 (o_orderType o) (o_side o)
    (Some executionPrice) (Some executionPrice) (o_size o)
    (o_modifiedAt o) (o_exchange o) (o_symbol o) (o_takeProfit o)
    (o_stopLoss o) (o_key o) (o_stopPrice o) (o_security_symbol o)
    (o_userTag o).

Definition same_position (newOrder : Order) (pos : Position) : bool :=
  String.eqb (p_productId pos) (o_productId newOrder)
  && String.eqb (p_symbol pos) (o_symbol newOrder).

(** The position of an order that meets no position of its product. *)
Definition newPosition (d : Draws) (newOrder : Order) (security : SecurityData)
    (executionPrice : Q) (orderSizeWithSign : value) : Position :=
  let positionId := "POS_" +:+ d_position d in
  mkPosition positionId (o_productId newOrder) (o_symbol newOrder)
    orderSizeWithSign (abs (o_size newOrder)) executionPrice
    (mul executionPrice (o_size newOrder)) 0 0 0
    (o_exchange newOrder) (o_symbol newOrder)
    (num_or (s_tick_size security) (round64 (1 # 100)))
    (num_or (s_contract_size security) 1)
    ("demo-" +:+ o_productId newOrder +:+ "-" +:+ positionId).

(** Position size: positive is long, negative is short. *)
Definition orderSizeWithSign (newOrder : Order) : value :=
  if String.eqb (o_side newOrder) "sell" then neg (o_size newOrder)
  else o_size newOrder.

(** [isSameDirection] *)
Definition isSameDirection (oldSize orderSizeWithSign : value) : bool :=
  (ltb 0 oldSize && ltb 0 orderSizeWithSign)
  || (ltb oldSize 0 && ltb orderSizeWithSign 0).

(** The [0.0001] below which a reduced position is removed. *)
Definition threshold : value := literal (1 # 10000).

(** The netting of [createPositionAndTrade] on the position list. *)
Definition netPosition (d : Draws) (newOrder : Order) (security : SecurityData)
    (executionPrice : Q) (positions : list Position) : list Position :=
  let orderSizeWithSign := orderSizeWithSign newOrder in
  match findIndex (same_position newOrder) positions with
  | Some existingPositionIndex =>
      match positions !! existingPositionIndex with
      | Some existingPosition =>
          let oldSize := p_size existingPosition in
          let oldPrice := p_price existingPosition in
          if isSameDirection oldSize orderSizeWithSign then
            let totalSize := add oldSize orderSizeWithSign in
            let avgPrice :=
              div (add (abs (mul oldPrice oldSize))
                     (abs (mul executionPrice orderSizeWithSign)))
                (abs totalSize) in
            <[existingPositionIndex :=
                position_add existingPosition totalSize avgPrice]> positions
          else
            let resized :=
              position_set_size existingPosition (add oldSize orderSizeWithSign) in
            if ltb (abs (p_size resized)) threshold then
              splice1 existingPositionIndex positions
            else
              <[existingPositionIndex := position_reprice resized]> positions
      | None => positions
      end
  | None =>
      positions ++ [newPosition d newOrder security executionPrice orderSizeWithSign]
  end.

(** [createPositionAndTrade]: the trade is pushed, the position list is
    netted, and the order object is marked filled.  The order object is
    the one already in the order book; the mutated object is returned
    and the caller stores it back in its place. *)
Definition createPositionAndTrade (d : Draws) (newOrder : Order)
    (security : SecurityData) (ltp : Q) (st : BrokerState) : BrokerState * Order :=
  let tradeId := "TRADE_" +:+ d_trade d in
  let executionPrice := ltp in
  let newTrade :=
    mkTrade tradeId (o_orderId newOrder) (o_symbol newOrder) (o_side newOrder)
      executionPrice (o_size newOrder) (mul executionPrice (o_size newOrder))
      (mul (mul executionPrice (o_size newOrder)) (literal (1 # 1000)))
      (d_now d) in
  let st1 := with_tradeBook (currentTradeBook st ++ [newTrade]) st in
  let st2 :=
    with_positions
      (netPosition d newOrder security executionPrice (currentPositions st1)) st1 in
  (st2, order_fill newOrder executionPrice).

Section TradingHandlers.

(** [parseFloat] on a string, [None] for NaN.  The built-in is an input
    of the model; no result below depends on what it returns. *)
Variable parseFloat : string -> option Q.

(** [parseFloat] applied to a [number | string]. *)
Definition parseFloatOf (v : numstr) : option Q :=
  match v with
  | NSNum q => Some q
  | NSStr s => parseFloat s
  end.

(** [x && parseFloat(x) > 0], with the parsed price when it holds. *)
Definition tpslPrice (x : option numstr) : option Q :=
  match x with
  | Some v =>
      if truthy_numstr v then
        match parseFloatOf v with
        | Some p => if Qltb 0 p then Some p else None
        | None => None
        end
      else None
  | None => None
  end.

(** [placeTPSLOrder]; [price] is the [parseFloat] of the member that the
    guard of [handleMarketOrderWithTPSL] has just parsed. *)
Definition placeTPSLOrder (d : Draws) (originalOrder : Order) (price : Q)
    (isTP : bool) (st : BrokerState) : BrokerState :=
  let orderType := if isTP then "limit" else "stop" in
  let oppositeSide :=
    if String.eqb (o_side originalOrder) "buy" then "sell" else "buy" in
  let tpslOrderId :=
    if isTP then "TAKEPROFIT_" +:+ d_takeProfit d
    else "STOPLOSS_" +:+ d_stopLoss d in
  let tpslOrder :=
    mkOrder tpslOrderId (d_now d) "open" (if isTP then price else 0)
      (o_size originalOrder) (o_productId originalOrder)
      (o_size originalOrder) orderType oppositeSide None None 0 None
      (o_exchange originalOrder) (o_symbol originalOrder) None None
      ("demo-" +:+ o_productId originalOrder +:+ "-" +:+ tpslOrderId)
      (if isTP then None else Some price)
      (o_security_symbol originalOrder)
      (Some ((if isTP then "takeProfit" else "stopLoss")
             +:+ "_for_" +:+ o_orderId originalOrder)) in
  let st1 := with_orderBook (currentOrderBook st ++ [tpslOrder]) st in
  addOrderToHistory
    (mkHistory (d_now d) (o_side tpslOrder) (o_size tpslOrder)
       (o_symbol tpslOrder) (o_orderType tpslOrder)
       (if isTP then Some price else None)
       (if isTP then None else Some (NSNum price))
       None "Open") st1.

(** [handleMarketOrderWithTPSL]: reads the take profit and the stop loss
    of the nested [order] object only. *)
Definition handleMarketOrderWithTPSL (d : Draws) (newOrder : Order)
    (order : OrderDetails) (st : BrokerState) : BrokerState :=
  let st1 :=
    match tpslPrice (od_takeProfit order) with
    | Some p => placeTPSLOrder d newOrder p true st
    | None => st
    end in
  match tpslPrice (od_stopLoss order) with
  | Some p => placeTPSLOrder d newOrder p false st1
  | None => st1
  end.

(** The order object that [addOrderToOrderBook] builds. *)
Definition buildOrder (d : Draws) (orderData : OrderInputData)
    (st : BrokerState) : Order :=
  let order := default noOrderDetails (i_order orderData) in
  let security := default noSecurity (i_security orderData) in
  let orderId :=
    str_or (or_str (od_orderId order) (i_orderId orderData))
      ("ORDER_" +:+ d_order d) in
  let orderSize :=
    num_or (or_num (or_num (or_num (od_size order) (od_quantity order))
                      (i_quantity orderData)) (i_size orderData)) 0 in
  let symbolName :=
    replace "BYBIT:FUTURE:" ""
      (str_or (or_str (or_str (s_symbol security) (od_symbol order))
                 (i_symbol orderData)) (currentSymbol st)) in
  let productId :=
    str_or (or_str (or_str (od_productId order) (s_full_name security))
              (i_symbol orderData)) (currentSymbol st) in
  mkOrder orderId (d_now d) "open"
    (num_or (or_num (od_price order) (i_price orderData)) 0)
    orderSize productId orderSize
    (str_or (or_str (or_str (od_orderType order) (i_orderType orderData))
               (i_type orderData)) "limit")
    (str_or (or_str (od_side order) (i_side orderData)) "buy")
    None None 0 None
    (str_or (s_exchange security) "BYBIT")
    symbolName
    (or_null (or_numstr (od_takeProfit order) (i_takeProfit orderData)))
    (or_null (or_numstr (od_stopLoss order) (i_stopLoss orderData)))
    ("demo-" +:+ productId +:+ "-" +:+ orderId)
    (or_num (or_num (od_stopPrice order) (i_stopPrice orderData)) None)
    (replace "BYBIT:FUTURE:" "" (str_or (i_symbol orderData) (currentSymbol st)))
    None.

(** [(order.orderType || orderData.orderType || "").toLowerCase() === "market"] *)
Definition isMarketOrder (orderData : OrderInputData) : bool :=
  let order := default noOrderDetails (i_order orderData) in
  String.eqb
    (toLowerCase (str_or (or_str (od_orderType order) (i_orderType orderData)) ""))
    "market".

(** [addOrderToOrderBook].  The order is pushed first; for a market
    order [createPositionAndTrade] then mutates that same object, which
    sits at the index it was pushed at. *)
Definition addOrderToOrderBook (d : Draws) (orderData : OrderInputData)
    (st : BrokerState) : BrokerState :=
  if negb (chartWrapper st) then st
  else
    let order := default noOrderDetails (i_order orderData) in
    let security := default noSecurity (i_security orderData) in
    let ltp := num_or (i_ltp orderData) getCurrentLTP in
    let newOrder := buildOrder d orderData st in
    let at_ := length (currentOrderBook st) in
    let st1 := with_orderBook (currentOrderBook st ++ [newOrder]) st in
    let '(st2, finalOrder) :=
      if isMarketOrder orderData then
        let '(sa, filled) := createPositionAndTrade d newOrder security ltp st1 in
        let sb := with_orderBook (<[at_ := filled]> (currentOrderBook sa)) sa in
        (handleMarketOrderWithTPSL d filled order sb, filled)
      else (st1, newOrder) in
    updateChartBrokerData
      (addOrderToHistory
         (mkHistory (d_now d) (o_side finalOrder) (o_size finalOrder)
            (o_symbol finalOrder) (o_orderType finalOrder)
            (if Qltb 0 (o_price finalOrder) then Some (o_price finalOrder) else None)
            (printed (o_stopLoss finalOrder)) (printed (o_takeProfit finalOrder))
            (if isMarketOrder orderData then "Filled" else "Open"))
         st2).

Definition has_orderId (orderId : string) (o : Order) : bool :=
  String.eqb (o_orderId o) orderId.

(** [removeOrderFromOrderBook] *)
Definition removeOrderFromOrderBook (d : Draws) (orderId : string)
    (st : BrokerState) : BrokerState :=
  match findIndex (has_orderId orderId) (currentOrderBook st) with
  | Some orderIndex =>
      match currentOrderBook st !! orderIndex with
      | Some removedOrder =>
          let st1 := with_orderBook (splice1 orderIndex (currentOrderBook st)) st in
          updateChartBrokerData
            (addOrderToHistory
               (mkHistory (d_now d) (o_side removedOrder) (o_size removedOrder)
                  (o_symbol removedOrder) (o_orderType removedOrder)
                  (if Qltb 0 (o_price removedOrder)
                   then Some (o_price removedOrder) else None)
                  None None "Cancelled")
               st1)
      | None => st
      end
  | None => st
  end.

(** The members of a MODIFY_ORDER message that the handler reads.  A
    member that the handler tests against [undefined] is an [option]
    whose [None] is [undefined]. *)
Record ModifyData := mkModify {
  m_orderId : option string;
  m_order_orderId : option string;
  m_id : option string;
  m_price : option Q;
  m_size : option Q;
  m_quantity : option Q;
  m_stopLoss : option (option numstr);
  m_takeProfit : option (option numstr)
}.

Definition order_modify (o : Order) (price : Q) (size remaining : value)
    (sl tp : option numstr) (at_ : Z) : Order :=
  mkOrder (o_orderId o) (o_timeStamp o) (o_status o) price size
    (o_productId o) remaining (o_orderType o) (o_side o)
    (o_fillPrice o) (o_avgFillPrice o) (o_filledSize o)
    (Some at_) (o_exchange o) (o_symbol o) tp sl (o_key o)
    (o_stopPrice o) (o_security_symbol o) (o_userTag o).

(** [modifyOrderInOrderBook].  When [size] or [quantity] is present and
    [modifyData.size || modifyData.quantity] is [undefined] (a size of 0
    and no quantity), the order is left with [undefined] as its size and
    NaN as its remaining size. *)
Definition modifyOrderInOrderBook (d : Draws) (modifyData : ModifyData)
    (st : BrokerState) : BrokerState :=
  let orderId :=
    or_str (or_str (m_orderId modifyData) (m_order_orderId modifyData))
      (m_id modifyData) in
  match findIndex (fun o => match orderId with
                            | Some i => has_orderId i o
                            | None => false
                            end) (currentOrderBook st) with
  | Some orderIndex =>
      match currentOrderBook st !! orderIndex with
      | Some order =>
          let price := default (o_price order) (m_price modifyData) in
          let '(size, remaining) :=
            match m_size modifyData, m_quantity modifyData with
            | None, None => (o_size order, o_remainingSize order)
            | _, _ =>
                let newSize :=
                  ofOption (or_num (m_size modifyData) (m_quantity modifyData)) in
                (newSize, sub newSize (or_value (o_filledSize order) 0))
            end in
          let modified :=
            order_modify order price size remaining
              (default (o_stopLoss order) (m_stopLoss modifyData))
              (default (o_takeProfit order) (m_takeProfit modifyData))
              (d_now d) in
          let st1 :=
            with_orderBook (<[orderIndex := modified]> (currentOrderBook st)) st in
          updateChartBrokerData
            (addOrderToHistory
               (mkHistory (d_now d) (o_side modified) (o_size modified)
                  (o_symbol modified) (o_orderType modified)
                  (if Qltb 0 (o_price modified)
                   then Some (o_price modified) else None)
                  (printed (o_stopLoss modified))
                  (printed (o_takeProfit modified)) "Modified")
               st1)
      | None => st
      end
  | None => st
  end.

(** The trading panel: the [quantity], [orderType], [limitPrice],
    [stopLoss] and [takeProfit] states. *)
Inductive PanelOrderType := PanelMarket | PanelLimit.

Definition panelOrderType (t : PanelOrderType) : string :=
  match t with PanelMarket => "market" | PanelLimit => "limit" end.

Record Panel := mkPanel {
  quantity : Q;
  orderType : PanelOrderType;
  limitPrice : string;
  stopLoss : string;
  takeProfit : string
}.

(** The [orderData] of [handleBuyOrder] and [handleSellOrder]. *)
Definition panelOrder (side : string) (p : Panel) (st : BrokerState) : OrderInputData :=
  mkOrderInput None None None
    (Some (match orderType p with
           | PanelLimit => num_or (parseFloat (limitPrice p)) 0
           | PanelMarket => 0
           end))
    None (Some (quantity p)) (Some (currentSymbol st))
    (Some (panelOrderType (orderType p))) None (Some side)
    (if String.eqb (takeProfit p) "" then None
     else option_map NSNum (parseFloat (takeProfit p)))
    (if String.eqb (stopLoss p) "" then None
     else option_map NSNum (parseFloat (stopLoss p)))
    None None.

Definition handleBuyOrder (d : Draws) (p : Panel) (st : BrokerState) : BrokerState :=
  addOrderToOrderBook d (panelOrder "buy" p st) st.

Definition handleSellOrder (d : Draws) (p : Panel) (st : BrokerState) : BrokerState :=
  addOrderToOrderBook d (panelOrder "sell" p st) st.

Definition handleResetBrokerData (st : BrokerState) : BrokerState :=
  updateChartBrokerData
    (with_history [] (with_positions [] (with_tradeBook [] (with_orderBook [] st)))).

(** The members of a CANCEL_ORDER message that the handler reads. *)
Record CancelMessage := mkCancel {
  c_orderId : option string;
  c_order_orderId : option string;
  c_id : option string;
  c_order_id : option string
}.

(** The [orderId] that the CANCEL_ORDER case extracts, when it is
    truthy. *)
Definition cancelledOrderId (message : CancelMessage) : option string :=
  match or_str (or_str (or_str (c_orderId message) (c_order_orderId message))
                  (c_id message)) (c_order_id message) with
  | Some EmptyString => None
  | other => other
  end.

Inductive TradingEvent :=
| CREATE_ORDER
| PLACE_ORDER (message : OrderInputData)
| CANCEL_ORDER (message : CancelMessage)
| MODIFY_ORDER (message : ModifyData)
| OPEN_TRADING_WIDGET
| OTHER_EVENT (eventType : string).

(** [handleTradingEvent]; the status line it also sets is not part of
    the ledger. *)
Definition handleTradingEvent (d : Draws) (ev : TradingEvent)
    (st : BrokerState) : BrokerState :=
  match ev with
  | CREATE_ORDER => st
  | PLACE_ORDER message => addOrderToOrderBook d message st
  | CANCEL_ORDER message =>
      match cancelledOrderId message with
      | Some orderId => removeOrderFromOrderBook d orderId st
      | None => st
      end
  | MODIFY_ORDER message => modifyOrderInOrderBook d message st
  | OPEN_TRADING_WIDGET => st
  | OTHER_EVENT _ => st
  end.

(** Everything that can happen to the ledger: the chart reporting ready
    ([onReady] sets [chartWrapperRef]), a chart event, and the three
    buttons of the panel. *)
Inductive Action :=
| ChartReady
| ChartEvent (ev : TradingEvent)
| Buy (p : Panel)
| Sell (p : Panel)
| Reset.

Definition act (d : Draws) (a : Action) (st : BrokerState) : BrokerState :=
  match a with
  | ChartReady => with_chartWrapper true st
  | ChartEvent ev => handleTradingEvent d ev st
  | Buy p => handleBuyOrder d p st
  | Sell p => handleSellOrder d p st
  | Reset => handleResetBrokerData st
  end.

(** A session: actions in order, each with what it draws. *)
Fixpoint session (l : list (Draws * Action)) (st : BrokerState) : BrokerState :=
  match l with
  | [] => st
  | (d, a) :: r => session r (act d a st)
  end.

End TradingHandlers.

End Broker.

(** ** Vocabulary of the statements *)

Module Spec.
Import Js Num Broker.
Local Open Scope Q_scope.

(** Both sizes long, or both short. *)
Definition same_sign (a b : value) : Prop :=
  (lt 0 a /\ lt 0 b) \/ (lt a 0 /\ lt b 0).

(** The average of two prices weighted by two sizes. *)
Definition weightedAverage (p1 w1 p2 w2 : Q) : Q :=
  (p1 * w1 + p2 * w2) / (w1 + w2).

(** An exact result that is a double: the operation that yields it
    neither rounds nor overflows. *)
Definition exact (q : Q) : Prop :=
  exists r, norm q = Fin r /\ r == q.

(** What the ledger invariant asks of a position. *)
Definition booked (pos : Position) : Prop :=
  p_size_currency pos = abs (p_size pos)
  /\ p_pnl pos = 0 /\ p_unPnl pos = 0 /\ p_rPnl pos = 0.

Definition valued (pos : Position) : Prop :=
  p_amount pos = mul (p_price pos) (abs (p_size pos)).

Definition open_ (pos : Position) : Prop :=
  le threshold (abs (p_size pos)).

(** The order size that [addOrderToOrderBook] reads from its input. *)
Definition orderSize (orderData : OrderInputData) : Q :=
  let order := default noOrderDetails (i_order orderData) in
  num_or (or_num (or_num (or_num (od_size order) (od_quantity order))
                    (i_quantity orderData)) (i_size orderData)) 0.

(** The size of the market order that an action places, if it places
    one. *)
Definition marketSize (a : Action) : option Q :=
  match a with
  | Buy p | Sell p =>
      match orderType p with
      | PanelMarket => Some (quantity p)
      | PanelLimit => None
      end
  | ChartEvent (PLACE_ORDER m) =>
      if isMarketOrder m then Some (orderSize m) else None
  | _ => None
  end.

(** An action whose market order, if it places one, has no negative
    size. *)
Definition unsigned (a : Action) : Prop :=
  forall q, marketSize a = Some q -> 0 <= q.

(** An action whose market order, if it places one, is of at least
    [0.0001] in absolute size. *)
Definition sized (a : Action) : Prop :=
  forall q, marketSize a = Some q -> round64 (1 # 10000) <= Qabs q.

End Spec.
(** ** Vocabulary of the further statements on the ledger *)

Module LedgerSpec.
Import Js Num Broker.
Local Open Scope Q_scope.

(** The bookkeeping of an order.  Its sizes are as they were placed
    (all of it remains), as they were filled (nothing remains), or as a
    modification left them (what remains is the size less the filled
    size, in doubles); an open order has no fill, a filled one has a
    fill price. *)
Definition accounted (o : Order) : Prop :=
  ((o_remainingSize o = o_size o /\ o_filledSize o = 0)
   \/ (o_remainingSize o = 0 /\ o_filledSize o = o_size o)
   \/ o_remainingSize o = sub (o_size o) (or_value (o_filledSize o) 0))
  /\ ((o_status o = "open" /\ o_fillPrice o = None /\ o_filledSize o = 0)
      \/ (o_status o = "filled" /\ o_fillPrice o <> None
          /\ o_avgFillPrice o = o_fillPrice o)).

(** What [findIndex] of [createPositionAndTrade] compares. *)
Definition positionKey (pos : Position) : string * string :=
  (p_productId pos, p_symbol pos).

(** A trade whose value and commission follow from price and size. *)
Definition settled (t : Trade) : Prop :=
  t_value t = mul (t_price t) (t_size t)
  /\ t_commission t = mul (t_value t) (literal (1 # 1000)).

Definition isReset (a : Action) : bool :=
  match a with Reset => true | _ => false end.

(** The identifier that [modifyOrderInOrderBook] looks for. *)
Definition modifiedOrderId (m : ModifyData) : option string :=
  or_str (or_str (m_orderId m) (m_order_orderId m)) (m_id m).

(** Whether a MODIFY_ORDER message carries a size. *)
Definition resizes (m : ModifyData) : bool :=
  match m_size m, m_quantity m with
  | None, None => false
  | _, _ => true
  end.

(** The other side. *)
Definition oppositeSide (side : string) : string :=
  if String.eqb side "buy" then "sell" else "buy".

End LedgerSpec.
(** ** Concrete inputs used by the examples *)

Module Fixtures.
Import Js Num Broker.
Local Open Scope Q_scope.

(** A [parseFloat] that reads nothing; the panels below leave their
    text fields empty. *)
Definition noParse : string -> option Q := fun _ => None.

(** The double that a decimal literal denotes. *)
Definition double (q : Q) : Q := round64 q.

Definition draws (n : Z) : Draws :=
  mkDraws n ("t" +:+ pretty n +:+ "_o") ("t" +:+ pretty n +:+ "_t")
    ("t" +:+ pretty n +:+ "_p") ("t" +:+ pretty n +:+ "_tp")
    ("t" +:+ pretty n +:+ "_sl").

(** The panel set to a market order of the given quantity. *)
Definition marketPanel (q : Q) : Panel := mkPanel q PanelMarket "" "" "".

Definition limitPanel (q : Q) : Panel := mkPanel q PanelLimit "" "" "".

(** A PLACE_ORDER message: side, quantity, last traded price, and the
    order type in [orderType]. *)
Definition placed (side orderType : string) (q ltp : Q) : OrderInputData :=
  mkOrderInput None None None None None (Some q) None (Some orderType) None
    (Some side) None None None (Some ltp).

(** The same with the order type in [type] instead. *)
Definition placedByType (side type : string) (q ltp : Q) : OrderInputData :=
  mkOrderInput None None None None None (Some q) None None (Some type)
    (Some side) None None None (Some ltp).

Definition ready : BrokerState := with_chartWrapper true initialState.

(** A long position of 1 at 100 that a market buy of 1 meets at 200. *)
Definition longOne : BrokerState :=
  with_positions
    [mkPosition "POS_x" "BYBIT:FUTURE:BTCUSDT" "BTCUSDT" 1 1 100 100 0 0 0
       "BYBIT" "BTCUSDT" (1 # 100) 1 "demo-BYBIT:FUTURE:BTCUSDT-POS_x"] ready.

Definition buyOne : Order :=
  buildOrder (draws 1) (placed "buy" "market" 1 200) longOne.

(** An order book of a resting limit order and a filled market order. *)
Definition twoOrders : BrokerState :=
  addOrderToOrderBook noParse (draws 2) (placed "buy" "market" 1 100)
    (addOrderToOrderBook noParse (draws 1) (placed "buy" "limit" 1 100) ready).

Definition twoTrades : list (Draws * Action) :=
  [(draws 0, ChartReady); (draws 1, Buy (marketPanel 2));
   (draws 2, Sell (marketPanel 5))].

End Fixtures.

Module MoreFixtures.
Import Js Num Broker Fixtures.
Local Open Scope Q_scope.

(** A market buy of 1 at 100 whose nested order asks for a take profit
    at 120 and a stop loss at 90. *)
Definition withTargets : OrderInputData :=
  mkOrderInput
    (Some (mkOrderDetails None None None None None None None
             (Some (NSNum 120)) (Some (NSNum 90)) None None))
    None None None None (Some 1) None (Some "market") None (Some "buy")
    None None None (Some 100).

(** A MODIFY_ORDER message for the resting order of [twoOrders]. *)
Definition reprice : ModifyData :=
  mkModify (Some "ORDER_t1_o") None None (Some 105) (Some 2) None None None.

(** A MODIFY_ORDER message for the same order with a size of 0 and no
    quantity. *)
Definition unsize : ModifyData :=
  mkModify (Some "ORDER_t1_o") None None None (Some 0) None None None.

(** A resting limit order, a market order, and then that message for
    the resting order. *)
Definition unsized : list (Draws * Action) :=
  [(draws 0, ChartReady);
   (draws 1, ChartEvent (PLACE_ORDER (placed "buy" "limit" 1 100)));
   (draws 2, ChartEvent (PLACE_ORDER (placed "buy" "market" 1 100)));
   (draws 3, ChartEvent (MODIFY_ORDER unsize))].

(** An order type that spells market with the Kelvin sign U+212A in
    place of the K. *)
Definition kelvin : string :=
  "MAR" +:+ String (ascii_of_nat 226) (String (ascii_of_nat 132)
              (String (ascii_of_nat 170) "ET")).

(** A [parseFloat] for the texts of the panel below. *)
Definition parseTargets (s : string) : option Q :=
  if String.eqb s "90" then Some 90
  else if String.eqb s "120" then Some 120
  else None.

(** The panel set to a market order of 1 with a stop loss of 90 and a
    take profit of 120 typed in. *)
Definition targetsPanel : Panel := mkPanel 1 PanelMarket "" "90" "120".

(** Twelve limit orders from the panel, of quantities 1 to 12. *)
Definition twelve : list (Draws * Action) :=
  (draws 0, ChartReady)
  :: ((fun n => (draws n, Buy (limitPanel (inject_Z n)))) <$> seqZ 1 12).

End MoreFixtures.

(** ** The demo datafeed of [chart-datafeed.ts] *)

Module Datafeed.
Import Js.

Local Open Scope Q_scope.

Set Warnings "-register-all".

(** Object literals and API payloads. *)
Inductive json :=
| JUndef
| JNull
| JBool (b : bool)
| JNum (q : Q)
| JStr (s : string)
| JArr (items : list json)
| JObj (members : list (string * json)).

(** [obj.key]; an absent member and a non-object both read as
    [undefined]. *)
Fixpoint member_of (key : string) (members : list (string * json)) : json :=
  match members with
  | [] => JUndef
  | (k, v) :: r => if String.eqb k key then v else member_of key r
  end.

Definition member (key : string) (obj : json) : json :=
  match obj with
  | JObj members => member_of key members
  | _ => JUndef
  end.

(** A member read where the source goes on to use it as a string. *)
Definition str_member (key : string) (obj : json) : option string :=
  match member key obj with
  | JStr s => Some s
  | _ => None
  end.

Definition jstrs (l : list string) : json := JArr (JStr <$> l).

Definition opt_str (o : option string) : json :=
  match o with
  | Some s => JStr s
  | None => JUndef
  end.

(** A synchronous outcome: a value, or a thrown error. *)
Inductive result (A : Type) :=
| Ok (a : A)
| Throw (message : string).
Arguments Ok {A} a.
Arguments Throw {A} message.

(** *** [parseInt] *)

Definition is_space (c : ascii) : bool :=
  let n := nat_of_ascii c in
  (n =? 32)%nat || ((9 <=? n)%nat && (n <=? 13)%nat).

Fixpoint trim_start (s : string) : string :=
  match s with
  | String c r => if is_space c then trim_start r else s
  | EmptyString => s
  end.

Definition digit_of (radix : Z) (c : ascii) : option Z :=
  let n := Z.of_nat (nat_of_ascii c) in
  let v :=
    if (48 <=? n)%Z && (n <=? 57)%Z then Some (n - 48)%Z
    else if (97 <=? n)%Z && (n <=? 122)%Z then Some (n - 87)%Z
    else if (65 <=? n)%Z && (n <=? 90)%Z then Some (n - 55)%Z
    else None in
  match v with
  | Some d => if (d <? radix)%Z then Some d else None
  | None => None
  end.

(** The value of the longest prefix of digits, [None] when it is
    empty. *)
Fixpoint digits (radix : Z) (acc : option Z) (s : string) : option Z :=
  match s with
  | String c r =>
      match digit_of radix c with
      | Some d => digits radix (Some (default 0 acc * radix + d)%Z) r
      | None => acc
      end
  | EmptyString => acc
  end.

(** [parseInt(s)] without a radix; [None] is NaN. *)
Definition parseInt (s : string) : option Z :=
  let s1 := trim_start s in
  let '(sign, s2) :=
    match s1 with
    | String "-" r => ((-1)%Z, r)
    | String "+" r => (1%Z, r)
    | _ => (1%Z, s1)
    end in
  let '(radix, s3) :=
    match s2 with
    | String "0" (String "x" r) => (16%Z, r)
    | String "0" (String "X" r) => (16%Z, r)
    | _ => (10%Z, s2)
    end in
  option_map (Z.mul sign) (digits radix None s3).

(** *** Bars *)

(** A [RawBar].  [date], when a bar carries one, is kept as the
    millisecond instant that [new Date(bar.date).getTime()] gives. *)
Record RawBar := mkBar {
  time : Q;
  open : Q;
  high : Q;
  low : Q;
  close : Q;
  volume : Q;
  date : option Z
}.

Inductive UDF :=
| UdfNoData
| UdfOk (t o h l c v : list Q).

(** The six arrays of [convertToUDFFormat] while [forEach] runs. *)
Definition pushBar (acc : list Q * list Q * list Q * list Q * list Q * list Q)
    (bar : RawBar) : list Q * list Q * list Q * list Q * list Q * list Q :=
  let '(t, o, h, l, c, v) := acc in
  let timestamp :=
    if negb (Qeq_bool (time bar) 0) then Some (time bar)
    else match date bar with
         | Some ms => Some (inject_Z (ms / 1000))
         | None => None
         end in
  match timestamp with
  | Some ts =>
      (t ++ [ts], o ++ [open bar], h ++ [high bar], l ++ [low bar],
       c ++ [close bar], v ++ [num_or (Some (volume bar)) 0])
  | None => acc
  end.

(** A resolution as the chart passes it: a string, an object with
    [scale] and [units], or anything else. *)
Inductive Resolution :=
| ResString (s : string)
| ResObject (scale : Z) (units : string)
| ResOther.

(** A value that is a number or a string at run time. *)
Inductive jsval :=
| VNum (n : Z)
| VStr (s : string).

(** [Number(s)] on integer literals; [None] is NaN. *)
Definition toNumber (v : jsval) : option Z :=
  match v with
  | VNum n => Some n
  | VStr EmptyString => Some 0%Z
  | VStr (String "-" r) =>
      if forallb (fun c => bool_decide (is_Some (digit_of 10 c))) (list_ascii_of_string r)
      then option_map Z.opp (digits 10 None r) else None
  | VStr s =>
      if forallb (fun c => bool_decide (is_Some (digit_of 10 c))) (list_ascii_of_string s)
      then digits 10 None s else None
  end.

Definition numToString (n : option Z) : string :=
  match n with
  | Some z => pretty z
  | None => "NaN"
  end.

Definition toString (v : jsval) : string :=
  match v with
  | VNum n => pretty n
  | VStr s => s
  end.

(** [scale * k] followed by the conversion to a string. *)
Definition timesToString (v : jsval) (k : Z) : string :=
  numToString (option_map (fun n => (n * k)%Z) (toNumber v)).

(** [scale === 1] *)
Definition isOne (v : jsval) : bool :=
  match v with
  | VNum n => (n =? 1)%Z
  | VStr _ => false
  end.

Record ResolutionInfo := mkResolutionInfo {
  ri_scale : Z;
  ri_units : string;
  ri_label : string
}.

Record PeriodParams := mkPeriod {
  from : Z;
  to : Z;
  firstDataRequest : bool;
  rows : option Z
}.

(** The kline request that [getBybitBars] puts in the URL. *)
Record KlineRequest := mkKline {
  k_symbol : string;
  k_interval : string;
  k_start : option Z;
  k_end : Z;
  k_limit : Z
}.

(** A row of [data.result.list], each member as the number that
    [Number] reads from it. *)
Record KlineRow := mkRow {
  r_timestamp : Z;
  r_open : Q;
  r_high : Q;
  r_low : Q;
  r_close : Q;
  r_volume : Q
}.

(** What [fetch] and [response.json()] give for a kline request: they
    throw, or there is a body whose [result.list] is present or not. *)
Inductive KlineReply :=
| FetchThrows
| NoList
| KlineList (list_ : list KlineRow).

(** The search payload handed to the callback of [searchSymbols]. *)
Inductive SearchPayload :=
| SymbolArray (symbols : list json)
| SearchResult (searchInProgress : bool) (items : list json).

(** What the datafeed does to the outside: requests, callbacks, and
    aborts of the search controller. *)
Inductive Effect :=
| ExactSearchRequest (q : string)
| SearchRequest (q : string)
| OnResolve (symbolInfo : json)
| OnError (message : string)
| SearchCallback (payload : SearchPayload)
| AbortSearch.

(** The members of the datafeed object that the modelled methods use.
    An interval handle is a positive number, as [setInterval] returns
    in a browser; [timers] are the intervals that are running and
    [nextHandle] the handle that the next [setInterval] returns.  The
    search controller is kept as whether there is one. *)
Record State := mkDatafeed {
  symbolCache : gmap string json;
  searchSymbolController : bool;
  streamingIntervals : gmap string positive;
  timers : gset positive;
  nextHandle : positive
}.

Definition created : State :=
  mkDatafeed ∅ false ∅ ∅ 1%positive.

(** [streamingIntervals[key] = handle] on the plain object.  The key
    "__proto__" names the accessor that the object inherits from
    [Object.prototype], and its setter ignores a number: nothing is
    stored, unless the object has a member of its own by that name.
    Every other key becomes a member of the object. *)
Definition setMember (key : string) (handle : positive)
    (record : gmap string positive) : gmap string positive :=
  if String.eqb key "__proto__" && bool_decide (record !! key = None) then record
  else <[key := handle]> record.

(** The environment of a datafeed: the two GoCharting endpoints, as
    the members of the symbol object and the result list that the
    methods build from the response ([None] when the method throws),
    the Bybit kline endpoint, the clock, and the draws of [Math.random]
    in order. *)
Record World := mkWorld {
  exactSearch : string -> option (list (string * json));
  search : string -> option (list json);
  kline : KlineRequest -> KlineReply;
  now : Z;
  random : nat -> Q
}.

Definition resolutions9 : list string :=
  ["1"; "5"; "15"; "30"; "60"; "240"; "1D"; "1W"; "1M"].

Definition openAllWeek : json :=
  JArr (replicate 7 (JObj [("open", JBool true)])).

Definition openWeekdays : json :=
  JArr [JObj [("open", JBool false)]; JObj [("open", JBool true)];
        JObj [("open", JBool true)]; JObj [("open", JBool true)];
        JObj [("open", JBool true)]; JObj [("open", JBool true)];
        JObj [("open", JBool false)]].

(** [Math.log10] on a positive power of ten. *)
Fixpoint log10 (fuel : nat) (n : Z) : Z :=
  match fuel with
  | O => 0
  | S f => if (n <? 10)%Z then 0 else (1 + log10 f (n / 10))%Z
  end.

(** *** Methods whose bodies do not depend on the edition's types *)

Definition getExchangeInfo (exchange : string) : string * string * option string :=
  if String.eqb exchange "NASDAQ" then ("America/New_York", "0930-1600", Some "US")
  else if String.eqb exchange "NYSE" then ("America/New_York", "0930-1600", Some "US")
  else if String.eqb exchange "BYBIT" then ("Etc/UTC", "24x7", None)
  else if String.eqb exchange "BINANCE" then ("Etc/UTC", "24x7", None)
  else if String.eqb exchange "FOREX" then ("Etc/UTC", "24x5", None)
  else ("Etc/UTC", "24x7", None).

Definition descriptions (ticker : string) : option string :=
  if String.eqb ticker "AAPL" then Some "Apple Inc."
  else if String.eqb ticker "MSFT" then Some "Microsoft Corporation"
  else if String.eqb ticker "GOOGL" then Some "Alphabet Inc."
  else if String.eqb ticker "TSLA" then Some "Tesla Inc."
  else if String.eqb ticker "BTCUSDT" then Some "Bitcoin / Tether"
  else if String.eqb ticker "ETHUSDT" then Some "Ethereum / Tether"
  else None.

Definition getSymbolDescription (ticker instrumentType : option string) : json :=
  let baseDescription :=
    match ticker with
    | Some t => Some (str_or (descriptions t) t)
    | None => None
    end in
  if bool_decide (instrumentType = Some "FUTURE")
  then JStr (default "undefined" baseDescription +:+ " Future")
  else opt_str baseDescription.

Definition getSymbolType (exchange : string) : string :=
  if String.eqb exchange "NASDAQ" then "stock"
  else if String.eqb exchange "NYSE" then "stock"
  else if String.eqb exchange "BYBIT" then "crypto"
  else if String.eqb exchange "BINANCE" then "crypto"
  else if String.eqb exchange "FOREX" then "forex"
  else "crypto".

Definition isCrypto (exchange : string) : bool :=
  String.eqb exchange "BYBIT" || String.eqb exchange "BINANCE".

(** [ticker.includes] throws on an absent ticker. *)
Definition getPriceScale (exchange : string) (ticker : option string) : result Z :=
  if isCrypto exchange then
    match ticker with
    | Some t =>
        if includes "USDT" t || includes "USD" t then Ok 100%Z
        else Ok 100000000%Z
    | None => Throw "TypeError"
    end
  else Ok 100%Z.

Definition getVolumePrecision (exchange : string) : Z :=
  if isCrypto exchange then 8%Z else 0%Z.

Definition getCurrencyCode (exchange : string) (ticker : option string) : result string :=
  if isCrypto exchange then
    match ticker with
    | Some t =>
        if includes "USDT" t then Ok "USDT"
        else if includes "USD" t then Ok "USD"
        else if includes "BTC" t then Ok "BTC"
        else Ok "USD"
    | None => Throw "TypeError"
    end
  else Ok "USD".

(** [const parts = symbolName.split(":")] and the destructuring that
    follows: exchange, ticker, instrument type. *)
Definition symbolParts (symbolName : string) : string * option string * option string :=
  match split_on ":" symbolName with
  | [exchange; instrumentType; ticker] => (exchange, Some ticker, Some instrumentType)
  | exchange :: ticker :: _ => (exchange, Some ticker, None)
  | [exchange] => (exchange, None, None)
  | [] => (EmptyString, None, None)
  end.

Definition intervalMap (intervalString : string) : option ResolutionInfo :=
  if String.eqb intervalString "1m" then Some (mkResolutionInfo 1 "minutes" "1")
  else if String.eqb intervalString "5m" then Some (mkResolutionInfo 5 "minutes" "5")
  else if String.eqb intervalString "15m" then Some (mkResolutionInfo 15 "minutes" "15")
  else if String.eqb intervalString "30m" then Some (mkResolutionInfo 30 "minutes" "30")
  else if String.eqb intervalString "1h" then Some (mkResolutionInfo 1 "hours" "60")
  else if String.eqb intervalString "4h" then Some (mkResolutionInfo 4 "hours" "240")
  else if String.eqb intervalString "1D" then Some (mkResolutionInfo 1 "days" "D")
  else if String.eqb intervalString "1W" then Some (mkResolutionInfo 1 "weeks" "W")
  else if String.eqb intervalString "1M" then Some (mkResolutionInfo 1 "months" "M")
  else None.

(** The symbols of [searchSymbolsMock]. *)
Definition mockSymbol (symbol full_name description exchange type : string) : json :=
  JObj [("symbol", JStr symbol); ("full_name", JStr full_name);
        ("description", JStr description); ("exchange", JStr exchange);
        ("ticker", JStr symbol); ("type", JStr type); ("key", JStr full_name)].

Definition mockSymbols : list json :=
  [mockSymbol "BTCUSDT" "BYBIT:FUTURE:BTCUSDT" "Bitcoin Future (BTCUSDT)" "BYBIT" "crypto";
   mockSymbol "ETHUSDT" "BYBIT:FUTURE:ETHUSDT" "Ethereum Future (ETHUSDT)" "BYBIT" "crypto";
   mockSymbol "AAPL" "NASDAQ:AAPL" "Apple (AAPL)" "NASDAQ" "stock";
   mockSymbol "TSLA" "NASDAQ:TSLA" "Tesla (TSLA)" "NASDAQ" "stock";
   mockSymbol "BTC" "BINANCE:BTC" "Bitcoin Spot (BTC)" "BINANCE" "crypto";
   mockSymbol "INVALID_TEST" "TEST:INVALID_TEST" "Invalid Symbol (Test Error)" "TEST" "test"].

Definition matchesInput (userInput : string) (s : json) : bool :=
  includes (toLowerCase userInput) (toLowerCase (default "" (str_member "symbol" s)))
  || includes (toLowerCase userInput)
       (toLowerCase (default "" (str_member "description" s))).

(** The [symbolData] table of [createMockSymbolInfo]: symbol, name,
    description, industry, logo. *)
Definition symbolData (symbolName : string)
  : option (string * string * string * string * string) :=
  if String.eqb symbolName "NASDAQ:AAPL" then
    Some ("AAPL", "APPLE INC", "Apple Inc. - Common Stock", "technology",
          "https://upload.wikimedia.org/wikipedia/commons/f/fa/Apple_logo_black.svg")
  else if String.eqb symbolName "NASDAQ:TSLA" then
    Some ("TSLA", "TESLA INC", "Tesla Inc. - Common Stock", "automotive",
          "https://upload.wikimedia.org/wikipedia/commons/b/bb/Tesla_T_symbol.svg")
  else None.

Definition nasdaqExchangeInfo : json :=
  JObj [("name", JStr "nasdaq"); ("code", JStr "NASDAQ"); ("country_cd", JStr "US");
        ("zone", JStr "America/New_York"); ("has_unique_trade_id", JBool true);
        ("logo_url",
         JStr "https://upload.wikimedia.org/wikipedia/commons/4/48/Nasdaq_Logo.svg");
        ("holidays", JNull); ("hours", openWeekdays);
        ("contains_ambiguous_symbols", JBool false);
        ("valid_intervals", jstrs resolutions9)].

Definition localExchangeInfo (exchange : string) : json :=
  let '(timezone, session, country_cd) := getExchangeInfo exchange in
  JObj [("name", JStr (toLowerCase exchange)); ("code", JStr exchange);
        ("country_cd", JStr (str_or country_cd "US")); ("zone", JStr timezone);
        ("has_unique_trade_id", JBool true); ("holidays", JNull);
        ("hours", if String.eqb session "24x7" then openAllWeek else openWeekdays);
        ("contains_ambiguous_symbols", JBool false);
        ("valid_intervals", jstrs resolutions9)].

(** Truthiness of a value. *)
Definition truthy (v : json) : bool :=
  match v with
  | JUndef | JNull | JBool false | JStr EmptyString => false
  | JNum q => negb (Qeq_bool q 0)
  | _ => true
  end.

(** *** The first edition (the untyped [createChartDatafeed]) *)

Module Untyped.

(** [destroy]: every registered interval is cleared, the record of
    intervals is replaced by an empty one, a search controller is
    aborted, and the symbol cache is cleared. *)
Definition destroy (st : State) : State * list Effect :=
  (mkDatafeed ∅ (searchSymbolController st) ∅
     (timers st ∖ map_img (streamingIntervals st)) (nextHandle st),
   if searchSymbolController st then [AbortSearch] else []).

Definition convertToUDFFormat (rawBars : list RawBar) : UDF :=
  match rawBars with
  | [] => UdfNoData
  | _ =>
      let '(t, o, h, l, c, v) := foldl pushBar ([], [], [], [], [], []) rawBars in
      UdfOk t o h l c v
  end.

Definition convertIntervalToResolution (intervalString : string) : ResolutionInfo :=
  match intervalMap intervalString with
  | Some resolution => resolution
  | None => mkResolutionInfo 1 "days" "D"
  end.

(** [deriveIntervalLabel], on what its two arguments are at run time. *)
Definition deriveIntervalLabel (scale units : jsval) : string :=
  match units with
  | VStr u =>
      if String.eqb u "minutes" then toString scale
      else if String.eqb u "hours" then timesToString scale 60
      else if String.eqb u "days" then
        if isOne scale then "D" else toString scale +:+ "D"
      else if String.eqb u "weeks" then
        if isOne scale then "W" else timesToString scale 7 +:+ "W"
      else if String.eqb u "months" then
        if isOne scale then "M" else timesToString scale 30 +:+ "M"
      else "D"
  | VNum _ => "D"
  end.

(** The [interval] that [getBybitBars] derives from the resolution. *)
Definition klineInterval (resolution : Resolution) : result string :=
  match resolution with
  | ResString s => Ok (ri_label (convertIntervalToResolution s))
  | ResObject r_scale r_units =>
      let scale := VStr r_units in
      let units := VNum r_scale in
      Ok (deriveIntervalLabel scale units)
  | ResOther => Throw "Invalid resolution format"
  end.

Definition barOfRow (row : KlineRow) : RawBar :=
  mkBar (inject_Z (r_timestamp row / 1000)) (r_open row) (r_high row)
    (r_low row) (r_close row) (r_volume row) None.

Definition klineLimit (p : PeriodParams) : Z :=
  match rows p with
  | Some n => if (n =? 0)%Z then 200%Z else n
  | None => 200%Z
  end.

Definition klineRequest (w : World) (bybitSymbol interval : string)
    (p : PeriodParams) : KlineRequest :=
  if firstDataRequest p then
    mkKline bybitSymbol interval None (now w) (klineLimit p)
  else
    mkKline bybitSymbol interval (Some (from p)) (to p) (klineLimit p).

Definition getBybitBars (w : World) (symbolInfo : json) (resolution : Resolution)
    (p : PeriodParams) : result (list RawBar) :=
  match klineInterval resolution with
  | Throw m => Throw m
  | Ok interval =>
      let bybitSymbol :=
        default "undefined"
          (or_str (or_str (str_member "symbol" symbolInfo)
                     (str_member "ticker" symbolInfo))
             (str_member "name" symbolInfo)) in
      match kline w (klineRequest w bybitSymbol interval p) with
      | FetchThrows => Throw "fetch"
      | NoList => Throw "No data from Bybit API"
      | KlineList list_ => Ok (rev (barOfRow <$> list_))
      end
  end.

(** The step of [generateDemoData] between two bars, in seconds. *)
Definition demoInterval (resolution : Resolution) : Q :=
  match resolution with
  | ResString s =>
      match parseInt s with
      | Some resolutionNum => inject_Z resolutionNum * 60
      | None => 86400
      end
  | _ => 86400
  end.

(** The [while] loop of [generateDemoData]; [k] counts the draws of
    [Math.random] so far.  [None] when [fuel] iterations do not reach
    the end of the loop. *)
Fixpoint demoLoop (fuel : nat) (random : nat -> Q) (k : nat)
    (interval endTime basePrice currentTime : Q) : option (list RawBar) :=
  if Qle_bool endTime currentTime then Some []
  else
    match fuel with
    | O => None
    | S fuel' =>
        let randomChange := (random k - (1 # 2)) * 1000 in
        let open := basePrice in
        let close := basePrice + randomChange in
        let high := Qmax open close + random (k + 1)%nat * 500 in
        let low := Qmin open close - random (k + 2)%nat * 500 in
        let volume := random (k + 3)%nat * 1000000 in
        option_map (cons (mkBar currentTime open high low close volume None))
          (demoLoop fuel' random (k + 4) interval endTime close
             (currentTime + interval))
    end.

Definition generateDemoData (fuel : nat) (random : nat -> Q) (from to : Z)
    (resolution : Resolution) : option (list RawBar) :=
  let startTime := inject_Z from / 1000 in
  let endTime := inject_Z to / 1000 in
  demoLoop fuel random 0 (demoInterval resolution) endTime 50000 startTime.

(** [getBars].  The outer [option] is [None] when the fallback loop does
    not come to an end within [fuel] iterations; the [result] tells a
    resolved promise from a rejected one.  The log that precedes the
    [try] reads [symbolInfo.exchange], which throws when [symbolInfo] is
    null or undefined. *)
Definition getBars (fuel : nat) (w : World) (symbolInfo : json)
    (resolution : Resolution) (p : PeriodParams) : option (result UDF) :=
  let demo :=
    option_map (fun rawBars => Ok (convertToUDFFormat rawBars))
      (generateDemoData fuel (random w) (from p) (to p) resolution) in
  match symbolInfo with
  | JNull | JUndef => Some (Throw "TypeError")
  | _ =>
      if bool_decide (str_member "exchange" symbolInfo = Some "BYBIT") then
        match getBybitBars w symbolInfo resolution p with
        | Ok rawBars => Some (Ok (convertToUDFFormat rawBars))
        | Throw _ => demo
        end
      else demo
  end.

Definition createMockSymbolInfo (symbolName : string) : result json :=
  match symbolData symbolName with
  | None => Throw ("Mock symbol data not found for: " +:+ symbolName)
  | Some (symbol, name, description, industry, logo_url) =>
      Ok (JObj
        [("exchange", JStr "NASDAQ"); ("segment", JStr "SPOT");
         ("symbol", JStr symbol); ("name", JStr name);
         ("full_name", JStr symbolName); ("description", JStr description);
         ("type", JStr "stock"); ("asset_type", JStr "EQUITY");
         ("source_id", JStr symbol); ("tradeable", JBool true);
         ("is_index", JBool false); ("is_formula", JBool false);
         ("delay_seconds", JNum 0); ("data_status", JStr "streaming");
         ("industry", JStr industry); ("symbol_logo_urls", jstrs [logo_url]);
         ("contract_size", JNum 1); ("tick_size", JNum 1);
         ("display_tick_size", JNum 1); ("volume_size_increment", JNum 1);
         ("max_tick_precision", JNum 2); ("max_volume_precision", JNum 0);
         ("quote_currency", JStr "USD");
         ("data_source_location", JStr "us-east-1");
         ("supports", JObj [("footprint", JBool true)]);
         ("exchange_info", nasdaqExchangeInfo);
         ("session", JStr "0930-1600"); ("session_label", JStr "0930-1600");
         ("timezone", JStr "America/New_York"); ("ticker", JStr symbol);
         ("minmov", JNum 1); ("pricescale", JNum 100);
         ("has_intraday", JBool true); ("has_daily", JBool true);
         ("has_weekly_and_monthly", JBool true);
         ("supported_resolutions", jstrs resolutions9);
         ("intraday_multipliers", jstrs ["1"; "5"; "15"; "30"; "60"; "240"; "1D"]);
         ("volume_precision", JNum 0); ("listed_exchange", JStr "NASDAQ");
         ("format", JStr "price"); ("currency_code", JStr "USD");
         ("instrument_type", JStr "spot")])
  end.

Definition resolveSymbolLocally (symbolName : string) : result json :=
  if String.eqb symbolName "INVALID:SYMBOL" then
    Throw ("Symbol not found: " +:+ symbolName
           +:+ ". This symbol does not exist in our database.")
  else if String.eqb symbolName "NASDAQ:AAPL" || String.eqb symbolName "NASDAQ:TSLA"
  then createMockSymbolInfo symbolName
  else
    let '(exchange, ticker, instrumentType) := symbolParts symbolName in
    let '(timezone, session, _) := getExchangeInfo exchange in
    match getPriceScale exchange ticker, getCurrencyCode exchange ticker with
    | Ok pricescale, Ok currency_code =>
        Ok (JObj
          [("name", JStr symbolName); ("full_name", JStr symbolName);
           ("description", getSymbolDescription ticker instrumentType);
           ("type", JStr (getSymbolType exchange));
           ("session", JStr session); ("session_label", JStr session);
           ("timezone", JStr timezone); ("ticker", opt_str ticker);
           ("exchange", JStr exchange); ("minmov", JNum 1);
           ("pricescale", JNum (inject_Z pricescale));
           ("has_intraday", JBool true); ("has_daily", JBool true);
           ("has_weekly_and_monthly", JBool true);
           ("supported_resolutions", jstrs resolutions9);
           ("volume_precision", JNum (inject_Z (getVolumePrecision exchange)));
           ("data_status", JStr "streaming"); ("listed_exchange", JStr exchange);
           ("format", JStr "price"); ("currency_code", JStr currency_code);
           ("instrument_type", JStr (str_or instrumentType "spot"));
           ("exchange_info", localExchangeInfo exchange)])
    | Throw m, _ => Throw m
    | _, Throw m => Throw m
    end.

Definition cacheSymbol (symbolName : string) (symbolInfo : json) (st : State) : State :=
  mkDatafeed (<[symbolName := symbolInfo]> (symbolCache st))
    (searchSymbolController st) (streamingIntervals st) (timers st)
    (nextHandle st).

(** [resolveSymbol]: the cache, then the exact-search endpoint, then
    the local fallback. *)
Definition resolveSymbol (w : World) (symbolName : string) (st : State)
  : State * list Effect :=
  match symbolCache st !! symbolName with
  | Some cachedSymbolInfo => (st, [OnResolve cachedSymbolInfo])
  | None =>
      match exactSearch w symbolName with
      | Some members =>
          (cacheSymbol symbolName (JObj members) st,
           [ExactSearchRequest symbolName; OnResolve (JObj members)])
      | None =>
          match resolveSymbolLocally symbolName with
          | Ok symbolInfo =>
              (cacheSymbol symbolName symbolInfo st,
               [ExactSearchRequest symbolName; OnResolve symbolInfo])
          | Throw _ =>
              (st, [ExactSearchRequest symbolName;
                    OnError "Failed to resolve symbol"])
          end
      end
  end.

Definition withController (st : State) : State :=
  mkDatafeed (symbolCache st) true (streamingIntervals st) (timers st)
    (nextHandle st).

(** [searchSymbolsMock]; [hasCallback] is whether [callback] is a
    function. *)
Definition searchSymbolsMock (userInput : string) (hasCallback : bool) : list Effect :=
  if hasCallback then
    [SearchCallback
       (SymbolArray (filter (fun s => matchesInput userInput s) mockSymbols))]
  else [].

(** [searchSymbols(userInput, callback)]: the search endpoint, and the
    mock list when the request fails. *)
Definition searchSymbols (w : World) (userInput : string) (hasCallback : bool)
    (st : State) : State * list Effect :=
  let aborts := if searchSymbolController st then [AbortSearch] else [] in
  (withController st,
   aborts ++ [SearchRequest userInput] ++
   match search w userInput with
   | Some items =>
       if hasCallback then [SearchCallback (SearchResult false items)] else []
   | None => searchSymbolsMock userInput hasCallback
   end).

(** [startDemoStreaming]: an interval already registered for the
    subscriber is cleared, a new one is started, and it is stored under
    the subscriber.  A key that the record does not hold reads as
    [undefined] or as a member inherited from [Object.prototype], which
    is no interval: [clearInterval] clears nothing for it.  The
    interval's callback, which fires every two seconds, is not
    modelled. *)
Definition startDemoStreaming (subscriberUID : string) (st : State) : State :=
  let running :=
    match streamingIntervals st !! subscriberUID with
    | Some handle => timers st ∖ {[handle]}
    | None => timers st
    end in
  mkDatafeed (symbolCache st) (searchSymbolController st)
    (setMember subscriberUID (nextHandle st) (streamingIntervals st))
    (running ∪ {[nextHandle st]}) (Pos.succ (nextHandle st)).

Definition subscribeBars (subscriberUID : string) (st : State) : State :=
  startDemoStreaming subscriberUID st.

(** [unsubscribeBars]: the interval stored under the subscriber is
    cleared and the member deleted.  For a key that the record does not
    hold, what is read is no interval and there is nothing to delete. *)
Definition unsubscribeBars (subscriberUID : string) (st : State) : State :=
  match streamingIntervals st !! subscriberUID with
  | Some handle =>
      mkDatafeed (symbolCache st) (searchSymbolController st)
        (delete subscriberUID (streamingIntervals st))
        (timers st ∖ {[handle]}) (nextHandle st)
  | None => st
  end.

End Untyped.

(** *** The second edition (the typed [createChartDatafeed]) *)

Module Typed.

(** [destroy]: every registered interval is cleared, the record of
    intervals is replaced by an empty one, a search controller is
    aborted, and the symbol cache is cleared. *)
Definition destroy (st : State) : State * list Effect :=
  (mkDatafeed ∅ (searchSymbolController st) ∅
     (timers st ∖ map_img (streamingIntervals st)) (nextHandle st),
   if searchSymbolController st then [AbortSearch] else []).

Definition convertToUDFFormat (rawBars : list RawBar) : UDF :=
  match rawBars with
  | [] => UdfNoData
  | _ =>
      let '(t, o, h, l, c, v) := foldl pushBar ([], [], [], [], [], []) rawBars in
      UdfOk t o h l c v
  end.

Definition convertIntervalToResolution (intervalString : string) : ResolutionInfo :=
  match intervalMap intervalString with
  | Some resolution => resolution
  | None => mkResolutionInfo 1 "days" "D"
  end.

(** [deriveIntervalLabel], on what its two arguments are at run time. *)
Definition deriveIntervalLabel (scale units : jsval) : string :=
  match units with
  | VStr u =>
      if String.eqb u "minutes" then toString scale
      else if String.eqb u "hours" then timesToString scale 60
      else if String.eqb u "days" then
        if isOne scale then "D" else toString scale +:+ "D"
      else if String.eqb u "weeks" then
        if isOne scale then "W" else timesToString scale 7 +:+ "W"
      else if String.eqb u "months" then
        if isOne scale then "M" else timesToString scale 30 +:+ "M"
      else "D"
  | VNum _ => "D"
  end.

(** The [interval] that [getBybitBars] derives from the resolution. *)
Definition klineInterval (resolution : Resolution) : result string :=
  match resolution with
  | ResString s => Ok (ri_label (convertIntervalToResolution s))
  | ResObject r_scale r_units =>
      let scale := VStr r_units in
      let units := VNum r_scale in
      Ok (deriveIntervalLabel scale units)
  | ResOther => Throw "Invalid resolution format"
  end.

Definition barOfRow (row : KlineRow) : RawBar :=
  mkBar (inject_Z (r_timestamp row / 1000)) (r_open row) (r_high row)
    (r_low row) (r_close row) (r_volume row) None.

Definition klineLimit (p : PeriodParams) : Z :=
  match rows p with
  | Some n => if (n =? 0)%Z then 200%Z else n
  | None => 200%Z
  end.

Definition klineRequest (w : World) (bybitSymbol interval : string)
    (p : PeriodParams) : KlineRequest :=
  if firstDataRequest p then
    mkKline bybitSymbol interval None (now w) (klineLimit p)
  else
    mkKline bybitSymbol interval (Some (from p)) (to p) (klineLimit p).

Definition getBybitBars (w : World) (symbolInfo : json) (resolution : Resolution)
    (p : PeriodParams) : result (list RawBar) :=
  match klineInterval resolution with
  | Throw m => Throw m
  | Ok interval =>
      let bybitSymbol :=
        str_or (or_str (str_member "symbol" symbolInfo)
                  (str_member "ticker" symbolInfo)) "" in
      match kline w (klineRequest w bybitSymbol interval p) with
      | FetchThrows => Throw "fetch"
      | NoList => Throw "No data from Bybit API"
      | KlineList list_ => Ok (rev (barOfRow <$> list_))
      end
  end.

(** The step of [generateDemoData] between two bars, in seconds. *)
Definition demoInterval (resolution : Resolution) : Q :=
  match resolution with
  | ResString s =>
      match parseInt s with
      | Some resolutionNum => inject_Z resolutionNum * 60
      | None => 86400
      end
  | _ => 86400
  end.

(** The [while] loop of [generateDemoData]; [k] counts the draws of
    [Math.random] so far.  [None] when [fuel] iterations do not reach
    the end of the loop. *)
Fixpoint demoLoop (fuel : nat) (random : nat -> Q) (k : nat)
    (interval endTime basePrice currentTime : Q) : option (list RawBar) :=
  if Qle_bool endTime currentTime then Some []
  else
    match fuel with
    | O => None
    | S fuel' =>
        let randomChange := (random k - (1 # 2)) * 1000 in
        let open := basePrice in
        let close := basePrice + randomChange in
        let high := Qmax open close + random (k + 1)%nat * 500 in
        let low := Qmin open close - random (k + 2)%nat * 500 in
        let volume := random (k + 3)%nat * 1000000 in
        option_map (cons (mkBar currentTime open high low close volume None))
          (demoLoop fuel' random (k + 4) interval endTime close
             (currentTime + interval))
    end.

Definition generateDemoData (fuel : nat) (random : nat -> Q) (from to : Z)
    (resolution : Resolution) : option (list RawBar) :=
  let startTime := inject_Z from / 1000 in
  let endTime := inject_Z to / 1000 in
  demoLoop fuel random 0 (demoInterval resolution) endTime 50000 startTime.

(** [getBars].  The outer [option] is [None] when the fallback loop does
    not come to an end within [fuel] iterations; the [result] tells a
    resolved promise from a rejected one.  The log that precedes the
    [try] reads [symbolInfo.exchange], which throws when [symbolInfo] is
    null or undefined. *)
Definition getBars (fuel : nat) (w : World) (symbolInfo : json)
    (resolution : Resolution) (p : PeriodParams) : option (result UDF) :=
  let demo :=
    option_map (fun rawBars => Ok (convertToUDFFormat rawBars))
      (generateDemoData fuel (random w) (from p) (to p) resolution) in
  match symbolInfo with
  | JNull | JUndef => Some (Throw "TypeError")
  | _ =>
      if bool_decide (str_member "exchange" symbolInfo = Some "BYBIT") then
        match getBybitBars w symbolInfo resolution p with
        | Ok rawBars => Some (Ok (convertToUDFFormat rawBars))
        | Throw _ => demo
        end
      else demo
  end.

Definition createMockSymbolInfo (symbolName : string) : result json :=
  match symbolData symbolName with
  | None => Throw ("Mock symbol data not found for: " +:+ symbolName)
  | Some (symbol, _, description, industry, logo_url) =>
      Ok (JObj
        [("symbol", JStr symbol); ("full_name", JStr symbolName);
         ("description", JStr description); ("exchange", JStr "NASDAQ");
         ("type", JStr "stock"); ("session", JStr "0930-1600");
         ("timezone", JStr "America/New_York"); ("ticker", JStr symbol);
         ("has_intraday", JBool true);
         ("supported_resolutions", jstrs resolutions9);
         ("segment", JStr "SPOT"); ("asset_type", JStr "EQUITY");
         ("session_label", JStr "0930-1600"); ("tradeable", JBool true);
         ("is_index", JBool false); ("is_formula", JBool false);
         ("delay_seconds", JNum 0); ("data_status", JStr "streaming");
         ("industry", JStr industry); ("symbol_logo_urls", jstrs [logo_url]);
         ("contract_size", JNum 1); ("tick_size", JNum (1 # 100));
         ("display_tick_size", JNum (1 # 100));
         ("volume_size_increment", JNum 1); ("max_tick_precision", JNum 2);
         ("max_volume_precision", JNum 0); ("quote_currency", JStr "USD");
         ("has_daily", JBool true); ("volume_precision", JNum 0);
         ("source_id", JStr symbol);
         ("intraday_multipliers", jstrs ["1"; "5"; "15"; "30"; "60"; "240"]);
         ("exchange_info", nasdaqExchangeInfo)])
  end.

Definition resolveSymbolLocally (symbolName : string) : result json :=
  if String.eqb symbolName "INVALID:SYMBOL" then
    Throw ("Symbol not found: " +:+ symbolName
           +:+ ". This symbol does not exist in our database.")
  else if String.eqb symbolName "NASDAQ:AAPL" || String.eqb symbolName "NASDAQ:TSLA"
  then createMockSymbolInfo symbolName
  else
    let '(exchange, ticker, instrumentType) := symbolParts symbolName in
    let '(timezone, session, _) := getExchangeInfo exchange in
    match getPriceScale exchange ticker, getCurrencyCode exchange ticker with
    | Ok pricescale, Ok quote_currency =>
        Ok (JObj
          [("symbol", opt_str ticker); ("full_name", JStr symbolName);
           ("description", getSymbolDescription ticker instrumentType);
           ("type", JStr (getSymbolType exchange));
           ("session", JStr session); ("session_label", JStr session);
           ("timezone", JStr timezone); ("ticker", opt_str ticker);
           ("exchange", JStr exchange);
           ("segment", JStr (str_or instrumentType "SPOT"));
           ("has_intraday", JBool true); ("has_daily", JBool true);
           ("supported_resolutions", jstrs resolutions9);
           ("volume_precision", JNum (inject_Z (getVolumePrecision exchange)));
           ("data_status", JStr "streaming");
           ("tick_size", JNum (1 / inject_Z pricescale));
           ("max_tick_precision", JNum (inject_Z (log10 20 pricescale)));
           ("quote_currency", JStr quote_currency);
           ("exchange_info", localExchangeInfo exchange)])
    | Throw m, _ => Throw m
    | _, Throw m => Throw m
    end.

Definition cacheSymbol (symbolName : string) (symbolInfo : json) (st : State) : State :=
  mkDatafeed (<[symbolName := symbolInfo]> (symbolCache st))
    (searchSymbolController st) (streamingIntervals st) (timers st)
    (nextHandle st).

(** [resolveSymbol] past the cache: the exact-search endpoint, then the
    local fallback. *)
Definition resolveUncached (w : World) (symbolName : string) (st : State)
  : State * list Effect :=
  match exactSearch w symbolName with
  | Some members =>
      (cacheSymbol symbolName (JObj members) st,
       [ExactSearchRequest symbolName; OnResolve (JObj members)])
  | None =>
      match resolveSymbolLocally symbolName with
      | Ok symbolInfo =>
          (cacheSymbol symbolName symbolInfo st,
           [ExactSearchRequest symbolName; OnResolve symbolInfo])
      | Throw _ =>
          (st, [ExactSearchRequest symbolName;
                OnError "Failed to resolve symbol"])
      end
  end.

(** [resolveSymbol]: a cached entry is used when it is truthy. *)
Definition resolveSymbol (w : World) (symbolName : string) (st : State)
  : State * list Effect :=
  match symbolCache st !! symbolName with
  | Some cachedSymbolInfo =>
      if truthy cachedSymbolInfo then (st, [OnResolve cachedSymbolInfo])
      else resolveUncached w symbolName st
  | None => resolveUncached w symbolName st
  end.

Definition withController (st : State) : State :=
  mkDatafeed (symbolCache st) true (streamingIntervals st) (timers st)
    (nextHandle st).

(** [searchSymbolsMock] *)
Definition searchSymbolsMock (userInput : string) (hasCallback : bool) : list Effect :=
  if hasCallback then
    [SearchCallback
       (SearchResult false (filter (fun s => matchesInput userInput s) mockSymbols))]
  else [].

(** [searchSymbols(userInput, exchangeOrCallback, symbolType,
    onResultReadyCallback)]; [hasCallback] is whether the second or,
    failing that, the fourth argument is a function.  Without a
    callback nothing is requested. *)
Definition searchSymbols (w : World) (userInput : string) (hasCallback : bool)
    (st : State) : State * list Effect :=
  if negb hasCallback then (st, [])
  else
    let aborts := if searchSymbolController st then [AbortSearch] else [] in
    (withController st,
     aborts ++ [SearchRequest userInput] ++
     match search w userInput with
     | Some items => [SearchCallback (SearchResult false items)]
     | None => searchSymbolsMock userInput hasCallback
     end).

(** [startDemoStreaming]: an interval already registered for the
    subscriber is cleared, a new one is started, and it is stored under
    the subscriber.  A key that the record does not hold reads as
    [undefined] or as a member inherited from [Object.prototype], which
    is no interval: [clearInterval] clears nothing for it.  The
    interval's callback, which fires every two seconds, is not
    modelled. *)
Definition startDemoStreaming (subscriberUID : string) (st : State) : State :=
  let running :=
    match streamingIntervals st !! subscriberUID with
    | Some handle => timers st ∖ {[handle]}
    | None => timers st
    end in
  mkDatafeed (symbolCache st) (searchSymbolController st)
    (setMember subscriberUID (nextHandle st) (streamingIntervals st))
    (running ∪ {[nextHandle st]}) (Pos.succ (nextHandle st)).

Definition subscribeBars (subscriberUID : string) (st : State) : State :=
  startDemoStreaming subscriberUID st.

(** [unsubscribeBars]: the interval stored under the subscriber is
    cleared and the member deleted.  For a key that the record does not
    hold, what is read is no interval and there is nothing to delete. *)
Definition unsubscribeBars (subscriberUID : string) (st : State) : State :=
  match streamingIntervals st !! subscriberUID with
  | Some handle =>
      mkDatafeed (symbolCache st) (searchSymbolController st)
        (delete subscriberUID (streamingIntervals st))
        (timers st ∖ {[handle]}) (nextHandle st)
  | None => st
  end.

End Typed.

End Datafeed.

(** ** The tick stream of [chart-datafeed.ts]

    [subscribeTicks] and [unsubscribeTicks] of the first edition, with
    the channel registry, the socket and the dispatch of trades to the
    handlers.  The socket is the browser's or the mock object; what is
    sent on it, and the listeners and timers that are registered, are
    recorded as requests.  A callback is known by a number, and the
    interval callbacks are left out as in [startDemoStreaming]. *)

Module Streaming.
Import Js Datafeed.
Local Open Scope Q_scope.

(** A handler of a channel.  [lastDailyBar] and
    [onResetCacheNeededCallback] are stored and never read. *)
Record Handler := mkHandler {
  hd_id : string;
  hd_callback : nat;
  hd_resolution : Resolution
}.

Record SubscriptionItem := mkItem {
  it_subscriberUID : string;
  it_resolution : Resolution;
  handlers : list Handler;
  symbolInfo : json;
  channelString : string
}.

Definition with_handlers (hs : list Handler) (item : SubscriptionItem) : SubscriptionItem :=
  mkItem (it_subscriberUID item) (it_resolution item) hs (symbolInfo item)
    (channelString item).

(** [channelToSubscription], a [Map] in insertion order. *)
Definition Channels := list (string * SubscriptionItem).

Fixpoint mapGet (channel : string) (m : Channels) : option SubscriptionItem :=
  match m with
  | [] => None
  | (k, item) :: r => if String.eqb k channel then Some item else mapGet channel r
  end.

Fixpoint mapSet (channel : string) (item : SubscriptionItem) (m : Channels) : Channels :=
  match m with
  | [] => [(channel, item)]
  | (k, old) :: r =>
      if String.eqb k channel then (k, item) :: r
      else (k, old) :: mapSet channel item r
  end.

Definition mapDelete (channel : string) (m : Channels) : Channels :=
  List.filter (fun kv => negb (String.eqb (fst kv) channel)) m.

(** [demoSocket]: a [WebSocket] of the browser, or the mock object,
    each with its [readyState]. *)
Inductive Socket :=
| RealSocket (state : Z)
| MockSocket (state : Z).

Definition readyState (s : Socket) : Z :=
  match s with
  | RealSocket state => state
  | MockSocket state => state
  end.

Definition isWebSocket (s : Socket) : bool :=
  match s with
  | RealSocket _ => true
  | MockSocket _ => false
  end.

Definition CONNECTING : Z := 0.
Definition OPEN : Z := 1.
Definition CLOSED : Z := 3.

(** A subscription request; the demo format has a [symbol] member,
    whose value may be undefined. *)
Record Request := mkRequest {
  op : string;
  args : list string;
  symbol : option (option string)
}.

(** What the stream does to the outside. *)
Inductive Wire :=
| NewWebSocket (uri : string)
| Send (request : Request)
| SendWhenOpen (request : Request)
| SetTimeout (request : Request) (item : SubscriptionItem).

Record Feed := mkFeed {
  datafeed : State;
  channelToSubscription : option Channels;
  demoSocket : option Socket
}.

Definition createdFeed : Feed := mkFeed created None None.

Definition isBybit (info : json) : bool :=
  bool_decide (str_member "exchange" info = Some "BYBIT").

(** [symbolInfo.symbol || symbolInfo.ticker || symbolInfo.name] *)
Definition symbolOf (info : json) : option string :=
  or_str (or_str (str_member "symbol" info) (str_member "ticker" info))
    (str_member "name" info).

Definition isOpen (socket : option Socket) : bool :=
  match socket with
  | Some s => (readyState s =? OPEN)%Z
  | None => false
  end.

Definition getBybitWebSocketUrl : string := "wss://stream.bybit.com/v5/public/linear".

Definition initializeDemoSocket (info : json) (feed : Feed) : Feed * list Wire :=
  if isOpen (demoSocket feed) then (feed, [])
  else if isBybit info then
    (mkFeed (datafeed feed) (channelToSubscription feed) (Some (RealSocket CONNECTING)),
     [NewWebSocket getBybitWebSocketUrl])
  else
    (mkFeed (datafeed feed) (channelToSubscription feed) (Some (MockSocket 1)), []).

(** [startChannelStreaming] is [startDemoStreaming] under the key of
    the channel. *)
Definition startChannelStreaming (item : SubscriptionItem) (feed : Feed) : Feed :=
  mkFeed (Untyped.startDemoStreaming (channelString item) (datafeed feed))
    (channelToSubscription feed) (demoSocket feed).

Definition sendDemoSubscription (subRequest : Request) (item : SubscriptionItem)
    (feed : Feed) : Feed * list Wire :=
  let isRealBybit := isBybit (symbolInfo item) in
  if isOpen (demoSocket feed) then
    (if isRealBybit then feed else startChannelStreaming item feed, [Send subRequest])
  else
    match demoSocket feed with
    | Some s =>
        if (readyState s =? CONNECTING)%Z then
          if isRealBybit && isWebSocket s then (feed, [SendWhenOpen subRequest])
          else (feed, [SetTimeout subRequest item])
        else if isRealBybit then
          let '(feed1, wire) := initializeDemoSocket (symbolInfo item) feed in
          (feed1,
           wire ++ match demoSocket feed1 with
                   | Some s1 => if isWebSocket s1 then [SendWhenOpen subRequest] else []
                   | None => []
                   end)
        else (feed, [SetTimeout subRequest item])
    | None =>
        if isRealBybit then
          let '(feed1, wire) := initializeDemoSocket (symbolInfo item) feed in
          (feed1,
           wire ++ match demoSocket feed1 with
                   | Some s1 => if isWebSocket s1 then [SendWhenOpen subRequest] else []
                   | None => []
                   end)
        else (feed, [SetTimeout subRequest item])
    end.

(** The callback of the 100 ms timer: [readyState] of the mock object
    is set and the request sent; on a [WebSocket], whose [readyState]
    has no setter, and on no socket, the assignment throws. *)
Definition connected (subRequest : Request) (item : SubscriptionItem) (feed : Feed)
  : result (Feed * list Wire) :=
  match demoSocket feed with
  | Some (MockSocket _) =>
      Ok (startChannelStreaming item
            (mkFeed (datafeed feed) (channelToSubscription feed) (Some (MockSocket OPEN))),
          [Send subRequest])
  | _ => Throw "TypeError"
  end.

Definition channelOf (info : json) : string :=
  if isBybit info then "publicTrade." +:+ default "undefined" (symbolOf info)
  else "demoTrade." +:+ default "undefined" (symbolOf info).

Definition subscribeOnStream (info : json) (resolution : Resolution) (callback : nat)
    (subscriberUID : string) (feed : Feed) : Feed * list Wire :=
  let m := default [] (channelToSubscription feed) in
  let '(feed1, wire1) :=
    match demoSocket feed with
    | None => initializeDemoSocket info (mkFeed (datafeed feed) (Some m) None)
    | Some _ => (mkFeed (datafeed feed) (Some m) (demoSocket feed), [])
    end in
  let channel := channelOf info in
  let handler := mkHandler subscriberUID callback resolution in
  match mapGet channel m with
  | Some item =>
      (mkFeed (datafeed feed1)
         (Some (mapSet channel (with_handlers (handlers item ++ [handler]) item) m))
         (demoSocket feed1),
       wire1)
  | None =>
      let item := mkItem subscriberUID resolution [handler] info channel in
      let feed2 :=
        mkFeed (datafeed feed1) (Some (mapSet channel item m)) (demoSocket feed1) in
      let subRequest :=
        if isBybit info then mkRequest "subscribe" [channel] None
        else mkRequest "subscribe" [channel] (Some (symbolOf info)) in
      let '(feed3, wire3) := sendDemoSubscription subRequest item feed2 in
      (feed3, wire1 ++ wire3)
  end.

Definition sendDemoUnsubscription (unsubRequest : Request) (feed : Feed) : list Wire :=
  if isOpen (demoSocket feed) then [Send unsubRequest] else [].

Definition hasId (subscriberUID : string) (handler : Handler) : bool :=
  String.eqb (hd_id handler) subscriberUID.

(** The [for] loop of [unsubscribeFromStream] up to its [break]: the
    first channel, in the order of the keys, with a handler of the
    subscriber, and the index of that handler. *)
Fixpoint findHandler (subscriberUID : string) (m : Channels)
  : option (string * SubscriptionItem * nat) :=
  match m with
  | [] => None
  | (channel, item) :: r =>
      match findIndex (hasId subscriberUID) (handlers item) with
      | Some handlerIndex => Some (channel, item, handlerIndex)
      | None => findHandler subscriberUID r
      end
  end.

Definition unsubscribeFromStream (subscriberUID : string) (feed : Feed)
  : Feed * list Wire :=
  match channelToSubscription feed with
  | None => (feed, [])
  | Some m =>
      match findHandler subscriberUID m with
      | None => (feed, [])
      | Some (channel, item, handlerIndex) =>
          let remaining := splice1 handlerIndex (handlers item) in
          let m1 := mapSet channel (with_handlers remaining item) m in
          match remaining with
          | [] =>
              (mkFeed (Untyped.unsubscribeBars channel (datafeed feed))
                 (Some (mapDelete channel m1)) (demoSocket feed),
               sendDemoUnsubscription (mkRequest "unsubscribe" [channel] None) feed)
          | _ => (mkFeed (datafeed feed) (Some m1) (demoSocket feed), [])
          end
      end
  end.

Definition subscribeTicks (info : json) (resolution : Resolution) (callback : nat)
    (subscriberUID : string) (feed : Feed) : Feed * list Wire :=
  subscribeOnStream info resolution callback subscriberUID feed.

Definition unsubscribeTicks (subscriberUID : string) (feed : Feed) : Feed * list Wire :=
  unsubscribeFromStream subscriberUID feed.

(** *** Trades *)













End Streaming.

(** ** Vocabulary of the statements on the datafeed *)

Module FeedSpec.
Import Js Datafeed.
Local Open Scope Q_scope.

(** The calls of the chart that change the state of a first-edition
    datafeed. *)
Inductive Call :=
| ResolveSymbol (w : World) (symbolName : string)
| SearchSymbols (w : World) (userInput : string) (hasCallback : bool)
| SubscribeBars (subscriberUID : string)
| UnsubscribeBars (subscriberUID : string)
| Destroy.

Definition call (c : Call) (st : State) : State :=
  match c with
  | ResolveSymbol w symbolName => fst (Untyped.resolveSymbol w symbolName st)
  | SearchSymbols w userInput hasCallback =>
      fst (Untyped.searchSymbols w userInput hasCallback st)
  | SubscribeBars subscriberUID => Untyped.subscribeBars subscriberUID st
  | UnsubscribeBars subscriberUID => Untyped.unsubscribeBars subscriberUID st
  | Destroy => fst (Untyped.destroy st)
  end.

Definition calls (l : list Call) (st : State) : State := foldl (fun s c => call c s) st l.

Definition isDestroy (c : Call) : bool :=
  match c with Destroy => true | _ => false end.

(** The six arrays of an ok response have one length. *)
Definition parallel (u : UDF) : Prop :=
  match u with
  | UdfNoData => True
  | UdfOk t o h l c v =>
      length o = length t /\ length h = length t /\ length l = length t
      /\ length c = length t /\ length v = length t
  end.

(** The arrays of [convertToUDFFormat] while they are filled. *)
Definition lengths_agree (acc : list Q * list Q * list Q * list Q * list Q * list Q) : Prop :=
  let '(t, o, h, l, c, v) := acc in parallel (UdfOk t o h l c v).

(** Bars that follow one another as a walk of step [interval] from
    [start] and [price]. *)
Fixpoint walk (interval start price : Q) (bars : list RawBar) : Prop :=
  match bars with
  | [] => True
  | bar :: rest =>
      time bar = start /\ open bar = price
      /\ Qmax (open bar) (close bar) <= high bar
      /\ low bar <= Qmin (open bar) (close bar)
      /\ walk interval (start + interval) (close bar) rest
  end.

End FeedSpec.

(** ** Vocabulary of the further statements on the datafeed *)

Module FeedMore.
Import Js Datafeed FeedSpec.
Local Open Scope Q_scope.

(** The time that [convertToUDFFormat] gives a bar: its [time] when
    that is not 0, else the second of its [date], else none (and the
    bar is skipped). *)
Definition stamp (bar : RawBar) : option Q :=
  if Qeq_bool (time bar) 0 then (fun ms => inject_Z (ms / 1000)) <$> date bar
  else Some (time bar).

(** The bars that are not skipped, each with its time. *)
Definition stamped (rawBars : list RawBar) : list (Q * RawBar) :=
  omap (fun bar => (fun ts => (ts, bar)) <$> stamp bar) rawBars.

(** Every interval that the record holds is running and below the next
    handle, and no two keys hold the same one. *)
Definition tidy (st : State) : Prop :=
  (forall uid h,
      streamingIntervals st !! uid = Some h ->
      h ∈ timers st /\ (h < nextHandle st)%positive)
  /\ (forall u1 u2 h,
        streamingIntervals st !! u1 = Some h -> streamingIntervals st !! u2 = Some h ->
        u1 = u2).

(** The running intervals are those that the record holds and those
    of [stray], which it does not hold. *)
Definition kept (st : State) (stray : gset positive) : Prop :=
  (forall h, h ∈ timers st
             <-> (exists uid, streamingIntervals st !! uid = Some h) \/ h ∈ stray)
  /\ (forall h, h ∈ stray -> (h < nextHandle st)%positive)
  /\ (forall uid h,
        streamingIntervals st !! uid = Some h ->
        (h < nextHandle st)%positive /\ h ∉ stray)
  /\ (forall u1 u2 h,
        streamingIntervals st !! u1 = Some h -> streamingIntervals st !! u2 = Some h ->
        u1 = u2).

(** A subscription under the name "__proto__". *)
Definition isProto (c : Call) : bool :=
  match c with
  | SubscribeBars subscriberUID => String.eqb subscriberUID "__proto__"
  | _ => false
  end.

(** The interval that a call starts and the record does not take. *)
Definition strayOf (c : Call) (st : State) : gset positive :=
  match c with
  | SubscribeBars subscriberUID =>
      if String.eqb subscriberUID "__proto__"
         && bool_decide (streamingIntervals st !! subscriberUID = None)
      then {[nextHandle st]} else ∅
  | _ => ∅
  end.

(** The intervals that a sequence of calls starts and the record does
    not take. *)
Fixpoint strays (l : list Call) (st : State) : gset positive :=
  match l with
  | [] => ∅
  | c :: r => strayOf c st ∪ strays r (call c st)
  end.

(** The names for which the local resolution throws. *)
Definition unresolvable (symbolName : string) : Prop :=
  symbolName = "INVALID:SYMBOL" \/ symbolName = "BYBIT" \/ symbolName = "BINANCE".

(** The payloads handed to the search callback. *)
Definition searchAnswers (done : list Effect) : list SearchPayload :=
  omap (fun e => match e with SearchCallback payload => Some payload | _ => None end) done.

Definition aborts (done : list Effect) : nat :=
  length (List.filter (fun e => match e with AbortSearch => true | _ => false end) done).

End FeedMore.

(** ** Vocabulary of the statements on the tick stream *)

Module StreamSpec.
Import Js Datafeed FeedSpec Streaming.
Local Open Scope Q_scope.

(** What happens to a datafeed: the chart subscribes to ticks or
    unsubscribes, a 100 ms timer fires, the browser moves the socket to
    another state, or a method of [Call] is served. *)
Inductive Step :=
| SubscribeTicks (info : json) (resolution : Resolution) (callback : nat)
    (subscriberUID : string)
| UnsubscribeTicks (subscriberUID : string)
| TimerFires (request : Request) (item : SubscriptionItem)
| SocketMoves (state : Z)
| Served (c : Call).

Definition step (s : Step) (feed : Feed) : Feed :=
  match s with
  | SubscribeTicks info resolution callback subscriberUID =>
      fst (subscribeTicks info resolution callback subscriberUID feed)
  | UnsubscribeTicks subscriberUID => fst (unsubscribeTicks subscriberUID feed)
  | TimerFires request item =>
      match connected request item feed with
      | Ok (feed', _) => feed'
      | Throw _ => feed
      end
  | SocketMoves state =>
      match demoSocket feed with
      | Some (RealSocket _) =>
          mkFeed (datafeed feed) (channelToSubscription feed) (Some (RealSocket state))
      | _ => feed
      end
  | Served c => mkFeed (call c (datafeed feed)) (channelToSubscription feed) (demoSocket feed)
  end.

Definition run (l : list Step) (feed : Feed) : Feed := foldl (fun f s => step s f) feed l.

Definition channels (feed : Feed) : Channels := default [] (channelToSubscription feed).

(** Every channel is registered once, under its own name, and has a
    handler. *)
Definition registered (m : Channels) : Prop :=
  NoDup (fst <$> m)
  /\ Forall (fun kv => channelString (snd kv) = fst kv /\ handlers (snd kv) <> []) m.

(** The handlers of all channels, in the order of the channels. *)
Definition allHandlers (m : Channels) : list Handler :=
  flat_map (fun kv => handlers (snd kv)) m.

(** A list of handlers without the first one of a subscriber. *)
Definition withoutFirst (subscriberUID : string) (hs : list Handler) : list Handler :=
  match findIndex (hasId subscriberUID) hs with
  | Some i => splice1 i hs
  | None => hs
  end.

(** No handler of any channel belongs to the subscriber. *)
Definition unknown (subscriberUID : string) (m : Channels) : Prop :=
  Forall (fun h => hd_id h <> subscriberUID) (allHandlers m).



End StreamSpec.

Module FeedFixtures.
Import Js Datafeed.
Local Open Scope Q_scope.

(** A world in which every endpoint is down. *)
Definition offline : World :=
  mkWorld (fun _ => None) (fun _ => None) (fun _ => FetchThrows) 0 (fun _ => 1 # 2).

(** A world whose kline endpoint knows BTCUSDT alone, with one row. *)
Definition onlyBtcusdt : World :=
  mkWorld (fun _ => None) (fun _ => None)
    (fun request =>
       if String.eqb (k_symbol request) "BTCUSDT"
       then KlineList [mkRow 1000 7 7 7 7 7]
       else NoList)
    0 (fun _ => 1 # 2).

Definition btcusdt : json :=
  JObj [("exchange", JStr "BYBIT"); ("symbol", JStr "BTCUSDT")].

(** A symbol object with a name and neither symbol nor ticker. *)
Definition nameOnly : json :=
  JObj [("exchange", JStr "BYBIT"); ("name", JStr "BTCUSDT")].

End FeedFixtures.

Module StreamFixtures.
Import Js Datafeed FeedSpec Streaming StreamSpec.
Local Open Scope Q_scope.

Definition aapl : json :=
  JObj [("exchange", JStr "NASDAQ"); ("symbol", JStr "AAPL")].

Definition bybitBtc : json :=
  JObj [("exchange", JStr "BYBIT"); ("symbol", JStr "BTCUSDT")].

(** A datafeed with two subscribers of AAPL ticks and one of BTCUSDT. *)
Definition threeSubscribers : Feed :=
  run [SubscribeTicks aapl (ResString "1") 0 "sub_1";
       SubscribeTicks aapl (ResString "5") 1 "sub_2";
       SubscribeTicks bybitBtc (ResString "1") 2 "sub_3"] createdFeed.


End StreamFixtures.

Module MoreFeedFixtures.
Import Js Datafeed.
Local Open Scope Q_scope.

(** A bar with a time, a bar with a date alone, and a bar with
    neither. *)
Definition threeBars : list RawBar :=
  [mkBar 60 1 2 1 2 10 None; mkBar 0 2 3 2 3 0 (Some 120500%Z);
   mkBar 0 3 4 3 4 5 None].

(** A world whose kline endpoint lists two rows, the newer first. *)
Definition newestFirst : World :=
  mkWorld (fun _ => None) (fun _ => None)
    (fun _ => KlineList [mkRow 120000 2 2 2 2 2; mkRow 60000 1 1 1 1 1])
    0 (fun _ => 1 # 2).

End MoreFeedFixtures.

(** * Properties *)

(** *** Checks of the string helpers *)

Example replace_prefix :
  Js.replace "BYBIT:FUTURE:" "" "BYBIT:FUTURE:BTCUSDT" = "BTCUSDT".
Proof. reflexivity. Qed.

Example replace_absent :
  Js.replace "BYBIT:FUTURE:" "" "NASDAQ:AAPL" = "NASDAQ:AAPL".
Proof. reflexivity. Qed.

Example split_three :
  Js.split_on ":" "BYBIT:FUTURE:BTCUSDT" = ["BYBIT"; "FUTURE"; "BTCUSDT"].
Proof. reflexivity. Qed.

Example lower_market : Js.toLowerCase "MarKet" = "market".
Proof. reflexivity. Qed.

(** ** Auxiliary facts on the JavaScript helpers *)

Section JsFacts.
Import Js.

Lemma findIndex_Some {A} (f : A -> bool) (l : list A) (i : nat) :
  findIndex f l = Some i ->
  exists x, l !! i = Some x /\ f x = true
            /\ Forall (fun y => f y = false) (take i l).
Proof.
  revert i. induction l as [|a l IH]; intros i; simpl; [discriminate|].
  destruct (f a) eqn:Fa.
  - intros [= <-]. exists a. simpl. auto.
  - destruct (findIndex f l) as [j|] eqn:E; simpl; [|discriminate].
    intros [= <-]. destruct (IH j eq_refl) as (x & Hx & Hfx & Hall).
    exists x. simpl. repeat split; auto.
Qed.

Lemma findIndex_None {A} (f : A -> bool) (l : list A) :
  findIndex f l = None <-> Forall (fun y => f y = false) l.
Proof.
  induction l as [|a l IH]; simpl.
  - split; auto.
  - destruct (f a) eqn:Fa.
    + split; [discriminate|]. intros H. inversion H; congruence.
    + destruct (findIndex f l); simpl.
      * split; [discriminate|]. intros H. inversion H; subst.
        apply IH in H3. discriminate.
      * split; auto. intros _. constructor; auto. apply IH; auto.
Qed.

Lemma splice1_split {A} (l : list A) (i : nat) (x : A) :
  l !! i = Some x ->
  l = take i l ++ x :: drop (S i) l /\ splice1 i l = take i l ++ drop (S i) l.
Proof.
  intros H. split; [|reflexivity].
  rewrite <- (take_drop_middle l i x H) at 1. reflexivity.
Qed.

Lemma findIndex_app_fresh {A} (f : A -> bool) (l : list A) (x : A) :
  Forall (fun y => f y = false) l -> f x = true ->
  findIndex f (l ++ [x]) = Some (length l).
Proof.
  induction 1 as [|y l Hy Hl IH]; intros Hx; simpl.
  - rewrite Hx. reflexivity.
  - rewrite Hy, (IH Hx). reflexivity.
Qed.

Lemma splice1_last {A} (l : list A) (x : A) : splice1 (length l) (l ++ [x]) = l.
Proof.
  unfold splice1. rewrite take_app_length.
  rewrite drop_app_ge by lia. replace (S (length l) - length l)%nat with 1%nat by lia.
  simpl. apply app_nil_r.
Qed.

End JsFacts.

(** ** Doubles *)

Section NumFacts.
Import Js Num.
Local Open Scope Q_scope.

Lemma Qltb_lt (a b : Q) : Qltb a b = true <-> a < b.
Proof.
  unfold Qltb. rewrite negb_true_iff.
  split.
  - intros H. apply Qnot_le_lt. intros Hle. apply Qle_bool_iff in Hle. congruence.
  - intros H. destruct (Qle_bool b a) eqn:E; auto.
    apply Qle_bool_iff in E. apply Qle_not_lt in E. contradiction.
Qed.

Lemma Qltb_ge (a b : Q) : Qltb a b = false <-> b <= a.
Proof.
  unfold Qltb. rewrite negb_false_iff. apply Qle_bool_iff.
Qed.

Lemma Qabs_opp_eq (q : Q) : Qabs (- q) = Qabs q.
Proof. destruct q as [n d]. unfold Qabs, Qopp. simpl. rewrite Z.abs_opp. reflexivity. Qed.

Lemma Qabs_nonneg_eq (q : Q) : 0 <= q -> Qabs q = q.
Proof.
  destruct q as [n d]. unfold Qle, Qabs. simpl. intros H.
  rewrite Z.abs_eq by lia. reflexivity.
Qed.

(** *** Rounding is monotone *)

Lemma pow2_pos (e : Z) : 0 < 2 ^ e.
Proof. apply Qpower_0_lt. reflexivity. Qed.

Lemma pow2_plus (a b : Z) : 2 ^ (a + b) == 2 ^ a * 2 ^ b.
Proof. apply Qpower_plus. discriminate. Qed.

Lemma pow2_inject (n : Z) : (0 <= n)%Z -> inject_Z (2 ^ n) == 2 ^ n.
Proof. intros H. exact (Zpower_Qpower 2 n H). Qed.

Lemma pow2_lt_inv (a b : Z) : 2 ^ a < 2 ^ b -> (a < b)%Z.
Proof. intros H. apply (Qpower_lt_compat_l_inv 2); [exact H | reflexivity]. Qed.

Lemma pow2_le (a b : Z) : (a <= b)%Z -> 2 ^ a <= 2 ^ b.
Proof. intros H. apply Qpower_le_compat_l; [exact H | discriminate]. Qed.

Lemma Q_as_quotient (q : Q) : q * inject_Z (Zpos (Qden q)) == inject_Z (Qnum q).
Proof.
  destruct q as [n d]. unfold Qeq, Qmult, inject_Z. simpl. lia.
Qed.

Lemma ilog2_spec (q : Q) : 0 < q -> 2 ^ ilog2 q <= q /\ q < 2 ^ (ilog2 q + 1).
Proof.
  intros Hq.
  assert (Hn : (0 < Qnum q)%Z).
  { destruct q as [n d]. unfold Qlt in Hq. simpl in *. lia. }
  pose proof (Z.log2_spec _ Hn) as [Ha1 Ha2].
  pose proof (Z.log2_spec (Zpos (Qden q)) eq_refl) as [Hb1 Hb2].
  pose proof (Z.log2_nonneg (Qnum q)) as Ha0.
  pose proof (Z.log2_nonneg (Zpos (Qden q))) as Hb0.
  pose proof (Q_as_quotient q) as Hquot.
  set (a := Z.log2 (Qnum q)) in *. set (b := Z.log2 (Zpos (Qden q))) in *.
  assert (Hup : q < 2 ^ (a - b + 1)).
  { replace (a - b + 1)%Z with ((a + 1) + - b)%Z by lia.
    rewrite pow2_plus, Qpower_opp.
    apply Qlt_shift_div_l; [apply pow2_pos|].
    apply Qle_lt_trans with (q * inject_Z (Zpos (Qden q))).
    - rewrite (Qmult_comm q), (Qmult_comm q). apply Qmult_le_compat_r; [|apply Qlt_le_weak; exact Hq].
      rewrite <- pow2_inject by exact Hb0. rewrite <- Zle_Qle. exact Hb1.
    - rewrite Hquot. rewrite <- pow2_inject by lia. rewrite <- Zlt_Qlt. unfold Z.succ in Ha2. exact Ha2. }
  assert (Hlow : 2 ^ (a - b - 1) < q).
  { replace (a - b - 1)%Z with (a + - (b + 1))%Z by lia.
    rewrite pow2_plus, Qpower_opp.
    apply Qlt_shift_div_r; [apply pow2_pos|].
    apply Qle_lt_trans with (q * inject_Z (Zpos (Qden q))).
    - rewrite Hquot. rewrite <- pow2_inject by exact Ha0. rewrite <- Zle_Qle. exact Ha1.
    - rewrite (Qmult_comm q), (Qmult_comm q). apply Qmult_lt_compat_r; [exact Hq|].
      rewrite <- pow2_inject by lia. rewrite <- Zlt_Qlt. unfold Z.succ in Hb2. exact Hb2. }
  unfold ilog2. fold a b.
  destruct (Qle_bool (2 ^ (a - b)) q) eqn:Hk.
  - apply Qle_bool_iff in Hk. split; assumption.
  - assert (Hlt : q < 2 ^ (a - b)).
    { apply Qnot_le_lt. intros H. apply Qle_bool_iff in H. congruence. }
    split.
    + apply Qlt_le_weak. exact Hlow.
    + replace (a - b - 1 + 1)%Z with (a - b)%Z by lia. exact Hlt.
Qed.

Lemma ilog2_mono (x y : Q) : 0 < x -> x <= y -> (ilog2 x <= ilog2 y)%Z.
Proof.
  intros Hx Hxy.
  destruct (ilog2_spec x Hx) as [H1 _].
  destruct (ilog2_spec y (Qlt_le_trans _ _ _ Hx Hxy)) as [_ H2].
  assert (H : 2 ^ ilog2 x < 2 ^ (ilog2 y + 1)).
  { eapply Qle_lt_trans; [exact H1|]. eapply Qle_lt_trans; [exact Hxy | exact H2]. }
  apply pow2_lt_inv in H. lia.
Qed.

Lemma rne_bounds (q : Q) : (Qfloor q <= rne q <= Qfloor q + 1)%Z.
Proof.
  unfold rne. destruct (Qcompare _ _); [destruct (Z.even _)| |]; lia.
Qed.

Lemma rne_Z (n : Z) : rne (inject_Z n) = n.
Proof.
  unfold rne. rewrite Qfloor_Z.
  destruct (Qcompare_spec (inject_Z n - inject_Z n) (1 # 2)) as [H|H|H];
    [exfalso; lra | reflexivity | exfalso; lra].
Qed.

Lemma rne_mono (x y : Q) : x <= y -> (rne x <= rne y)%Z.
Proof.
  intros Hxy.
  pose proof (Qfloor_resp_le _ _ Hxy) as Hf.
  pose proof (rne_bounds x) as Hx. pose proof (rne_bounds y) as Hy.
  destruct (Z.eq_dec (Qfloor x) (Qfloor y)) as [He|Hne]; [|lia].
  unfold rne. rewrite <- He.
  destruct (Qcompare_spec (x - inject_Z (Qfloor x)) (1 # 2)) as [H1|H1|H1];
    destruct (Qcompare_spec (y - inject_Z (Qfloor x)) (1 # 2)) as [H2|H2|H2];
    try (destruct (Z.even (Qfloor x))); try lia; exfalso; lra.
Qed.

Lemma ulp_mono (x y : Q) : 0 < x -> x <= y -> (ulp x <= ulp y)%Z.
Proof.
  intros Hx Hxy. unfold ulp. pose proof (ilog2_mono x y Hx Hxy). lia.
Qed.

Lemma Qdiv_pow2_le (x y : Q) (e : Z) : x <= y -> x / 2 ^ e <= y / 2 ^ e.
Proof.
  intros H. unfold Qdiv. apply Qmult_le_compat_r; [exact H|].
  apply Qlt_le_weak. apply Qinv_lt_0_compat. apply pow2_pos.
Qed.

Lemma roundPos_mono (x y : Q) : 0 < x -> x <= y -> roundPos x <= roundPos y.
Proof.
  intros Hx Hxy.
  assert (Hy : 0 < y) by (eapply Qlt_le_trans; eassumption).
  pose proof (ulp_mono x y Hx Hxy) as He.
  unfold roundPos.
  destruct (Z.eq_dec (ulp x) (ulp y)) as [Heq|Hne].
  - rewrite Heq. apply Qmult_le_compat_r; [|apply Qlt_le_weak, pow2_pos].
    rewrite <- Zle_Qle. apply rne_mono. apply Qdiv_pow2_le. exact Hxy.
  - assert (Hlt : (ulp x < ulp y)%Z) by lia.
    assert (Huy : ulp y = (ilog2 y - 52)%Z) by (unfold ulp in *; lia).
    assert (Hlog : (ilog2 x < ilog2 y)%Z) by (unfold ulp in *; lia).
    destruct (ilog2_spec x Hx) as [_ Hxu]. destruct (ilog2_spec y Hy) as [Hyl _].
    apply Qle_trans with (2 ^ ilog2 y).
    + (* the smaller one rounds to at most the power of two between them *)
      set (k := (ilog2 y - ulp x)%Z).
      assert (Hk : (0 <= k)%Z) by (unfold k; lia).
      assert (Hle : x / 2 ^ ulp x <= inject_Z (2 ^ k)).
      { rewrite pow2_inject by exact Hk. unfold k.
        replace (ilog2 y - ulp x)%Z with (ilog2 y + - ulp x)%Z by lia.
        rewrite pow2_plus, Qpower_opp. apply Qdiv_pow2_le.
        apply Qlt_le_weak. eapply Qlt_le_trans; [exact Hxu|]. apply pow2_le. lia. }
      apply rne_mono in Hle. rewrite rne_Z in Hle.
      apply Qle_trans with (inject_Z (2 ^ k) * 2 ^ ulp x).
      * apply Qmult_le_compat_r; [|apply Qlt_le_weak, pow2_pos]. rewrite <- Zle_Qle. exact Hle.
      * rewrite pow2_inject by exact Hk. rewrite <- pow2_plus.
        apply pow2_le. unfold k. lia.
    + assert (Hge : inject_Z (2 ^ 52) <= y / 2 ^ ulp y).
      { rewrite pow2_inject by lia. rewrite Huy.
        apply Qle_shift_div_l; [apply pow2_pos|]. rewrite <- pow2_plus.
        replace (52 + (ilog2 y - 52))%Z with (ilog2 y) by lia. exact Hyl. }
      apply rne_mono in Hge. rewrite rne_Z in Hge.
      apply Qle_trans with (inject_Z (2 ^ 52) * 2 ^ ulp y).
      * rewrite pow2_inject by lia. rewrite <- pow2_plus. apply pow2_le. lia.
      * apply Qmult_le_compat_r; [|apply Qlt_le_weak, pow2_pos]. rewrite <- Zle_Qle. exact Hge.
Qed.

Lemma roundPos_nonneg (x : Q) : 0 < x -> 0 <= roundPos x.
Proof.
  intros Hx. unfold roundPos.
  apply Qmult_le_0_compat; [|apply Qlt_le_weak, pow2_pos].
  change 0 with (inject_Z 0). rewrite <- Zle_Qle. rewrite <- (rne_Z 0).
  apply rne_mono. apply Qle_shift_div_l; [apply pow2_pos|]. rewrite Qmult_0_l. apply Qlt_le_weak, Hx.
Qed.

Lemma round64_proper (x y : Q) : x == y -> round64 x = round64 y.
Proof. intros H. unfold round64. rewrite (Qred_complete _ _ H). reflexivity. Qed.

Lemma round64_mono (x y : Q) : x <= y -> round64 x <= round64 y.
Proof.
  intros Hxy. unfold round64.
  assert (Hxy' : Qred x <= Qred y) by (rewrite !Qred_correct; exact Hxy).
  destruct (Qcompare_spec (Qred x) 0) as [Hx|Hx|Hx];
    destruct (Qcompare_spec (Qred y) 0) as [Hy|Hy|Hy]; try (exfalso; lra).
  - apply Qle_refl.
  - apply roundPos_nonneg. exact Hy.
  - assert (H := roundPos_nonneg (- Qred x)). lra.
  - assert (H1 : 0 < - Qred y) by lra.
    assert (H2 : - Qred y <= - Qred x) by lra.
    pose proof (roundPos_mono _ _ H1 H2). lra.
  - assert (H := roundPos_nonneg (- Qred x)). pose proof (roundPos_nonneg _ Hy). lra.
  - apply roundPos_mono; assumption.
Qed.

End NumFacts.

(** From here on a rounding is computed, never unfolded. *)
#[global] Opaque Num.round64.

(** *** Values *)

Section ValueFacts.
Import Js Num.
Local Open Scope Q_scope.

Lemma norm_proper (x y : Q) : x == y -> norm x = norm y.
Proof. intros H. unfold norm. rewrite (round64_proper _ _ H). reflexivity. Qed.

Lemma norm_0 : norm 0 = Fin 0.
Proof. vm_compute. reflexivity. Qed.

Lemma add_neg_self (q : Q) : add (Fin q) (neg (Fin q)) = Fin 0.
Proof.
  simpl. rewrite (norm_proper (q + - q) 0) by ring. apply norm_0.
Qed.

Lemma abs_neg (v : value) : abs (neg v) = abs v.
Proof. destruct v as [q|s| |]; cbn [abs neg]; try reflexivity. rewrite Qabs_opp_eq. reflexivity. Qed.

Lemma threshold_eq : Broker.threshold = Fin (round64 (1 # 10000)).
Proof. vm_compute. reflexivity. Qed.

Lemma threshold_fixed : round64 (round64 (1 # 10000)) == round64 (1 # 10000).
Proof. vm_compute. reflexivity. Qed.

Lemma threshold_pos : 0 < round64 (1 # 10000).
Proof. vm_compute. reflexivity. Qed.

(** Whatever an exact result of at least the threshold rounds to is at
    least the threshold, and likewise below its opposite. *)
Lemma norm_above (q : Q) :
  round64 (1 # 10000) <= q -> le Broker.threshold (abs (norm q)).
Proof.
  intros H. rewrite threshold_eq. apply round64_mono in H.
  rewrite threshold_fixed in H. pose proof threshold_pos as Hp.
  unfold norm. destruct (Qle_bool _ _).
  - unfold le. simpl. apply Qle_bool_iff. rewrite Qabs_pos by lra. exact H.
  - reflexivity.
Qed.

Lemma norm_below (q : Q) :
  q <= - round64 (1 # 10000) -> le Broker.threshold (abs (norm q)).
Proof.
  intros H. rewrite threshold_eq. apply round64_mono in H.
  assert (Hfix : round64 (- round64 (1 # 10000)) == - round64 (1 # 10000))
    by (vm_compute; reflexivity).
  rewrite Hfix in H. pose proof threshold_pos as Hp.
  unfold norm. destruct (Qle_bool _ _).
  - unfold le. simpl. apply Qle_bool_iff. rewrite Qabs_neg by lra. lra.
  - reflexivity.
Qed.

End ValueFacts.
(** ** The ledger *)

Section Ledger.
Import Js Num Broker Spec.
Local Open Scope Q_scope.

Lemma isSameDirection_spec (a b : value) :
  isSameDirection a b = true <-> same_sign a b.
Proof.
  unfold isSameDirection, same_sign, lt.
  rewrite orb_true_iff, !andb_true_iff. tauto.
Qed.

Lemma same_sign_abs (a b : Q) :
  same_sign (Fin a) (Fin b) -> Qabs (a + b) == Qabs a + Qabs b /\ 0 < Qabs a + Qabs b.
Proof.
  unfold same_sign, lt. cbn [ltb]. rewrite !Qltb_lt.
  intros [[Ha Hb]|[Ha Hb]].
  - rewrite !Qabs_pos by lra. split; lra.
  - rewrite !Qabs_neg by lra. split; lra.
Qed.

Lemma exact_norm (q x : Q) : exact q -> x == q -> exists r, norm x = Fin r /\ r == q.
Proof.
  intros (r & Hr & Hq) Hx. exists r. rewrite (norm_proper x q Hx). auto.
Qed.

Lemma lt_neg (v : value) : lt 0 v -> lt (neg v) 0.
Proof.
  unfold lt. destruct v as [q|s| |]; cbn [ltb neg]; try discriminate.
  - rewrite !Qltb_lt. lra.
  - destruct s; auto.
Qed.

(** The price of the same-direction branch when no operation rounds. *)
Lemma averaged (price size ltp order : Q) :
  same_sign (Fin size) (Fin order) ->
  exact (price * size) -> exact (ltp * order) ->
  exact (Qabs (price * size) + Qabs (ltp * order)) ->
  exact (size + order) ->
  exact ((Qabs (price * size) + Qabs (ltp * order)) / Qabs (size + order)) ->
  same
    (div (add (abs (mul price size)) (abs (mul ltp order))) (abs (add size order)))
    (weightedAverage (Qabs price) (Qabs size) (Qabs ltp) (Qabs order)).
Proof.
  intros Hs (r1 & E1 & Q1) (r2 & E2 & Q2) H3 (r4 & E4 & Q4) H5.
  destruct (same_sign_abs _ _ Hs) as [Habs Hpos].
  cbn [mul add]. rewrite E1, E2, E4. cbn [abs add].
  destruct (exact_norm _ (Qabs r1 + Qabs r2) H3) as (r3 & E3 & Q3).
  { rewrite Q1, Q2. reflexivity. }
  rewrite E3. cbn [div].
  assert (Hnz : Qeq_bool (Qabs r4) 0 = false).
  { destruct (Qeq_bool (Qabs r4) 0) eqn:E; [|reflexivity].
    apply Qeq_bool_iff in E. rewrite Q4, Habs in E. lra. }
  rewrite Hnz.
  destruct (exact_norm _ (r3 / Qabs r4) H5) as (r5 & E5 & Q5).
  { rewrite Q3, Q4. reflexivity. }
  rewrite E5. cbn [same]. rewrite Q5. unfold weightedAverage.
  rewrite !Qabs_Qmult, Habs. reflexivity.
Qed.

(** C1, as the code has it.  A market order that meets a position of its
    product and symbol (the first one in the list): when the position
    and the signed order are both long or both short, the size becomes
    their sum and the price
    (|old price * old size| + |execution price * order size|) / |new size|,
    each operation rounded as doubles are; when no operation rounds,
    that price is the average of the absolute old price and the absolute
    execution price weighted by the absolute sizes, which is the
    size-weighted average of the two prices when neither is negative;
    otherwise the size becomes the sum, and the position is removed when
    the absolute sum is below 0.0001 and keeps its price when it is not.
    An order that meets no position appends one at the execution price
    whose size is the signed order size: positive for a buy and negative
    for a sell of a positive size. *)
Theorem createPositionAndTrade_netting
    (d : Draws) (newOrder : Order) (security : SecurityData) (ltp : Q)
    (st : BrokerState) :
  let positions := currentPositions st in
  let positions' :=
    currentPositions (fst (createPositionAndTrade d newOrder security ltp st)) in
  let delta := orderSizeWithSign newOrder in
  match findIndex (same_position newOrder) positions with
  | Some i =>
      exists pos,
        positions !! i = Some pos
        /\ p_productId pos = o_productId newOrder
        /\ p_symbol pos = o_symbol newOrder
        /\ (same_sign (p_size pos) delta ->
            exists pos',
              positions' = <[i := pos']> positions
              /\ p_size pos' = add (p_size pos) delta
              /\ p_price pos' =
                 div (add (abs (mul (p_price pos) (p_size pos))) (abs (mul ltp delta)))
                   (abs (add (p_size pos) delta))
              /\ (forall price size order : Q,
                    p_price pos = Fin price -> p_size pos = Fin size ->
                    delta = Fin order ->
                    exact (price * size) -> exact (ltp * order) ->
                    exact (Qabs (price * size) + Qabs (ltp * order)) ->
                    exact (size + order) ->
                    exact ((Qabs (price * size) + Qabs (ltp * order))
                           / Qabs (size + order)) ->
                    same (p_price pos')
                      (weightedAverage (Qabs price) (Qabs size) (Qabs ltp) (Qabs order))
                    /\ (0 <= price -> 0 <= ltp ->
                        same (p_price pos')
                          (weightedAverage price (Qabs size) ltp (Qabs order)))))
        /\ (~ same_sign (p_size pos) delta ->
            lt (abs (add (p_size pos) delta)) threshold ->
            positions' = splice1 i positions)
        /\ (~ same_sign (p_size pos) delta ->
            ~ lt (abs (add (p_size pos) delta)) threshold ->
            exists pos',
              positions' = <[i := pos']> positions
              /\ p_size pos' = add (p_size pos) delta
              /\ p_price pos' = p_price pos)
  | None =>
      exists pos',
        positions' = positions ++ [pos']
        /\ p_price pos' = ltp
        /\ p_size pos' = delta
        /\ (lt 0 (o_size newOrder) -> o_side newOrder = "buy" -> lt 0 (p_size pos'))
        /\ (lt 0 (o_size newOrder) -> o_side newOrder = "sell" -> lt (p_size pos') 0)
  end.
Proof.
  cbv zeta. unfold createPositionAndTrade, netPosition.
  cbn [fst currentPositions with_positions with_tradeBook].
  destruct (findIndex (same_position newOrder) (currentPositions st)) as [i|] eqn:E.
  - destruct (findIndex_Some _ _ _ E) as (pos & Hpos & Hsame & _).
    exists pos. rewrite Hpos.
    unfold same_position in Hsame. apply andb_true_iff in Hsame as [H1 H2].
    apply String.eqb_eq in H1, H2.
    split; [reflexivity|]. split; [exact H1|]. split; [exact H2|].
    split; [|split].
    + intros Hs. pose proof Hs as Hb. apply isSameDirection_spec in Hb. rewrite Hb.
      eexists. split; [reflexivity|]. cbn [p_size p_price position_add].
      split; [reflexivity|]. split; [reflexivity|].
      intros price size order Hp Hz Hd X1 X2 X3 X4 X5.
      rewrite Hp, Hz, Hd in *.
      pose proof (averaged price size ltp order Hs X1 X2 X3 X4 X5) as Hgen.
      split; [exact Hgen|].
      intros Hp0 Hl0. rewrite (Qabs_nonneg_eq price Hp0), (Qabs_nonneg_eq ltp Hl0) in Hgen.
      exact Hgen.
    + intros Hn Hlt.
      destruct (isSameDirection _ _) eqn:Hb; [apply isSameDirection_spec in Hb; tauto|].
      cbn [p_size position_set_size]. unfold lt in Hlt. rewrite Hlt. reflexivity.
    + intros Hn Hlt.
      destruct (isSameDirection _ _) eqn:Hb; [apply isSameDirection_spec in Hb; tauto|].
      cbn [p_size position_set_size]. unfold lt in Hlt.
      destruct (ltb _ _) eqn:Hq; [tauto|].
      eexists. split; [reflexivity|]. cbn [p_size p_price position_reprice position_set_size].
      auto.
  - eexists. split; [reflexivity|]. cbn [p_price p_size newPosition].
    split; [reflexivity|]. split; [reflexivity|]. split.
    + intros Hsz Hside. unfold orderSizeWithSign. rewrite Hside. exact Hsz.
    + intros Hsz Hside. unfold orderSizeWithSign. rewrite Hside. apply lt_neg. exact Hsz.
Qed.

Lemma insert_last {A} (l : list A) (x y : A) :
  <[length l := y]> (l ++ [x]) = l ++ [y].
Proof. induction l as [|a l IH]; simpl; [reflexivity|]. f_equal. exact IH. Qed.

Section Handlers.
Variable parseFloat : string -> option Q.

(** What [placeTPSLOrder] touches: one open order more. *)
Lemma placeTPSLOrder_frame d o price isTP st :
  exists c,
    currentOrderBook (placeTPSLOrder d o price isTP st) = currentOrderBook st ++ [c]
    /\ o_status c = "open"
    /\ currentTradeBook (placeTPSLOrder d o price isTP st) = currentTradeBook st
    /\ currentPositions (placeTPSLOrder d o price isTP st) = currentPositions st
    /\ currentAccountList (placeTPSLOrder d o price isTP st) = currentAccountList st
    /\ chartWrapper (placeTPSLOrder d o price isTP st) = chartWrapper st.
Proof. eexists. unfold placeTPSLOrder. simpl. repeat split. Qed.

Lemma handleMarketOrderWithTPSL_frame d o order st :
  let st' := handleMarketOrderWithTPSL parseFloat d o order st in
  exists tpsl,
    currentOrderBook st' = currentOrderBook st ++ tpsl
    /\ Forall (fun c => o_status c = "open") tpsl
    /\ currentTradeBook st' = currentTradeBook st
    /\ currentPositions st' = currentPositions st
    /\ currentAccountList st' = currentAccountList st
    /\ chartWrapper st' = chartWrapper st.
Proof.
  cbv zeta. unfold handleMarketOrderWithTPSL.
  destruct (tpslPrice parseFloat (od_takeProfit order)) as [p|];
    destruct (tpslPrice parseFloat (od_stopLoss order)) as [q|].
  - destruct (placeTPSLOrder_frame d o p true st) as (c1 & E1 & S1 & T1 & P1 & A1 & W1).
    destruct (placeTPSLOrder_frame d o q false (placeTPSLOrder d o p true st))
      as (c2 & E2 & S2 & T2 & P2 & A2 & W2).
    exists [c1; c2]. rewrite E2, E1, T2, T1, P2, P1, A2, A1, W2, W1, <- app_assoc.
    repeat split; auto.
  - destruct (placeTPSLOrder_frame d o p true st) as (c1 & E1 & S1 & T1 & P1 & A1 & W1).
    exists [c1]. repeat split; auto.
  - destruct (placeTPSLOrder_frame d o q false st) as (c1 & E1 & S1 & T1 & P1 & A1 & W1).
    exists [c1]. repeat split; auto.
  - exists []. rewrite app_nil_r. repeat split; auto.
Qed.

(** The state of a market order after [addOrderToOrderBook]. *)
Lemma addOrderToOrderBook_market d orderData st :
  chartWrapper st = true ->
  isMarketOrder orderData = true ->
  let st' := addOrderToOrderBook parseFloat d orderData st in
  let ltp := num_or (i_ltp orderData) getCurrentLTP in
  let built := buildOrder d orderData st in
  let security := default noSecurity (i_security orderData) in
  exists tpsl,
    currentOrderBook st' = currentOrderBook st ++ order_fill built ltp :: tpsl
    /\ Forall (fun c => o_status c = "open") tpsl
    /\ currentTradeBook st' =
       currentTradeBook st
       ++ [mkTrade ("TRADE_" +:+ d_trade d) (o_orderId built) (o_symbol built)
             (o_side built) ltp (o_size built) (mul ltp (o_size built))
             (mul (mul ltp (o_size built)) (literal (1 # 1000))) (d_now d)]
    /\ currentPositions st' = netPosition d built security ltp (currentPositions st)
    /\ currentAccountList st' = currentAccountList st.
Proof.
  intros Hc Hm. cbv zeta. unfold addOrderToOrderBook. rewrite Hc, Hm. simpl.
  rewrite insert_last.
  match goal with
  | |- context [handleMarketOrderWithTPSL parseFloat d ?o ?od ?s] =>
      destruct (handleMarketOrderWithTPSL_frame d o od s) as (tpsl & E & S & T & P & A & W)
  end.
  exists tpsl. unfold updateChartBrokerData, addOrderToHistory. simpl.
  rewrite E, T, P, A. simpl. rewrite <- app_assoc. simpl. repeat split; auto.
Qed.

Lemma addOrderToOrderBook_resting d orderData st :
  chartWrapper st = true ->
  isMarketOrder orderData = false ->
  let st' := addOrderToOrderBook parseFloat d orderData st in
  currentOrderBook st' = currentOrderBook st ++ [buildOrder d orderData st]
  /\ currentTradeBook st' = currentTradeBook st
  /\ currentPositions st' = currentPositions st
  /\ currentAccountList st' = currentAccountList st.
Proof.
  intros Hc Hm. cbv zeta. unfold addOrderToOrderBook. rewrite Hc, Hm. simpl.
  repeat split.
Qed.

Lemma addOrderToOrderBook_unavailable d orderData st :
  chartWrapper st = false -> addOrderToOrderBook parseFloat d orderData st = st.
Proof. intros Hc. unfold addOrderToOrderBook. rewrite Hc. reflexivity. Qed.

(** An order whose recorded type does not lower to "market" was not
    taken for a market order. *)
Lemma not_market_resting d orderData st :
  toLowerCase (o_orderType (buildOrder d orderData st)) <> "market" ->
  isMarketOrder orderData = false.
Proof.
  unfold isMarketOrder, buildOrder. cbn [o_orderType].
  destruct (od_orderType (default noOrderDetails (i_order orderData))) as [[|a s]|];
    destruct (i_orderType orderData) as [[|b t]|];
    cbv beta iota delta [or_str str_or];
    try reflexivity; intros H; apply String.eqb_neq; exact H.
Qed.

(** C3, as the code has it.  With the chart instance set: an order whose
    type, read from [order.orderType] or else from [orderData.orderType],
    lowers ([toLowerCase]) to "market" is appended filled, with its full
    size filled, nothing remaining and the last traded price as fill
    price, and exactly one trade is appended, of value price times size
    and commission value times 0.001, as doubles multiply; an order whose
    recorded type does not lower to "market" is appended open with its
    full size remaining, and neither the trade book nor the positions
    change. *)
Theorem addOrderToOrderBook_fills d orderData st :
  chartWrapper st = true ->
  let st' := addOrderToOrderBook parseFloat d orderData st in
  let ltp := num_or (i_ltp orderData) getCurrentLTP in
  let built := buildOrder d orderData st in
  (isMarketOrder orderData = true ->
   exists filled tpsl trade,
     currentOrderBook st' = currentOrderBook st ++ filled :: tpsl
     /\ o_orderId filled = o_orderId built
     /\ o_size filled = orderSize orderData
     /\ o_status filled = "filled"
     /\ o_filledSize filled = o_size filled
     /\ o_remainingSize filled = 0
     /\ o_fillPrice filled = Some ltp
     /\ Forall (fun c => o_status c = "open") tpsl
     /\ currentTradeBook st' = currentTradeBook st ++ [trade]
     /\ t_orderId trade = o_orderId filled
     /\ t_price trade = ltp
     /\ t_value trade = mul ltp (o_size filled)
     /\ t_commission trade = mul (t_value trade) (literal (1 # 1000)))
  /\ (toLowerCase (o_orderType built) <> "market" ->
      currentOrderBook st' = currentOrderBook st ++ [built]
      /\ o_status built = "open"
      /\ o_remainingSize built = o_size built
      /\ currentTradeBook st' = currentTradeBook st
      /\ currentPositions st' = currentPositions st).
Proof.
  intros Hc. cbv zeta. split.
  - intros Hm.
    destruct (addOrderToOrderBook_market d orderData st Hc Hm)
      as (tpsl & E & S & T & _).
    eexists _, tpsl, _. split; [exact E|].
    repeat (split; [reflexivity|]).
    split; [exact S|]. split; [exact T|]. simpl.
    repeat split.
  - intros Hn. pose proof (not_market_resting d orderData st Hn) as Hm.
    destruct (addOrderToOrderBook_resting d orderData st Hc Hm) as (E & T & P & _).
    repeat split; auto.
Qed.


(** C5.  [removeOrderFromOrderBook], which the CANCEL_ORDER event calls
    with the identifier it finds in the message, removes the first order
    of that identifier and nothing else: the orders before and after it
    keep their places, and the trade book, the positions and the account
    list are as they were.  When the identifiers of the book are
    distinct no order of that identifier is left; when no order has it,
    the state is unchanged. *)
Theorem removeOrderFromOrderBook_exact (d : Draws) (orderId : string)
    (st : BrokerState) :
  let st' := removeOrderFromOrderBook d orderId st in
  currentTradeBook st' = currentTradeBook st
  /\ currentPositions st' = currentPositions st
  /\ currentAccountList st' = currentAccountList st
  /\ (Forall (fun o => o_orderId o <> orderId) (currentOrderBook st) -> st' = st)
  /\ (Exists (fun o => o_orderId o = orderId) (currentOrderBook st) ->
      exists before o after,
        currentOrderBook st = before ++ o :: after
        /\ o_orderId o = orderId
        /\ Forall (fun x => o_orderId x <> orderId) before
        /\ currentOrderBook st' = before ++ after
        /\ (NoDup (o_orderId <$> currentOrderBook st) ->
            Forall (fun x => o_orderId x <> orderId) (currentOrderBook st')))
  /\ (forall message : CancelMessage,
        handleTradingEvent parseFloat d (CANCEL_ORDER message) st =
        match cancelledOrderId message with
        | Some i => removeOrderFromOrderBook d i st
        | None => st
        end).
Proof.
  cbv zeta. unfold removeOrderFromOrderBook.
  destruct (findIndex (has_orderId orderId) (currentOrderBook st)) as [i|] eqn:E.
  - destruct (findIndex_Some _ _ _ E) as (o & Ho & Hid & Hbefore).
    rewrite Ho. unfold updateChartBrokerData, addOrderToHistory. simpl.
    apply String.eqb_eq in Hid.
    destruct (splice1_split _ _ _ Ho) as [Hsplit Hsp].
    assert (Hb : Forall (fun x => o_orderId x <> orderId) (take i (currentOrderBook st))).
    { eapply Forall_impl; [exact Hbefore|]. intros x Hx. apply String.eqb_neq. exact Hx. }
    repeat split; auto.
    + intros Hall. exfalso.
      rewrite Forall_forall in Hall. apply (Hall o); [|exact Hid].
      apply list_elem_of_lookup. eauto.
    + intros _. exists (take i (currentOrderBook st)), o, (drop (S i) (currentOrderBook st)).
      repeat split; auto.
      intros Hnd. rewrite Hsp. rewrite Hsplit in Hnd.
      rewrite fmap_app, fmap_cons in Hnd.
      apply NoDup_app in Hnd as (_ & _ & Hnd).
      apply NoDup_cons in Hnd as [Hnotin _].
      apply Forall_app. split; [exact Hb|].
      apply Forall_forall. intros x Hx Heq. apply Hnotin.
      rewrite Hid, <- Heq. apply list_elem_of_fmap. eauto.
  - apply findIndex_None in E.
    repeat split; auto.
    intros Hex. exfalso. apply Exists_exists in Hex as (o & Hin & Hid).
    rewrite Forall_forall in E. specialize (E o Hin).
    apply String.eqb_neq in E. contradiction.
Qed.

(** *** The invariant of the position list *)

Lemma Forall_splice1 {A} (P : A -> Prop) (i : nat) (l : list A) :
  Forall P l -> Forall P (splice1 i l).
Proof.
  intros H. unfold splice1. apply Forall_app. split.
  - apply Forall_take. exact H.
  - apply Forall_drop. exact H.
Qed.

Lemma booked_new d o security price :
  booked (newPosition d o security price (orderSizeWithSign o)).
Proof.
  unfold booked, orderSizeWithSign. cbn [newPosition p_size_currency p_size p_pnl p_unPnl p_rPnl].
  destruct (String.eqb (o_side o) "sell"); repeat split; try reflexivity.
  rewrite abs_neg. reflexivity.
Qed.

Lemma netPosition_booked d o security price positions :
  Forall booked positions ->
  Forall booked (netPosition d o security price positions).
Proof.
  intros Hall. unfold netPosition.
  destruct (findIndex (same_position o) positions) as [i|] eqn:E.
  - destruct (positions !! i) as [pos|] eqn:Hpos; [|exact Hall].
    assert (Hb : booked pos).
    { rewrite Forall_forall in Hall. apply Hall. apply list_elem_of_lookup. eauto. }
    destruct Hb as (_ & Hp & Hu & Hr).
    destruct (isSameDirection _ _).
    + apply Forall_insert; [exact Hall|]. unfold booked. simpl.
      repeat split; auto.
    + cbn [p_size position_set_size]. destruct (ltb _ _).
      * apply Forall_splice1. exact Hall.
      * apply Forall_insert; [exact Hall|]. unfold booked. simpl.
        repeat split; auto.
  - apply Forall_app. split; [exact Hall|]. constructor; [|constructor].
    apply booked_new.
Qed.

Lemma netPosition_valued d o security price positions (q : Q) :
  o_size o = Fin q -> 0 <= q ->
  Forall valued positions ->
  Forall valued (netPosition d o security price positions).
Proof.
  intros Hsz Hq Hall. unfold netPosition.
  destruct (findIndex (same_position o) positions) as [i|] eqn:E.
  - destruct (positions !! i) as [pos|] eqn:Hpos; [|exact Hall].
    destruct (isSameDirection _ _).
    + apply Forall_insert; [exact Hall|]. reflexivity.
    + cbn [p_size position_set_size]. destruct (ltb _ _).
      * apply Forall_splice1. exact Hall.
      * apply Forall_insert; [exact Hall|]. reflexivity.
  - apply Forall_app. split; [exact Hall|]. constructor; [|constructor].
    unfold valued, orderSizeWithSign. cbn [newPosition p_amount p_price p_size].
    destruct (String.eqb (o_side o) "sell"); rewrite ?abs_neg, Hsz; cbn [abs];
      rewrite (Qabs_nonneg_eq q Hq); reflexivity.
Qed.

(** Adding to a position of at least the threshold, in its own
    direction, leaves one of at least the threshold. *)
Lemma same_direction_open (a b : value) :
  isSameDirection a b = true ->
  le threshold (abs a) -> le threshold (abs (add a b)).
Proof.
  intros Hd Ha. apply isSameDirection_spec in Hd. unfold same_sign, lt in Hd.
  rewrite threshold_eq in Ha.
  destruct a as [x|s| |], b as [y|t| |]; cbn [ltb] in Hd;
    try (exfalso; destruct Hd as [[H1 H2]|[H1 H2]];
         first [discriminate H1|discriminate H2]).
  - cbn [add]. unfold le in Ha. cbn [abs leb] in Ha.
    apply Qle_bool_iff in Ha. rewrite !Qltb_lt in Hd.
    destruct Hd as [[Hx Hy]|[Hx Hy]].
    + apply norm_above. rewrite Qabs_pos in Ha by lra. lra.
    + apply norm_below. rewrite Qabs_neg in Ha by lra. lra.
  - cbn [add abs]. rewrite threshold_eq. reflexivity.
  - cbn [add abs]. rewrite threshold_eq. reflexivity.
  - cbn [add]. destruct s, t; cbn [Bool.eqb abs]; rewrite threshold_eq; try reflexivity;
      exfalso; destruct Hd as [[H1 H2]|[H1 H2]];
      first [discriminate H1|discriminate H2].
Qed.

(** A position of at least the threshold that an order reduces is of at
    least the threshold when it is kept. *)
Lemma kept_open (a : value) (y : Q) :
  le threshold (abs a) ->
  ltb (abs (add a (Fin y))) threshold = false ->
  le threshold (abs (add a (Fin y))).
Proof.
  intros Ha. rewrite threshold_eq in *. unfold le in Ha.
  destruct a as [x|s| |]; cbn [abs leb] in Ha;
    [| |exfalso; apply diff_false_true; exact Ha ..].
  - cbn [add]. unfold norm. destruct (Qle_bool (Qabs (round64 (x + y))) maxDouble).
    + unfold le. cbn [abs ltb leb]. intros H. apply Qltb_ge in H.
      apply Qle_bool_iff. exact H.
    + reflexivity.
  - reflexivity.
Qed.

Lemma netPosition_open d o security price positions (q : Q) :
  o_size o = Fin q -> round64 (1 # 10000) <= Qabs q ->
  Forall open_ positions ->
  Forall open_ (netPosition d o security price positions).
Proof.
  intros Hsz Hq Hall. unfold netPosition.
  assert (Hdelta : exists y, orderSizeWithSign o = Fin y /\ Qabs y = Qabs q).
  { unfold orderSizeWithSign. rewrite Hsz.
    destruct (String.eqb (o_side o) "sell"); cbn [neg]; eexists; split; try reflexivity.
    apply Qabs_opp_eq. }
  destruct Hdelta as (y & Hy & Habs). rewrite Hy.
  destruct (findIndex (same_position o) positions) as [i|] eqn:E.
  - destruct (positions !! i) as [pos|] eqn:Hpos; [|exact Hall].
    assert (Ho : open_ pos).
    { rewrite Forall_forall in Hall. apply Hall. apply list_elem_of_lookup. eauto. }
    destruct (isSameDirection _ _) eqn:Hd.
    + apply Forall_insert; [exact Hall|]. unfold open_. cbn [p_size position_add].
      apply same_direction_open; assumption.
    + cbn [p_size position_set_size]. destruct (ltb _ _) eqn:Hq'.
      * apply Forall_splice1. exact Hall.
      * apply Forall_insert; [exact Hall|]. unfold open_.
        cbn [p_size position_reprice position_set_size].
        apply kept_open; assumption.
  - apply Forall_app. split; [exact Hall|]. constructor; [|constructor].
    unfold open_. cbn [newPosition p_size abs]. rewrite threshold_eq, Habs.
    apply Qle_bool_iff. exact Hq.
Qed.

Lemma orderSize_built d orderData st :
  o_size (buildOrder d orderData st) = Fin (orderSize orderData).
Proof. reflexivity. Qed.

(** The positions after [addOrderToOrderBook]: netted by a market order
    while the chart is there, untouched otherwise. *)
Lemma addOrderToOrderBook_positions d orderData st :
  currentPositions (addOrderToOrderBook parseFloat d orderData st) =
  if chartWrapper st && isMarketOrder orderData then
    netPosition d (buildOrder d orderData st)
      (default noSecurity (i_security orderData))
      (num_or (i_ltp orderData) getCurrentLTP) (currentPositions st)
  else currentPositions st.
Proof.
  destruct (chartWrapper st) eqn:Hc.
  - destruct (isMarketOrder orderData) eqn:Hm; simpl.
    + destruct (addOrderToOrderBook_market d orderData st Hc Hm) as (? & _ & _ & _ & P & _).
      exact P.
    + apply (addOrderToOrderBook_resting d orderData st Hc Hm).
  - rewrite addOrderToOrderBook_unavailable by exact Hc. reflexivity.
Qed.

Lemma panelOrder_market side p st :
  isMarketOrder (panelOrder parseFloat side p st) = true <-> orderType p = PanelMarket.
Proof.
  unfold isMarketOrder, panelOrder. cbn [i_order i_orderType default noOrderDetails od_orderType].
  destruct (orderType p); vm_compute; split; congruence.
Qed.

Lemma panelOrder_size side p st :
  orderSize (panelOrder parseFloat side p st) == quantity p.
Proof.
  unfold orderSize, panelOrder. cbn.
  destruct (Qeq_bool (quantity p) 0) eqn:E; cbn; [|rewrite E; reflexivity].
  apply Qeq_bool_eq in E. rewrite E. reflexivity.
Qed.

Lemma modifyOrderInOrderBook_frame d m st :
  let st' := modifyOrderInOrderBook d m st in
  currentTradeBook st' = currentTradeBook st
  /\ currentPositions st' = currentPositions st
  /\ currentAccountList st' = currentAccountList st
  /\ chartWrapper st' = chartWrapper st
  /\ currentSymbol st' = currentSymbol st
  /\ length (currentOrderBook st') = length (currentOrderBook st).
Proof.
  cbv zeta. unfold modifyOrderInOrderBook.
  destruct (findIndex _ _) as [i|]; [|repeat split].
  destruct (currentOrderBook st !! i) as [o|]; [|repeat split].
  match goal with |- context [let '(_, _) := ?x in _] => destruct x as [sz rem] end.
  simpl. repeat split. apply length_insert.
Qed.

Lemma removeOrderFromOrderBook_positions d i st :
  currentPositions (removeOrderFromOrderBook d i st) = currentPositions st.
Proof.
  unfold removeOrderFromOrderBook.
  destruct (findIndex _ _) as [k|]; [|reflexivity].
  destruct (currentOrderBook st !! k); reflexivity.
Qed.

(** What an action does to the positions: nothing, a reset, or the
    netting of the market order it places. *)
Lemma act_nets d a st :
  currentPositions (act parseFloat d a st) = currentPositions st
  \/ currentPositions (act parseFloat d a st) = []
  \/ exists o security ltp q q',
       currentPositions (act parseFloat d a st)
       = netPosition d o security ltp (currentPositions st)
       /\ marketSize a = Some q /\ o_size o = Fin q' /\ q' == q.
Proof.
  assert (Hadd : forall m q,
             (isMarketOrder m = true -> orderSize m == q) ->
             currentPositions (addOrderToOrderBook parseFloat d m st) = currentPositions st
             \/ isMarketOrder m = true
                /\ exists o security ltp q',
                     currentPositions (addOrderToOrderBook parseFloat d m st)
                     = netPosition d o security ltp (currentPositions st)
                     /\ o_size o = Fin q' /\ q' == q).
  { intros m q Hq. rewrite addOrderToOrderBook_positions.
    destruct (chartWrapper st); cbn [andb]; [|left; reflexivity].
    destruct (isMarketOrder m) eqn:Hm; [|left; reflexivity].
    right. split; [reflexivity|]. eexists _, _, _, _. split; [reflexivity|].
    split; [apply orderSize_built|]. apply Hq. reflexivity. }
  destruct a as [|ev|p|p|]; cbn [act].
  - left. reflexivity.
  - destruct ev as [|m|m|m| |n]; cbn [handleTradingEvent]; try (left; reflexivity).
    + destruct (Hadd m (orderSize m) (fun _ => Qeq_refl _)) as [H|[Hm (o & s & l & q' & H & Hs & Hq)]];
        [left; exact H|].
      right. right. exists o, s, l, (orderSize m), q'.
      cbn [marketSize]. rewrite Hm. auto.
    + left. destruct (cancelledOrderId m); [|reflexivity].
      apply removeOrderFromOrderBook_positions.
    + left. apply (modifyOrderInOrderBook_frame d m st).
  - unfold handleBuyOrder.
    destruct (Hadd (panelOrder parseFloat "buy" p st) (quantity p)
                (fun _ => panelOrder_size "buy" p st))
      as [H|[Hm (o & s & l & q' & H & Hs & Hq)]]; [left; exact H|].
    right. right. exists o, s, l, (quantity p), q'.
    apply panelOrder_market in Hm. cbn [marketSize]. rewrite Hm. auto.
  - unfold handleSellOrder.
    destruct (Hadd (panelOrder parseFloat "sell" p st) (quantity p)
                (fun _ => panelOrder_size "sell" p st))
      as [H|[Hm (o & s & l & q' & H & Hs & Hq)]]; [left; exact H|].
    right. right. exists o, s, l, (quantity p), q'.
    apply panelOrder_market in Hm. cbn [marketSize]. rewrite Hm. auto.
  - right. left. reflexivity.
Qed.

(** A property of the state that every action of a kind keeps holds
    after a session of such actions. *)
Lemma session_keeps (P : BrokerState -> Prop) (ok : Action -> Prop) :
  (forall d a st, ok a -> P st -> P (act parseFloat d a st)) ->
  forall l st, Forall (fun da => ok da.2) l -> P st -> P (session parseFloat l st).
Proof.
  intros Hact. induction l as [|[d a] l IH]; intros st Hl Hst; [exact Hst|].
  inversion Hl; subst. cbn [session]. apply IH; [assumption|].
  apply Hact; assumption.
Qed.

Lemma session_always (P : BrokerState -> Prop) :
  (forall d a st, P st -> P (act parseFloat d a st)) ->
  forall l st, P st -> P (session parseFloat l st).
Proof.
  intros Hact l st. apply (session_keeps P (fun _ => True)).
  - intros d a s _. apply Hact.
  - apply Forall_forall. auto.
Qed.

Lemma act_booked d a st :
  Forall booked (currentPositions st) ->
  Forall booked (currentPositions (act parseFloat d a st)).
Proof.
  intros H.
  destruct (act_nets d a st) as [E|[E|(o & s & l & q & q' & E & _)]]; rewrite E.
  - exact H.
  - constructor.
  - apply netPosition_booked. exact H.
Qed.

Lemma act_valued d a st :
  unsigned a ->
  Forall valued (currentPositions st) ->
  Forall valued (currentPositions (act parseFloat d a st)).
Proof.
  intros Ha H.
  destruct (act_nets d a st) as [E|[E|(o & s & l & q & q' & E & Hm & Hs & Hq)]]; rewrite E.
  - exact H.
  - constructor.
  - apply (netPosition_valued _ _ _ _ _ q' Hs); [|exact H].
    rewrite Hq. apply Ha. exact Hm.
Qed.

Lemma act_open d a st :
  sized a ->
  Forall open_ (currentPositions st) ->
  Forall open_ (currentPositions (act parseFloat d a st)).
Proof.
  intros Ha H.
  destruct (act_nets d a st) as [E|[E|(o & s & l & q & q' & E & Hm & Hs & Hq)]]; rewrite E.
  - exact H.
  - constructor.
  - apply (netPosition_open _ _ _ _ _ q' Hs); [|exact H].
    rewrite Hq. apply Ha. exact Hm.
Qed.

(** C8, as the code has it.  After any session from the initial state,
    every position has [size_currency = |size|] and [pnl], [unPnl] and
    [rPnl] equal to 0; when no market order of the session has a
    negative size, every position has [amount = price * |size|] (the
    product as doubles multiply); and when every market order of the
    session has an absolute size of at least 0.0001, every position has
    [|size| >= 0.0001]. *)
Theorem ledger_invariant (l : list (Draws * Action)) :
  let st := session parseFloat l initialState in
  Forall booked (currentPositions st)
  /\ (Forall (fun da => unsigned da.2) l -> Forall valued (currentPositions st))
  /\ (Forall (fun da => sized da.2) l -> Forall open_ (currentPositions st)).
Proof.
  cbv zeta. split; [|split].
  - apply (session_always (fun st => Forall booked (currentPositions st))).
    + intros d a st. apply act_booked.
    + constructor.
  - intros Hl.
    apply (session_keeps (fun st => Forall valued (currentPositions st)) unsigned);
      [|exact Hl|constructor].
    intros d a st. apply act_valued.
  - intros Hl.
    apply (session_keeps (fun st => Forall open_ (currentPositions st)) sized);
      [|exact Hl|constructor].
    intros d a st. apply act_open.
Qed.

End Handlers.

End Ledger.
(** *** Examples on the ledger *)

Section LedgerExamples.
Import Js Num Broker Spec Fixtures MoreFixtures.
Local Open Scope Q_scope.

(** Sums round as doubles do: 0.1 + 0.2 is 0.30000000000000004. *)
Example add_rounds :
  add (double (1 # 10)) (double (2 # 10))
  = Fin (double (30000000000000004 # 100000000000000000))
  /\ ~ double (1 # 10) + double (2 # 10) == double (3 # 10).
Proof.
  split; [vm_compute; reflexivity|]. vm_compute. discriminate.
Qed.

(** Market buys of 0.1 and of 0.2 at 100 leave a position of
    0.30000000000000004 priced at 99.99999999999999. *)
Example average_rounds :
  exists pos,
    currentPositions
      (session noParse
         [(draws 0, ChartReady);
          (draws 1, ChartEvent (PLACE_ORDER (placed "buy" "market" (double (1 # 10)) 100)));
          (draws 2, ChartEvent (PLACE_ORDER (placed "buy" "market" (double (2 # 10)) 100)))]
         initialState)
    = [pos]
    /\ same (p_size pos) (1351079888211149 # 4503599627370496)
    /\ same (p_price pos) (7036874417766399 # 70368744177664).
Proof.
  eexists. split; [vm_compute; reflexivity|]. split; vm_compute; reflexivity.
Qed.

(** A long position of 0.000102 reduced by 0.000002 is left at the
    double 0.0001, which is not below 0.0001: the position stays, though
    the exact difference of the two doubles is below that double. *)
Example reduced_to_threshold :
  exists pos,
    currentPositions
      (session noParse
         [(draws 0, ChartReady); (draws 1, Buy (marketPanel (double (102 # 1000000))));
          (draws 2, Sell (marketPanel (double (2 # 1000000))))] initialState)
    = [pos]
    /\ p_size pos = threshold
    /\ ~ lt (abs (p_size pos)) threshold
    /\ double (102 # 1000000) - double (2 # 1000000) < double (1 # 10000).
Proof.
  eexists. split; [vm_compute; reflexivity|].
  split; [vm_compute; reflexivity|]. split; vm_compute; [discriminate|reflexivity].
Qed.

(** An order type written with the Kelvin sign lowers to "market", and
    the order is filled. *)
Example kelvin_is_market :
  toLowerCase kelvin = "market"
  /\ isMarketOrder (placed "buy" kelvin 1 100) = true
  /\ exists o,
       currentOrderBook (addOrderToOrderBook noParse (draws 1) (placed "buy" kelvin 1 100) ready)
       = [o]
       /\ o_orderType o = kelvin /\ o_status o = "filled".
Proof.
  split; [reflexivity|]. split; [reflexivity|].
  eexists. split; [vm_compute; reflexivity|]. split; reflexivity.
Qed.

(** C1 fails as stated, in three ways.  Two market buys of 0.00003 leave
    a position of 0.00006, below 0.0001 and still in the list.  Two
    market buys of 1 at a last traded price of -10 leave a position
    priced at 10, where the size-weighted average of the two prices is
    -10.  A market buy of quantity 0 opens a position of size 0, not a
    positive one. *)
Lemma createPositionAndTrade_netting_counterexample :
  (exists pos,
      currentPositions
        (session noParse
           [(draws 0, ChartReady); (draws 1, Buy (marketPanel (double (3 # 100000))));
            (draws 2, Buy (marketPanel (double (3 # 100000))))] initialState)
      = [pos]
      /\ lt (abs (p_size pos)) threshold)
  /\ (exists pos,
         currentPositions
           (session noParse
              [(draws 0, ChartReady);
               (draws 1, ChartEvent (PLACE_ORDER (placed "buy" "market" 1 (-10))));
               (draws 2, ChartEvent (PLACE_ORDER (placed "buy" "market" 1 (-10))))]
              initialState)
         = [pos]
         /\ same (p_size pos) 2
         /\ same (p_price pos) 10
         /\ weightedAverage (-10) 1 (-10) 1 == -10)
  /\ (exists pos,
         currentPositions
           (session noParse [(draws 0, ChartReady); (draws 1, Buy (marketPanel 0))]
              initialState)
         = [pos]
         /\ o_side (buildOrder (draws 1) (panelOrder noParse "buy" (marketPanel 0) ready) ready)
            = "buy"
         /\ same (p_size pos) 0
         /\ ~ lt 0 (p_size pos)).
Proof.
  split; [|split].
  - eexists. split; [vm_compute; reflexivity|]. vm_compute. reflexivity.
  - eexists. split; [vm_compute; reflexivity|].
    split; [vm_compute; reflexivity|].
    split; vm_compute; reflexivity.
  - eexists. split; [vm_compute; reflexivity|].
    split; [vm_compute; reflexivity|]. split; vm_compute; [reflexivity|discriminate].
Qed.

Lemma createPositionAndTrade_netting_witness :
  exists pos',
    currentPositions (fst (createPositionAndTrade (draws 1) buyOne noSecurity 200 longOne))
    = [pos']
    /\ p_size pos' = add 1 1
    /\ same (p_size pos') 2
    /\ same (p_price pos') 150.
Proof.
  pose proof (createPositionAndTrade_netting (draws 1) buyOne noSecurity 200 longOne) as H.
  cbv zeta in H.
  change (findIndex (same_position buyOne) (currentPositions longOne)) with (Some 0%nat) in H.
  destruct H as (pos & Hpos & _ & _ & Hsame & _).
  injection Hpos as Hpos. subst pos.
  destruct Hsame as (pos' & Heq & Hsz & _ & Havg).
  { left. split; reflexivity. }
  exists pos'. split; [exact Heq|]. split; [exact Hsz|].
  split; [rewrite Hsz; vm_compute; reflexivity|].
  destruct (Havg 100 1 1) as [_ Hw];
    try reflexivity;
    try (eexists; split; vm_compute; reflexivity).
  assert (Hv : weightedAverage 100 (Qabs 1) 200 (Qabs 1) == 150) by reflexivity.
  specialize (Hw ltac:(discriminate) ltac:(discriminate)).
  destruct (p_price pos') as [r|s| |]; cbn [same] in *; try contradiction.
  rewrite Hw. exact Hv.
Defined.

(** C3 fails as stated.  Before the chart is ready a market order is not
    appended at all.  With the chart ready, a market order whose type
    comes in [type] is recorded with the order type "market" and yet
    stays open without a trade, and an order of type "MARKET" is
    filled. *)
Lemma addOrderToOrderBook_fills_counterexample :
  (isMarketOrder (placed "buy" "market" 1 100) = true
   /\ addOrderToOrderBook noParse (draws 1) (placed "buy" "market" 1 100) initialState
      = initialState
   /\ currentOrderBook initialState = [])
  /\ (exists o,
         currentOrderBook
           (addOrderToOrderBook noParse (draws 1) (placedByType "buy" "market" 1 100) ready)
         = [o]
         /\ o_orderType o = "market" /\ o_status o = "open"
         /\ currentTradeBook
              (addOrderToOrderBook noParse (draws 1) (placedByType "buy" "market" 1 100) ready)
            = [])
  /\ (exists o,
         currentOrderBook
           (addOrderToOrderBook noParse (draws 1) (placed "buy" "MARKET" 1 100) ready)
         = [o]
         /\ o_orderType o = "MARKET" /\ o_status o = "filled").
Proof.
  split; [|split].
  - repeat split.
  - eexists. split; [vm_compute; reflexivity|]. repeat split.
  - eexists. split; [vm_compute; reflexivity|]. repeat split.
Qed.

Lemma addOrderToOrderBook_fills_witness :
  exists filled trade,
    currentOrderBook
      (addOrderToOrderBook noParse (draws 1) (placed "sell" "market" 2 100) ready)
    = [filled]
    /\ o_status filled = "filled"
    /\ o_remainingSize filled = 0
    /\ o_fillPrice filled = Some 100
    /\ currentTradeBook
         (addOrderToOrderBook noParse (draws 1) (placed "sell" "market" 2 100) ready)
       = [trade]
    /\ t_commission trade = mul (t_value trade) (literal (1 # 1000)).
Proof.
  destruct (addOrderToOrderBook_fills noParse (draws 1)
              (placed "sell" "market" 2 100) ready eq_refl) as [H _].
  destruct (H eq_refl)
    as (filled & tpsl & trade & E & _ & _ & S & _ & R & F & _ & T & _ & _ & _ & C).
  exists filled, trade.
  assert (Hb : currentOrderBook
                 (addOrderToOrderBook noParse (draws 1) (placed "sell" "market" 2 100) ready)
               = [order_fill (buildOrder (draws 1) (placed "sell" "market" 2 100) ready) 100])
    by reflexivity.
  rewrite Hb in E |- *. simpl in E.
  injection E as E1 E2. subst tpsl.
  split; [congruence|]. repeat split; assumption.
Defined.

Lemma removeOrderFromOrderBook_exact_witness :
  (exists o,
      currentOrderBook (removeOrderFromOrderBook (draws 3) "ORDER_t1_o" twoOrders) = [o]
      /\ o_orderId o = "ORDER_t2_o")
  /\ removeOrderFromOrderBook (draws 3) "ORDER_t9_o" twoOrders = twoOrders.
Proof.
  destruct (removeOrderFromOrderBook_exact noParse (draws 3) "ORDER_t1_o" twoOrders)
    as (_ & _ & _ & _ & Hhit & _).
  destruct (removeOrderFromOrderBook_exact noParse (draws 3) "ORDER_t9_o" twoOrders)
    as (_ & _ & _ & Hmiss & _).
  split.
  - destruct Hhit as (before & o & after & _ & _ & _ & E & _).
    { apply Exists_cons_hd. reflexivity. }
    eexists. split; reflexivity.
  - apply Hmiss. repeat constructor; discriminate.
Defined.

(** C8 fails as stated, in two ways.  A market buy of quantity 0 leaves
    a position of size 0 in the list.  A market buy of quantity -1 at
    110000 opens a position of size -1 whose amount is -110000, where
    price times absolute size is 110000. *)
Lemma ledger_invariant_counterexample :
  (exists pos,
      currentPositions
        (session noParse [(draws 0, ChartReady); (draws 1, Buy (marketPanel 0))]
           initialState)
      = [pos]
      /\ ~ open_ pos)
  /\ (exists pos,
         currentPositions
           (session noParse [(draws 0, ChartReady); (draws 1, Buy (marketPanel (-1)))]
              initialState)
         = [pos]
         /\ same (p_size pos) (-1)
         /\ same (p_amount pos) (-110000)
         /\ same (mul (p_price pos) (abs (p_size pos))) 110000
         /\ ~ valued pos).
Proof.
  split.
  - eexists. split; [vm_compute; reflexivity|]. vm_compute. discriminate.
  - eexists. split; [vm_compute; reflexivity|].
    split; [vm_compute; reflexivity|].
    split; [vm_compute; reflexivity|].
    split; [vm_compute; reflexivity|].
    vm_compute. discriminate.
Qed.

Lemma ledger_invariant_witness :
  exists pos,
    currentPositions (session noParse twoTrades initialState) = [pos]
    /\ same (p_size pos) (-3)
    /\ booked pos /\ valued pos /\ open_ pos.
Proof.
  destruct (ledger_invariant noParse twoTrades) as (Hb & Hv & Ho).
  assert (Hu : Forall (fun da => unsigned da.2) twoTrades).
  { repeat constructor; intros q H; vm_compute in H; try discriminate H;
      injection H as <-; vm_compute; discriminate. }
  assert (Hs : Forall (fun da => sized da.2) twoTrades).
  { repeat constructor; intros q H; vm_compute in H; try discriminate H;
      injection H as <-; vm_compute; discriminate. }
  specialize (Hv Hu). specialize (Ho Hs).
  assert (E : exists pos, currentPositions (session noParse twoTrades initialState) = [pos]
                          /\ same (p_size pos) (-3)).
  { eexists. split; vm_compute; reflexivity. }
  destruct E as (pos & E & Hsz). rewrite E in Hb, Hv, Ho.
  exists pos. split; [exact E|]. split; [exact Hsz|].
  inversion Hb; subst. inversion Hv; subst. inversion Ho; subst. auto.
Defined.

End LedgerExamples.

(** ** Further properties of the ledger *)

Section LedgerMore.
Import Js Num Broker Spec LedgerSpec Fixtures.
Local Open Scope Q_scope.

Variable parseFloat : string -> option Q.

(** What [placeTPSLOrder] appends. *)
Lemma placeTPSLOrder_order d o price isTP st :
  exists c,
    currentOrderBook (placeTPSLOrder d o price isTP st) = currentOrderBook st ++ [c]
    /\ o_status c = "open" /\ o_fillPrice c = None /\ o_filledSize c = 0
    /\ o_size c = o_size o /\ o_remainingSize c = o_size o
    /\ o_side c = oppositeSide (o_side o)
    /\ o_productId c = o_productId o /\ o_symbol c = o_symbol o
    /\ o_orderType c = (if isTP then "limit" else "stop")
    /\ o_price c = (if isTP then price else 0)
    /\ o_stopPrice c = (if isTP then None else Some price).
Proof. eexists. unfold placeTPSLOrder. simpl. repeat split. Qed.

Lemma accounted_open (o : Order) :
  o_status o = "open" -> o_fillPrice o = None -> o_filledSize o = 0 ->
  o_remainingSize o = o_size o -> accounted o.
Proof.
  intros Hs Hf Hz Hr. unfold accounted. split; [left; auto|].
  left. repeat split; auto.
Qed.

Lemma accounted_filled (o : Order) (ltp : Q) : accounted (order_fill o ltp).
Proof.
  unfold accounted. simpl. split; [right; left; auto|].
  right. repeat split. discriminate.
Qed.

Lemma accounted_built d orderData st : accounted (buildOrder d orderData st).
Proof. apply accounted_open; reflexivity. Qed.

Lemma handleMarketOrderWithTPSL_accounted d o order st :
  exists tpsl,
    currentOrderBook (handleMarketOrderWithTPSL parseFloat d o order st)
    = currentOrderBook st ++ tpsl
    /\ Forall accounted tpsl
    /\ (length tpsl <= 2)%nat.
Proof.
  assert (Hone : forall price isTP s,
             exists c, currentOrderBook (placeTPSLOrder d o price isTP s)
                       = currentOrderBook s ++ [c] /\ accounted c).
  { intros price isTP s.
    destruct (placeTPSLOrder_order d o price isTP s)
      as (c & E & S & F & Z & Y & R & _).
    exists c. split; [exact E|]. apply accounted_open; congruence. }
  unfold handleMarketOrderWithTPSL.
  destruct (tpslPrice parseFloat (od_takeProfit order)) as [p|];
    destruct (tpslPrice parseFloat (od_stopLoss order)) as [q|].
  - destruct (Hone p true st) as (c1 & E1 & A1).
    destruct (Hone q false (placeTPSLOrder d o p true st)) as (c2 & E2 & A2).
    exists [c1; c2]. rewrite E2, E1, <- app_assoc. split; [reflexivity|].
    split; [|simpl; lia]. constructor; [exact A1|]. constructor; [exact A2|constructor].
  - destruct (Hone p true st) as (c1 & E1 & A1).
    exists [c1]. split; [exact E1|]. split; [|simpl; lia].
    constructor; [exact A1|constructor].
  - destruct (Hone q false st) as (c1 & E1 & A1).
    exists [c1]. split; [exact E1|]. split; [|simpl; lia].
    constructor; [exact A1|constructor].
  - exists []. rewrite app_nil_r. split; [reflexivity|]. split; [constructor|simpl; lia].
Qed.

(** The order book after [addOrderToOrderBook]. *)
Lemma addOrderToOrderBook_book d orderData st :
  exists added,
    currentOrderBook (addOrderToOrderBook parseFloat d orderData st)
    = currentOrderBook st ++ added
    /\ Forall accounted added.
Proof.
  unfold addOrderToOrderBook.
  destruct (chartWrapper st); simpl;
    [|exists []; rewrite app_nil_r; split; [reflexivity|constructor]].
  destruct (isMarketOrder orderData); simpl.
  - rewrite insert_last.
    match goal with
    | |- context [handleMarketOrderWithTPSL parseFloat d ?o ?od ?s] =>
        destruct (handleMarketOrderWithTPSL_accounted d o od s) as (tpsl & E & A & _)
    end.
    eexists (_ :: tpsl). unfold updateChartBrokerData, addOrderToHistory. simpl.
    rewrite E. simpl. rewrite <- app_assoc. simpl. split; [reflexivity|].
    constructor; [apply accounted_filled|exact A].
  - eexists [_]. split; [reflexivity|]. constructor; [apply accounted_built|constructor].
Qed.

Lemma removeOrderFromOrderBook_Forall (P : Order -> Prop) d i st :
  Forall P (currentOrderBook st) ->
  Forall P (currentOrderBook (removeOrderFromOrderBook d i st)).
Proof.
  intros H. unfold removeOrderFromOrderBook.
  destruct (findIndex _ _) as [k|]; [|exact H].
  destruct (currentOrderBook st !! k) as [o|]; [|exact H].
  simpl. apply Forall_splice1. exact H.
Qed.

Lemma modifyOrderInOrderBook_accounted d m st :
  Forall accounted (currentOrderBook st) ->
  Forall accounted (currentOrderBook (modifyOrderInOrderBook d m st)).
Proof.
  unfold modifyOrderInOrderBook.
  destruct (findIndex _ _) as [i|]; [|auto].
  destruct (currentOrderBook st !! i) as [o|] eqn:Ho; [|auto].
  intros Hall.
  assert (Hacc : accounted o).
  { rewrite Forall_forall in Hall. apply Hall, list_elem_of_lookup. eauto. }
  destruct Hacc as [Hr Hs].
  destruct (m_size m) as [a|], (m_quantity m) as [b|];
    unfold updateChartBrokerData, addOrderToHistory; simpl;
    (apply Forall_insert; [exact Hall|]);
    unfold accounted; simpl; (split; [|exact Hs]); auto.
Qed.

Lemma act_accounted d a st :
  Forall accounted (currentOrderBook st) ->
  Forall accounted (currentOrderBook (act parseFloat d a st)).
Proof.
  assert (Hadd : forall dd od s,
             Forall accounted (currentOrderBook s) ->
             Forall accounted (currentOrderBook (addOrderToOrderBook parseFloat dd od s))).
  { intros dd od s Hall.
    destruct (addOrderToOrderBook_book dd od s) as (added & E & A).
    rewrite E. apply Forall_app. auto. }
  destruct a as [|ev|p|p|]; cbn [act].
  - auto.
  - destruct ev as [|m|m|m| |n]; cbn [handleTradingEvent]; auto.
    + destruct (cancelledOrderId m); auto.
      apply removeOrderFromOrderBook_Forall.
    + apply modifyOrderInOrderBook_accounted.
  - apply Hadd.
  - apply Hadd.
  - intros _. constructor.
Qed.

(** X1.  After any session from the initial state every order of the
    book keeps its accounts.  Its sizes are as they were placed (all of
    its size remains and nothing is filled), as they were filled
    (nothing remains and all of its size is filled), or as a
    modification left them (what remains is the size less the filled
    size, as doubles subtract, which is NaN when the modification left
    the size undefined); an open order has neither fill price nor filled
    size, and a filled order has a fill price equal to its average fill
    price. *)
Theorem order_accounting (l : list (Draws * Action)) :
  Forall accounted (currentOrderBook (session parseFloat l initialState)).
Proof.
  apply (session_always parseFloat (fun st => Forall accounted (currentOrderBook st))).
  - intros d a st. apply act_accounted.
  - constructor.
Qed.


(** *** One position for a product *)

Lemma same_position_key (o : Order) (pos : Position) :
  same_position o pos = true <-> positionKey pos = (o_productId o, o_symbol o).
Proof.
  unfold same_position, positionKey. rewrite andb_true_iff, !String.eqb_eq.
  split; [intros [-> ->]; reflexivity|intros [= -> ->]; auto].
Qed.

Lemma splice1_sublist {A} (i : nat) (l : list A) : splice1 i l `sublist_of` l.
Proof.
  unfold splice1. rewrite <- (take_drop i l) at 3.
  apply sublist_app; [reflexivity|].
  replace (drop (S i) l) with (drop 1 (drop i l))
    by (rewrite drop_drop; f_equal; lia).
  apply sublist_drop.
Qed.

Lemma NoDup_splice1 {A} (i : nat) (l : list A) : NoDup l -> NoDup (splice1 i l).
Proof. intros H. eapply sublist_NoDup; [exact H|apply splice1_sublist]. Qed.

Lemma fmap_splice1 {A B} (f : A -> B) (i : nat) (l : list A) :
  f <$> splice1 i l = splice1 i (f <$> l).
Proof. unfold splice1. rewrite fmap_app, fmap_take, fmap_drop. reflexivity. Qed.

Lemma netPosition_keys d o security price positions :
  NoDup (positionKey <$> positions) ->
  NoDup (positionKey <$> netPosition d o security price positions).
Proof.
  intros Hnd. unfold netPosition.
  destruct (findIndex (same_position o) positions) as [i|] eqn:E.
  - destruct (positions !! i) as [pos|] eqn:Hpos; [|exact Hnd].
    assert (Hkeep : forall x, positionKey x = positionKey pos ->
                     positionKey <$> <[i := x]> positions = positionKey <$> positions).
    { intros x Hx. rewrite list_fmap_insert, Hx. apply list_insert_id.
      rewrite list_lookup_fmap, Hpos. reflexivity. }
    destruct (isSameDirection _ _).
    + rewrite Hkeep by reflexivity. exact Hnd.
    + cbn [p_size position_set_size]. destruct (ltb _ _).
      * rewrite fmap_splice1. apply NoDup_splice1. exact Hnd.
      * rewrite Hkeep by reflexivity. exact Hnd.
  - apply findIndex_None in E. rewrite fmap_app. apply NoDup_app.
    split; [exact Hnd|]. split; [|apply NoDup_singleton].
    intros k Hk Hin. apply list_elem_of_singleton in Hin. subst k.
    apply list_elem_of_fmap in Hk as (pos & Hkey & Hpos).
    rewrite Forall_forall in E. specialize (E pos Hpos).
    assert (same_position o pos = true); [|congruence].
    apply same_position_key. rewrite <- Hkey. reflexivity.
Qed.

(** X2.  After any session from the initial state the position list
    holds at most one position for a product and symbol. *)
Theorem one_position_per_product (l : list (Draws * Action)) :
  NoDup (positionKey <$> currentPositions (session parseFloat l initialState)).
Proof.
  apply (session_always parseFloat
           (fun st => NoDup (positionKey <$> currentPositions st))).
  - intros d a st H.
    destruct (act_nets parseFloat d a st) as [E|[E|(o & s & p & q & q' & E & _)]];
      rewrite E.
    + exact H.
    + constructor.
    + apply netPosition_keys. exact H.
  - constructor.
Qed.

(** *** The trade book, the accounts and the history *)

Lemma addOrderToOrderBook_trades d orderData st :
  exists new,
    currentTradeBook (addOrderToOrderBook parseFloat d orderData st)
    = currentTradeBook st ++ new
    /\ Forall settled new
    /\ length new = (if chartWrapper st && isMarketOrder orderData then 1 else 0)%nat.
Proof.
  destruct (chartWrapper st) eqn:Hc.
  - destruct (isMarketOrder orderData) eqn:Hm; simpl.
    + destruct (addOrderToOrderBook_market parseFloat d orderData st Hc Hm)
        as (? & _ & _ & T & _).
      eexists [_]. split; [exact T|]. split; [|reflexivity].
      constructor; [|constructor]. unfold settled. simpl. split; reflexivity.
    + destruct (addOrderToOrderBook_resting parseFloat d orderData st Hc Hm) as (_ & T & _).
      exists []. rewrite app_nil_r. split; [exact T|]. split; [constructor|reflexivity].
  - rewrite addOrderToOrderBook_unavailable by exact Hc.
    exists []. rewrite app_nil_r. split; [reflexivity|]. split; [constructor|reflexivity].
Qed.

Lemma removeOrderFromOrderBook_frame d i st :
  currentTradeBook (removeOrderFromOrderBook d i st) = currentTradeBook st
  /\ currentAccountList (removeOrderFromOrderBook d i st) = currentAccountList st
  /\ chartWrapper (removeOrderFromOrderBook d i st) = chartWrapper st
  /\ currentSymbol (removeOrderFromOrderBook d i st) = currentSymbol st.
Proof.
  unfold removeOrderFromOrderBook.
  destruct (findIndex _ _) as [k|]; [|repeat split].
  destruct (currentOrderBook st !! k); repeat split.
Qed.

Lemma act_trades d a st :
  (isReset a = false ->
   exists new, currentTradeBook (act parseFloat d a st) = currentTradeBook st ++ new
               /\ Forall settled new /\ (length new <= 1)%nat)
  /\ (isReset a = true -> currentTradeBook (act parseFloat d a st) = []).
Proof.
  assert (Hadd : forall od s,
             exists new, currentTradeBook (addOrderToOrderBook parseFloat d od s)
                         = currentTradeBook s ++ new
                         /\ Forall settled new /\ (length new <= 1)%nat).
  { intros od s. destruct (addOrderToOrderBook_trades d od s) as (new & E & S & L).
    exists new. repeat split; auto. rewrite L. destruct (_ && _); lia. }
  assert (Hid : forall s s' : BrokerState,
             currentTradeBook s' = currentTradeBook s ->
             exists new, currentTradeBook s' = currentTradeBook s ++ new
                         /\ Forall settled new /\ (length new <= 1)%nat).
  { intros s s' E. exists []. rewrite app_nil_r.
    repeat split; [exact E|constructor|simpl; lia]. }
  destruct a as [|ev|p|p|]; cbn [act isReset].
  - split; [intros _; apply Hid; reflexivity|discriminate].
  - split; [intros _|discriminate].
    destruct ev as [|m|m|m| |n]; cbn [handleTradingEvent];
      try (apply Hid; reflexivity).
    + apply Hadd.
    + destruct (cancelledOrderId m); apply Hid; [|reflexivity].
      apply removeOrderFromOrderBook_frame.
    + apply Hid. apply (modifyOrderInOrderBook_frame d m st).
  - split; [intros _; apply Hadd|discriminate].
  - split; [intros _; apply Hadd|discriminate].
  - split; [discriminate|reflexivity].
Qed.

(** X3.  Trades are only ever appended: over a session without a reset
    the trade book it starts from is a prefix of the one it ends with,
    and the trades added, at most one for each action, each have value =
    price * size and commission = value * 0.001, as doubles multiply. *)
Theorem tradeBook_appends (l : list (Draws * Action)) (st : BrokerState) :
  forallb (fun da => negb (isReset da.2)) l = true ->
  exists new,
    currentTradeBook (session parseFloat l st) = currentTradeBook st ++ new
    /\ Forall settled new
    /\ (length new <= length l)%nat.
Proof.
  revert st. induction l as [|[d a] l IH]; cbn [session forallb]; intros st.
  - intros _. exists []. rewrite app_nil_r.
    repeat split; [constructor|simpl; lia].
  - intros Hl. apply andb_true_iff in Hl as [Ha Hl]. apply negb_true_iff in Ha.
    destruct (act_trades d a st) as [Hnew _].
    destruct (Hnew Ha) as (n1 & E1 & S1 & L1).
    destruct (IH (act parseFloat d a st) Hl) as (n2 & E2 & S2 & L2).
    exists (n1 ++ n2). rewrite E2, E1, <- app_assoc. split; [reflexivity|].
    split; [apply Forall_app; auto|]. rewrite length_app. simpl. lia.
Qed.

Lemma addOrderToOrderBook_keeps d orderData st :
  currentAccountList (addOrderToOrderBook parseFloat d orderData st) = currentAccountList st
  /\ chartWrapper (addOrderToOrderBook parseFloat d orderData st) = chartWrapper st
  /\ currentSymbol (addOrderToOrderBook parseFloat d orderData st) = currentSymbol st.
Proof.
  unfold addOrderToOrderBook.
  destruct (chartWrapper st) eqn:Hc; simpl; [|auto].
  destruct (isMarketOrder orderData); simpl; [|auto].
  unfold handleMarketOrderWithTPSL.
  destruct (tpslPrice parseFloat _); destruct (tpslPrice parseFloat _); simpl; auto.
Qed.

(** X4.  No action of a session touches the account list: after any
    number of orders, fills, modifications and resets it still holds the
    one demo account with its balance, equity and free margin of 100000
    and a margin of 0. *)
Theorem accounts_never_change (l : list (Draws * Action)) :
  currentAccountList (session parseFloat l initialState) = [demoAccount].
Proof.
  apply (session_always parseFloat (fun st => currentAccountList st = [demoAccount]));
    [|reflexivity].
  intros d a st H. rewrite <- H.
  destruct a as [|ev|p|p|]; cbn [act].
  - reflexivity.
  - destruct ev as [|m|m|m| |n]; cbn [handleTradingEvent]; try reflexivity.
    + apply addOrderToOrderBook_keeps.
    + destruct (cancelledOrderId m); [|reflexivity].
      apply removeOrderFromOrderBook_frame.
    + apply (modifyOrderInOrderBook_frame d m st).
  - apply addOrderToOrderBook_keeps.
  - apply addOrderToOrderBook_keeps.
  - reflexivity.
Qed.

(** *** The history panel *)

Lemma take_cons_take {A} (n : nat) (x : A) (l : list A) :
  take n (x :: take n l) = take n (x :: l).
Proof.
  destruct n as [|n]; [reflexivity|]. cbn [take]. f_equal.
  rewrite take_take. f_equal. lia.
Qed.

(** Every row goes in through [addOrderToHistory]. *)
Lemma addOrderToHistory_rows item st (rows : list OrderHistoryItem) h :
  orderHistory st = take 10 (rows ++ h) ->
  orderHistory (addOrderToHistory item st) = take 10 ((item :: rows) ++ h).
Proof.
  intros H. unfold addOrderToHistory, with_history. cbn [orderHistory].
  rewrite H. apply take_cons_take.
Qed.

Lemma placeTPSLOrder_rows d o price isTP st rows h :
  orderHistory st = take 10 (rows ++ h) ->
  exists row, orderHistory (placeTPSLOrder d o price isTP st)
              = take 10 ((row :: rows) ++ h).
Proof.
  intros H. unfold placeTPSLOrder. eexists. apply addOrderToHistory_rows. exact H.
Qed.

Lemma handleMarketOrderWithTPSL_rows d o order st h :
  orderHistory st = take 10 h ->
  exists rows,
    orderHistory (handleMarketOrderWithTPSL parseFloat d o order st) = take 10 (rows ++ h)
    /\ (length rows <= 2)%nat
    /\ (od_takeProfit order = None -> od_stopLoss order = None -> rows = []).
Proof.
  intros H. unfold handleMarketOrderWithTPSL.
  destruct (tpslPrice parseFloat (od_takeProfit order)) as [p|] eqn:Ep;
    destruct (tpslPrice parseFloat (od_stopLoss order)) as [q|] eqn:Eq.
  - destruct (placeTPSLOrder_rows d o p true st [] h H) as (r1 & H1).
    destruct (placeTPSLOrder_rows d o q false _ [r1] h H1) as (r2 & H2).
    exists [r2; r1]. split; [exact H2|]. split; [simpl; lia|].
    intros Hn _. rewrite Hn in Ep. discriminate Ep.
  - destruct (placeTPSLOrder_rows d o p true st [] h H) as (r1 & H1).
    exists [r1]. split; [exact H1|]. split; [simpl; lia|].
    intros Hn _. rewrite Hn in Ep. discriminate Ep.
  - destruct (placeTPSLOrder_rows d o q false st [] h H) as (r1 & H1).
    exists [r1]. split; [exact H1|]. split; [simpl; lia|].
    intros _ Hn. rewrite Hn in Eq. discriminate Eq.
  - exists []. split; [exact H|]. split; [simpl; lia|reflexivity].
Qed.

(** The rows that [addOrderToOrderBook] writes: the row of the order
    first, over the rows of its companions. *)
Lemma addOrderToOrderBook_rows d orderData st :
  (length (orderHistory st) <= 10)%nat ->
  exists rows,
    orderHistory (addOrderToOrderBook parseFloat d orderData st)
    = take 10 (rows ++ orderHistory st)
    /\ (length rows <= 3)%nat
    /\ (chartWrapper st = true ->
        exists row rest,
          rows = row :: rest
          /\ h_side row = o_side (buildOrder d orderData st)
          /\ h_quantity row = o_size (buildOrder d orderData st)
          /\ h_status row = (if isMarketOrder orderData then "Filled" else "Open")
          /\ (i_order orderData = None -> rest = [])).
Proof.
  intros Hlen.
  assert (H0 : orderHistory st = take 10 (orderHistory st)) by (rewrite take_ge; auto).
  unfold addOrderToOrderBook.
  destruct (chartWrapper st) eqn:Hc; cbn [negb].
  - destruct (isMarketOrder orderData) eqn:Hm.
    + cbn [createPositionAndTrade]. unfold updateChartBrokerData.
      match goal with
      | |- context [handleMarketOrderWithTPSL parseFloat d ?o ?od ?s] =>
          destruct (handleMarketOrderWithTPSL_rows d o od s (orderHistory st) H0)
            as (rest & E & L & Hnone)
      end.
      eexists (_ :: rest). split; [apply addOrderToHistory_rows; exact E|].
      split; [simpl; lia|]. intros _. eexists _, rest. split; [reflexivity|].
      cbn [h_side h_quantity h_status order_fill o_side o_size].
      repeat split. intros Hno. apply Hnone; rewrite Hno; reflexivity.
    + unfold updateChartBrokerData.
      eexists [_]. split; [apply (addOrderToHistory_rows _ _ [] (orderHistory st)); exact H0|].
      split; [simpl; lia|]. intros _. eexists _, []. split; [reflexivity|].
      cbn [h_side h_quantity h_status]. repeat split.
  - exists []. split; [exact H0|]. split; [simpl; lia|discriminate].
Qed.

Lemma act_rows d a st :
  (length (orderHistory st) <= 10)%nat ->
  isReset a = false ->
  exists rows,
    orderHistory (act parseFloat d a st) = take 10 (rows ++ orderHistory st)
    /\ (length rows <= 3)%nat.
Proof.
  intros Hlen Hr.
  assert (H0 : orderHistory st = take 10 (orderHistory st)) by (rewrite take_ge; auto).
  assert (Hadd : forall od,
             exists rows,
               orderHistory (addOrderToOrderBook parseFloat d od st)
               = take 10 (rows ++ orderHistory st) /\ (length rows <= 3)%nat).
  { intros od. destruct (addOrderToOrderBook_rows d od st Hlen) as (rows & E & L & _).
    exists rows. auto. }
  assert (Hid : exists rows : list OrderHistoryItem,
             orderHistory st = take 10 (rows ++ orderHistory st) /\ (length rows <= 3)%nat).
  { exists []. split; [exact H0|simpl; lia]. }
  assert (Hone : forall item,
             exists rows,
               orderHistory (addOrderToHistory item st) = take 10 (rows ++ orderHistory st)
               /\ (length rows <= 3)%nat).
  { intros item. exists [item].
    split; [apply (addOrderToHistory_rows _ _ [] (orderHistory st)); exact H0|simpl; lia]. }
  destruct a as [|ev|p|p|]; cbn [act]; try discriminate Hr.
  - exact Hid.
  - destruct ev as [|m|m|m| |n]; cbn [handleTradingEvent]; try exact Hid.
    + apply Hadd.
    + destruct (cancelledOrderId m); [|exact Hid].
      unfold removeOrderFromOrderBook.
      destruct (findIndex _ _) as [k|]; [|exact Hid].
      destruct (currentOrderBook st !! k); [|exact Hid].
      unfold updateChartBrokerData.
      match goal with |- context [addOrderToHistory ?item (with_orderBook ?ob st)] =>
        exists [item] end.
      split; [|simpl; lia].
      apply (addOrderToHistory_rows _ (with_orderBook _ st) [] (orderHistory st)). exact H0.
    + unfold modifyOrderInOrderBook.
      destruct (findIndex _ _) as [i|]; [|exact Hid].
      destruct (currentOrderBook st !! i) as [o|]; [|exact Hid].
      match goal with |- context [let '(_, _) := ?x in _] => destruct x as [sz rem] end.
      unfold updateChartBrokerData.
      match goal with |- context [addOrderToHistory ?item (with_orderBook ?ob st)] =>
        exists [item] end.
      split; [|simpl; lia].
      apply (addOrderToHistory_rows _ (with_orderBook _ st) [] (orderHistory st)). exact H0.
  - apply Hadd.
  - apply Hadd.
Qed.

Lemma act_history_bound d a st :
  (length (orderHistory st) <= 10)%nat ->
  (length (orderHistory (act parseFloat d a st)) <= 10)%nat.
Proof.
  intros Hlen. destruct (isReset a) eqn:Hr.
  - destruct a; try discriminate Hr. simpl. lia.
  - destruct (act_rows d a st Hlen Hr) as (rows & E & _). rewrite E.
    rewrite length_take. lia.
Qed.

(** X5.  The history panel never holds more than ten rows, whatever the
    session; an action other than a reset puts the rows it writes, at
    most three, before the rows that were there and keeps the first ten;
    Buy and Sell of the panel, once the chart is ready, write one row,
    for their side, the quantity of the panel and the status of the
    order; a reset empties the panel. *)
Theorem orderHistory_bounded (l : list (Draws * Action)) :
  let st := session parseFloat l initialState in
  (length (orderHistory st) <= 10)%nat
  /\ (forall d a, isReset a = false ->
        exists rows,
          orderHistory (act parseFloat d a st) = take 10 (rows ++ orderHistory st)
          /\ (length rows <= 3)%nat)
  /\ (forall d p, chartWrapper st = true ->
        exists bought sold,
          orderHistory (handleBuyOrder parseFloat d p st)
          = take 10 (bought :: orderHistory st)
          /\ orderHistory (handleSellOrder parseFloat d p st)
             = take 10 (sold :: orderHistory st)
          /\ h_side bought = "buy" /\ h_side sold = "sell"
          /\ same (h_quantity bought) (quantity p)
          /\ same (h_quantity sold) (quantity p)
          /\ h_status bought = h_status sold
          /\ h_status bought
             = match orderType p with
               | PanelMarket => "Filled"
               | PanelLimit => "Open"
               end)
  /\ (forall d, orderHistory (act parseFloat d Reset st) = []).
Proof.
  cbv zeta.
  assert (Hlen : (length (orderHistory (session parseFloat l initialState)) <= 10)%nat).
  { apply (session_always parseFloat (fun st => (length (orderHistory st) <= 10)%nat)).
    - intros d a st. apply act_history_bound.
    - simpl. lia. }
  set (st := session parseFloat l initialState) in *.
  split; [exact Hlen|]. split; [|split].
  - intros d a Hr. apply act_rows; assumption.
  - intros d p Hc. unfold handleBuyOrder, handleSellOrder.
    destruct (addOrderToOrderBook_rows d (panelOrder parseFloat "buy" p st) st Hlen)
      as (rb & Eb & _ & Hb).
    destruct (addOrderToOrderBook_rows d (panelOrder parseFloat "sell" p st) st Hlen)
      as (rs & Es & _ & Hs).
    destruct (Hb Hc) as (bought & restb & -> & Sb & Qb & Tb & Nb).
    destruct (Hs Hc) as (sold & rests & -> & Ss & Qs & Ts & Ns).
    rewrite (Nb eq_refl) in Eb. rewrite (Ns eq_refl) in Es.
    exists bought, sold. split; [exact Eb|]. split; [exact Es|].
    split; [rewrite Sb; reflexivity|]. split; [rewrite Ss; reflexivity|].
    split; [rewrite Qb, orderSize_built; apply (panelOrder_size parseFloat)|].
    split; [rewrite Qs, orderSize_built; apply (panelOrder_size parseFloat)|].
    rewrite Tb, Ts.
    destruct (orderType p) eqn:Ho.
    + rewrite (proj2 (panelOrder_market parseFloat "buy" p st) Ho).
      rewrite (proj2 (panelOrder_market parseFloat "sell" p st) Ho). auto.
    + assert (Hnb : isMarketOrder (panelOrder parseFloat "buy" p st) = false).
      { apply not_true_iff_false. intros H. apply panelOrder_market in H. congruence. }
      assert (Hns : isMarketOrder (panelOrder parseFloat "sell" p st) = false).
      { apply not_true_iff_false. intros H. apply panelOrder_market in H. congruence. }
      rewrite Hnb, Hns. auto.
  - reflexivity.
Qed.


(** *** Modification, companions and round trips *)

(** X6.  [modifyOrderInOrderBook] changes the first order that has the
    identifier of the message and nothing else: the other orders, the
    trade book, the positions and the accounts are as before; the order
    keeps its identifier, status, side, type and filled size, takes the
    price of the message when it has one, and is stamped with the time
    of the change.  When the message carries a size ([size], or else
    [quantity]) the order takes it, and what remains is that size less
    the filled size, as doubles subtract; when it carries a size of 0
    and no quantity the order is left with an undefined size and NaN
    remaining; when it carries neither the sizes stay.  A message that
    names no order of the book changes nothing. *)
Theorem modifyOrderInOrderBook_one (d : Draws) (m : ModifyData) (st : BrokerState) :
  let st' := modifyOrderInOrderBook d m st in
  currentTradeBook st' = currentTradeBook st
  /\ currentPositions st' = currentPositions st
  /\ currentAccountList st' = currentAccountList st
  /\ (Forall (fun o => Some (o_orderId o) <> modifiedOrderId m) (currentOrderBook st) ->
      st' = st)
  /\ (forall i o,
        findIndex (fun o => bool_decide (Some (o_orderId o) = modifiedOrderId m))
          (currentOrderBook st) = Some i ->
        currentOrderBook st !! i = Some o ->
        exists o',
          currentOrderBook st' = <[i := o']> (currentOrderBook st)
          /\ o_orderId o' = o_orderId o /\ o_status o' = o_status o
          /\ o_side o' = o_side o /\ o_orderType o' = o_orderType o
          /\ o_filledSize o' = o_filledSize o
          /\ o_price o' = default (o_price o) (m_price m)
          /\ o_modifiedAt o' = Some (d_now d)
          /\ (forall newSize,
                or_num (m_size m) (m_quantity m) = Some newSize ->
                o_size o' = newSize
                /\ o_remainingSize o' = sub newSize (or_value (o_filledSize o) 0))
          /\ (resizes m = true -> or_num (m_size m) (m_quantity m) = None ->
              o_size o' = Undefined /\ o_remainingSize o' = NaN)
          /\ (resizes m = false ->
              o_size o' = o_size o /\ o_remainingSize o' = o_remainingSize o)).
Proof.
  cbv zeta. destruct (modifyOrderInOrderBook_frame d m st) as (T & P & A & _).
  split; [exact T|]. split; [exact P|]. split; [exact A|]. split.
  - intros Hall. unfold modifyOrderInOrderBook.
    fold (modifiedOrderId m).
    destruct (findIndex _ _) as [i|] eqn:E; [|reflexivity].
    exfalso. destruct (findIndex_Some _ _ _ E) as (o & Ho & Hid & _).
    rewrite Forall_forall in Hall. apply (Hall o); [apply list_elem_of_lookup; eauto|].
    destruct (modifiedOrderId m) as [k|]; [|discriminate].
    apply String.eqb_eq in Hid. congruence.
  - intros i o Hi Ho. unfold modifyOrderInOrderBook.
    fold (modifiedOrderId m).
    assert (Hf : findIndex (fun o0 => match modifiedOrderId m with
                                       | Some k => has_orderId k o0
                                       | None => false
                                       end) (currentOrderBook st) = Some i).
    { rewrite <- Hi. clear. induction (currentOrderBook st) as [|x l IH]; simpl; [reflexivity|].
      rewrite IH.
      replace (match modifiedOrderId m with
               | Some k => has_orderId k x
               | None => false
               end) with (bool_decide (Some (o_orderId x) = modifiedOrderId m));
        [reflexivity|].
      destruct (modifiedOrderId m) as [k|]; [|reflexivity].
      unfold has_orderId. destruct (String.eqb_spec (o_orderId x) k) as [->|Hn].
      - apply bool_decide_eq_true. reflexivity.
      - apply bool_decide_eq_false. congruence. }
    rewrite Hf, Ho. unfold resizes.
    destruct (m_size m) as [a|] eqn:Hsz, (m_quantity m) as [b|] eqn:Hqt;
      eexists; (split; [reflexivity|]); cbn [o_orderId o_status o_side o_orderType
        o_filledSize o_price o_modifiedAt o_size o_remainingSize order_modify];
      repeat (split; [reflexivity|]);
      (split; [intros newSize Hn;
               first [discriminate Hn|rewrite Hn; split; reflexivity]|]);
      (split; [intros Hr Hn;
               first [discriminate Hr|rewrite Hn; split; reflexivity]|]);
      intros Hr; first [discriminate Hr|split; reflexivity].
Qed.

(** X7.  A market order whose nested [order] object carries a take
    profit and a stop loss that parse to positive prices brings two
    companions into the book after it: a limit order at the take-profit
    price and a stop order with the stop-loss price as stop price, both
    open, on the other side, of the size of the order and for its
    product and symbol. *)
Theorem market_order_companions (d : Draws) (orderData : OrderInputData)
    (st : BrokerState) (tp sl : Q) :
  chartWrapper st = true ->
  isMarketOrder orderData = true ->
  let order := default noOrderDetails (i_order orderData) in
  tpslPrice parseFloat (od_takeProfit order) = Some tp ->
  tpslPrice parseFloat (od_stopLoss order) = Some sl ->
  exists filled limit stop,
    currentOrderBook (addOrderToOrderBook parseFloat d orderData st)
    = currentOrderBook st ++ [filled; limit; stop]
    /\ o_status filled = "filled"
    /\ (o_status limit = "open" /\ o_orderType limit = "limit"
        /\ o_price limit = tp /\ o_stopPrice limit = None
        /\ o_side limit = oppositeSide (o_side filled)
        /\ o_size limit = o_size filled
        /\ o_productId limit = o_productId filled /\ o_symbol limit = o_symbol filled)
    /\ (o_status stop = "open" /\ o_orderType stop = "stop"
        /\ o_price stop = 0 /\ o_stopPrice stop = Some sl
        /\ o_side stop = oppositeSide (o_side filled)
        /\ o_size stop = o_size filled
        /\ o_productId stop = o_productId filled /\ o_symbol stop = o_symbol filled).
Proof.
  intros Hc Hm order Htp Hsl. unfold addOrderToOrderBook. rewrite Hc, Hm. simpl.
  rewrite insert_last. unfold handleMarketOrderWithTPSL. fold order. rewrite Htp, Hsl.
  eexists _, _, _. unfold updateChartBrokerData, addOrderToHistory, placeTPSLOrder.
  simpl. rewrite <- !app_assoc. simpl. split; [reflexivity|]. simpl.
  repeat split.
Qed.

(** X8.  The stop loss and the take profit typed into the trading panel
    never bring companions: whatever the panel holds, Buy and Sell add
    exactly one order to the book, which records the parsed values. *)
Theorem panel_order_alone (d : Draws) (p : Panel) (st : BrokerState) :
  chartWrapper st = true ->
  exists bought sold,
    currentOrderBook (handleBuyOrder parseFloat d p st) = currentOrderBook st ++ [bought]
    /\ currentOrderBook (handleSellOrder parseFloat d p st) = currentOrderBook st ++ [sold]
    /\ o_side bought = "buy" /\ o_side sold = "sell"
    /\ o_stopLoss bought = o_stopLoss sold
    /\ o_takeProfit bought = o_takeProfit sold
    /\ (forall v, stopLoss p <> "" -> parseFloat (stopLoss p) = Some v ->
        Qeq_bool v 0 = false -> o_stopLoss bought = Some (NSNum v))
    /\ (forall v, takeProfit p <> "" -> parseFloat (takeProfit p) = Some v ->
        Qeq_bool v 0 = false -> o_takeProfit bought = Some (NSNum v)).
Proof.
  intros Hc. unfold handleBuyOrder, handleSellOrder, addOrderToOrderBook.
  rewrite Hc. cbn [negb].
  destruct (isMarketOrder (panelOrder parseFloat "buy" p st)) eqn:Hb;
    destruct (isMarketOrder (panelOrder parseFloat "sell" p st)) eqn:Hs;
    try (apply panelOrder_market in Hb; apply not_true_iff_false in Hs;
         exfalso; apply Hs; apply panelOrder_market; exact Hb);
    try (apply panelOrder_market in Hs; apply not_true_iff_false in Hb;
         exfalso; apply Hb; apply panelOrder_market; exact Hs).
  - eexists _, _. simpl. rewrite !insert_last.
    unfold handleMarketOrderWithTPSL. simpl. rewrite !app_nil_r || idtac.
    split; [reflexivity|]. split; [reflexivity|]. simpl.
    repeat split.
    + intros v Hne Hv Hz. destruct (String.eqb_spec (stopLoss p) ""); [contradiction|].
      rewrite Hv. simpl. rewrite Hz. reflexivity.
    + intros v Hne Hv Hz. destruct (String.eqb_spec (takeProfit p) ""); [contradiction|].
      rewrite Hv. simpl. rewrite Hz. reflexivity.
  - eexists _, _. simpl.
    split; [reflexivity|]. split; [reflexivity|]. simpl.
    repeat split.
    + intros v Hne Hv Hz. destruct (String.eqb_spec (stopLoss p) ""); [contradiction|].
      rewrite Hv. simpl. rewrite Hz. reflexivity.
    + intros v Hne Hv Hz. destruct (String.eqb_spec (takeProfit p) ""); [contradiction|].
      rewrite Hv. simpl. rewrite Hz. reflexivity.
Qed.

(** X9.  Placing an order that is not a market order and then
    cancelling it by its identifier gives back the order book, provided
    no order of the book already had that identifier; trade book,
    positions and accounts are as before. *)
Theorem place_then_cancel (d d' : Draws) (orderData : OrderInputData)
    (st : BrokerState) :
  chartWrapper st = true ->
  isMarketOrder orderData = false ->
  let placed := buildOrder d orderData st in
  Forall (fun o => o_orderId o <> o_orderId placed) (currentOrderBook st) ->
  let st' := removeOrderFromOrderBook d' (o_orderId placed)
               (addOrderToOrderBook parseFloat d orderData st) in
  currentOrderBook st' = currentOrderBook st
  /\ currentTradeBook st' = currentTradeBook st
  /\ currentPositions st' = currentPositions st
  /\ currentAccountList st' = currentAccountList st.
Proof.
  intros Hc Hm placed Hfresh st'. subst st'.
  destruct (addOrderToOrderBook_resting parseFloat d orderData st Hc Hm) as (E & T & P & A).
  destruct (removeOrderFromOrderBook_frame d' (o_orderId placed)
              (addOrderToOrderBook parseFloat d orderData st)) as (T' & A' & _).
  rewrite removeOrderFromOrderBook_positions, T', A', T, P, A.
  repeat split.
  unfold removeOrderFromOrderBook. rewrite E. fold placed.
  assert (Hi : findIndex (has_orderId (o_orderId placed)) (currentOrderBook st ++ [placed])
               = Some (length (currentOrderBook st))).
  { apply findIndex_app_fresh.
    - eapply Forall_impl; [exact Hfresh|]. intros o Ho. apply String.eqb_neq. exact Ho.
    - apply String.eqb_refl. }
  rewrite Hi. rewrite lookup_app_r by lia.
  replace (length (currentOrderBook st) - length (currentOrderBook st))%nat with 0%nat by lia.
  simpl. apply splice1_last.
Qed.

(** X10.  Buying and then selling the same quantity at market from the
    panel leaves the positions as they were, when the quantity is
    positive and there was no position for the current symbol. *)
Theorem buy_then_sell_flat (d d' : Draws) (p : Panel) (st : BrokerState) :
  chartWrapper st = true ->
  orderType p = PanelMarket ->
  0 < quantity p ->
  Forall (fun pos => p_productId pos <> currentSymbol st) (currentPositions st) ->
  currentPositions
    (handleSellOrder parseFloat d' p (handleBuyOrder parseFloat d p st))
  = currentPositions st.
Proof.
  intros Hc Hm Hq Hnone. unfold handleSellOrder, handleBuyOrder.
  set (st1 := addOrderToOrderBook parseFloat d (panelOrder parseFloat "buy" p st) st).
  destruct (addOrderToOrderBook_keeps d (panelOrder parseFloat "buy" p st) st)
    as (_ & Hc' & Hs'). fold st1 in Hc', Hs'.
  rewrite (addOrderToOrderBook_positions parseFloat d' _ st1).
  rewrite Hc', Hc, (proj2 (panelOrder_market parseFloat "sell" p st1) Hm).
  cbn [andb].
  assert (Hp1 : currentPositions st1
                = netPosition d (buildOrder d (panelOrder parseFloat "buy" p st) st)
                    (default noSecurity (i_security (panelOrder parseFloat "buy" p st)))
                    (num_or (i_ltp (panelOrder parseFloat "buy" p st)) getCurrentLTP)
                    (currentPositions st)).
  { unfold st1. rewrite addOrderToOrderBook_positions.
    rewrite Hc, (proj2 (panelOrder_market parseFloat "buy" p st) Hm). reflexivity. }
  rewrite Hp1.
  assert (Hnz : Qeq_bool (quantity p) 0 = false).
  { destruct (Qeq_bool (quantity p) 0) eqn:E; [|reflexivity].
    apply Qeq_bool_eq in E. rewrite E in Hq. exfalso. revert Hq. apply Qlt_irrefl. }
  set (ps := currentPositions st).
  set (buy := buildOrder d (panelOrder parseFloat "buy" p st) st).
  set (sell := buildOrder d' (panelOrder parseFloat "sell" p st1) st1).
  assert (Hbid : o_productId buy = currentSymbol st).
  { unfold buy, buildOrder, panelOrder. cbn. destruct (currentSymbol st); reflexivity. }
  assert (Hsid : o_productId sell = currentSymbol st /\ o_symbol sell = o_symbol buy).
  { unfold sell, buy, buildOrder, panelOrder. cbn. rewrite Hs'.
    destruct (currentSymbol st); split; reflexivity. }
  assert (Hbsz : o_size buy = Fin (quantity p) /\ o_side buy = "buy").
  { unfold buy, buildOrder, panelOrder. cbn. rewrite Hnz. cbn. rewrite Hnz. split; reflexivity. }
  assert (Hssz : o_size sell = Fin (quantity p) /\ o_side sell = "sell").
  { unfold sell, buildOrder, panelOrder. cbn. rewrite Hnz. cbn. rewrite Hnz. split; reflexivity. }
  assert (Hfresh : forall o, o_productId o = currentSymbol st ->
                     Forall (fun y => same_position o y = false) ps).
  { intros o Ho. eapply Forall_impl; [exact Hnone|]. intros pos Hpos. simpl in Hpos.
    unfold same_position. apply andb_false_iff. left. apply String.eqb_neq. congruence. }
  unfold netPosition at 2.
  rewrite (proj2 (findIndex_None _ _) (Hfresh buy Hbid)).
  cbn zeta.
  set (opened := newPosition _ _ _ _ _).
  assert (Hop : same_position sell opened = true).
  { unfold same_position.
    change (p_productId opened) with (o_productId buy).
    change (p_symbol opened) with (o_symbol buy).
    destruct Hsid as [-> ->]. rewrite Hbid, !String.eqb_refl. reflexivity. }
  unfold netPosition.
  rewrite (findIndex_app_fresh _ _ _ (Hfresh sell (proj1 Hsid)) Hop).
  rewrite lookup_app_r by lia.
  replace (length ps - length ps)%nat with 0%nat by lia. cbn [lookup list_lookup].
  assert (Hsize : p_size opened = Fin (quantity p)).
  { change (p_size opened) with (orderSizeWithSign buy).
    unfold orderSizeWithSign. destruct Hbsz as [-> ->]. reflexivity. }
  assert (Hdelta : orderSizeWithSign sell = neg (Fin (quantity p))).
  { unfold orderSizeWithSign. destruct Hssz as [-> ->]. reflexivity. }
  rewrite Hdelta, Hsize.
  assert (Hdir : isSameDirection (Fin (quantity p)) (neg (Fin (quantity p))) = false).
  { destruct (isSameDirection _ _) eqn:E; [|reflexivity].
    apply isSameDirection_spec in E. unfold same_sign, lt in E. cbn [neg ltb] in E.
    rewrite !Qltb_lt in E. destruct E as [[_ E]|[E _]]; lra. }
  rewrite Hdir. cbn [p_size position_set_size].
  rewrite add_neg_self.
  assert (Hflat : ltb (abs (Fin 0)) threshold = true).
  { rewrite threshold_eq. vm_compute. reflexivity. }
  rewrite Hflat. apply splice1_last.
Qed.

End LedgerMore.

(** ** The further properties of the ledger at work *)

Section LedgerMoreExamples.
Import Js Num Broker Spec LedgerSpec Fixtures MoreFixtures.
Local Open Scope Q_scope.

(** The accounts are kept through a modification that leaves the
    resting order without a size. *)
Lemma order_accounting_witness :
  Forall accounted (currentOrderBook (session noParse unsized initialState))
  /\ o_size <$> currentOrderBook (session noParse unsized initialState)
     = [Undefined; Fin 1]
  /\ o_remainingSize <$> currentOrderBook (session noParse unsized initialState)
     = [NaN; Fin 0].
Proof.
  split; [exact (order_accounting noParse unsized)|].
  split; vm_compute; reflexivity.
Defined.

Lemma one_position_per_product_witness :
  NoDup (positionKey <$> currentPositions (session noParse unsized initialState))
  /\ length (currentPositions (session noParse unsized initialState)) = 1%nat.
Proof.
  split; [exact (one_position_per_product noParse unsized)|reflexivity].
Defined.

Lemma tradeBook_appends_witness :
  exists new,
    currentTradeBook (session noParse unsized initialState)
    = currentTradeBook initialState ++ new
    /\ Forall settled new
    /\ length new = 1%nat.
Proof.
  destruct (tradeBook_appends noParse unsized initialState eq_refl)
    as (new & Hbook & Hnew & _).
  exists new. split; [exact Hbook|]. split; [exact Hnew|].
  apply (f_equal length) in Hbook. exact (eq_sym Hbook).
Defined.

Lemma accounts_never_change_witness :
  currentAccountList (session noParse unsized initialState) = [demoAccount].
Proof.
  exact (accounts_never_change noParse unsized).
Defined.

(** Twelve orders and the row the panel starts with make thirteen rows;
    ten are kept, the newest first, and one order more pushes the
    oldest of them out. *)
Lemma orderHistory_bounded_witness :
  length (orderHistory (session noParse twelve initialState)) = 10%nat
  /\ h_quantity <$> orderHistory (session noParse twelve initialState)
     = Fin <$> [12; 11; 10; 9; 8; 7; 6; 5; 4; 3]
  /\ exists bought,
       orderHistory
         (handleBuyOrder noParse (draws 13) (marketPanel 13)
            (session noParse twelve initialState))
       = take 10 (bought :: orderHistory (session noParse twelve initialState))
       /\ h_side bought = "buy" /\ h_status bought = "Filled"
       /\ same (h_quantity bought) 13.
Proof.
  destruct (orderHistory_bounded noParse twelve) as (Hlen & _ & Hpanel & _).
  destruct (Hpanel (draws 13) (marketPanel 13) eq_refl)
    as (bought & sold & Hb & _ & Hside & _ & Hq & _ & _ & Hst).
  split; [reflexivity|]. split; [vm_compute; reflexivity|].
  exists bought. auto.
Defined.

(** A size of 0 and no quantity leave the order without a size; a
    price of 105 and a size of 2 are taken. *)
Lemma modifyOrderInOrderBook_one_witness :
  currentTradeBook (modifyOrderInOrderBook (draws 3) unsize twoOrders)
  = currentTradeBook twoOrders
  /\ currentPositions (modifyOrderInOrderBook (draws 3) unsize twoOrders)
     = currentPositions twoOrders
  /\ exists o o' o'',
       currentOrderBook twoOrders !! 0%nat = Some o
       /\ currentOrderBook (modifyOrderInOrderBook (draws 3) unsize twoOrders)
          = <[0%nat := o']> (currentOrderBook twoOrders)
       /\ o_size o = 1 /\ o_size o' = Undefined /\ o_remainingSize o' = NaN
       /\ currentOrderBook (modifyOrderInOrderBook (draws 3) reprice twoOrders)
          = <[0%nat := o'']> (currentOrderBook twoOrders)
       /\ o_price o'' = 105 /\ o_size o'' = 2 /\ same (o_remainingSize o'') 2.
Proof.
  destruct (modifyOrderInOrderBook_one (draws 3) unsize twoOrders)
    as (Ht & Hp & _ & _ & Hfound).
  destruct (modifyOrderInOrderBook_one (draws 3) reprice twoOrders)
    as (_ & _ & _ & _ & Hfound').
  split; [exact Ht|]. split; [exact Hp|].
  assert (Ho : exists o, currentOrderBook twoOrders !! 0%nat = Some o /\ o_size o = 1
                         /\ o_filledSize o = 0).
  { eexists. split; [|split]; vm_compute; reflexivity. }
  destruct Ho as (o & Ho & Hsz & Hfl).
  destruct (Hfound 0%nat o eq_refl Ho)
    as (o' & Hbook & _ & _ & _ & _ & _ & _ & _ & _ & Hun & _).
  destruct (Hun eq_refl eq_refl) as [Hu Hn].
  destruct (Hfound' 0%nat o eq_refl Ho)
    as (o'' & Hbook' & _ & _ & _ & _ & _ & Hprice & _ & Hnew & _).
  destruct (Hnew 2 eq_refl) as [Hs2 Hr2].
  exists o, o', o''.
  split; [exact Ho|]. split; [exact Hbook|]. split; [exact Hsz|].
  split; [exact Hu|]. split; [exact Hn|]. split; [exact Hbook'|].
  split; [exact Hprice|]. split; [exact Hs2|].
  rewrite Hr2, Hfl. vm_compute. reflexivity.
Defined.

Lemma market_order_companions_witness :
  exists filled limit stop,
    currentOrderBook (addOrderToOrderBook noParse (draws 1) withTargets ready)
    = [filled; limit; stop]
    /\ o_price limit = 120 /\ o_stopPrice stop = Some 90.
Proof.
  destruct (market_order_companions noParse (draws 1) withTargets ready 120 90
              eq_refl eq_refl eq_refl eq_refl)
    as (filled & limit & stop & Hbook & _ & Hl & Hs).
  exists filled, limit, stop. split; [exact Hbook|].
  split; [apply Hl|apply Hs].
Defined.

(** A market order of the panel with a stop loss of 90 and a take
    profit of 120 typed in: one order, which records both. *)
Lemma panel_order_alone_witness :
  orderType targetsPanel = PanelMarket
  /\ exists bought sold,
       currentOrderBook (handleBuyOrder parseTargets (draws 1) targetsPanel ready)
       = [bought]
       /\ currentOrderBook (handleSellOrder parseTargets (draws 1) targetsPanel ready)
          = [sold]
       /\ o_stopLoss bought = Some (NSNum 90)
       /\ o_takeProfit bought = Some (NSNum 120)
       /\ o_stopLoss sold = Some (NSNum 90)
       /\ o_takeProfit sold = Some (NSNum 120).
Proof.
  split; [reflexivity|].
  destruct (panel_order_alone parseTargets (draws 1) targetsPanel ready eq_refl)
    as (bought & sold & Hb & Hs & _ & _ & Esl & Etp & Hsl & Htp).
  exists bought, sold. split; [exact Hb|]. split; [exact Hs|].
  assert (Hsl' : o_stopLoss bought = Some (NSNum 90)).
  { apply Hsl; [discriminate|reflexivity|reflexivity]. }
  assert (Htp' : o_takeProfit bought = Some (NSNum 120)).
  { apply Htp; [discriminate|reflexivity|reflexivity]. }
  rewrite <- Esl, <- Etp. auto.
Defined.

Lemma place_then_cancel_witness :
  currentOrderBook
    (removeOrderFromOrderBook (draws 2)
       (o_orderId (buildOrder (draws 1) (placed "buy" "limit" 1 100) ready))
       (addOrderToOrderBook noParse (draws 1) (placed "buy" "limit" 1 100) ready))
  = currentOrderBook ready.
Proof.
  apply (place_then_cancel noParse (draws 1) (draws 2) (placed "buy" "limit" 1 100) ready
           eq_refl eq_refl).
  constructor.
Defined.

Lemma buy_then_sell_flat_witness :
  currentPositions
    (handleSellOrder noParse (draws 2) (marketPanel 2)
       (handleBuyOrder noParse (draws 1) (marketPanel 2) ready))
  = currentPositions ready.
Proof.
  apply (buy_then_sell_flat noParse (draws 1) (draws 2) (marketPanel 2) ready
           eq_refl eq_refl).
  - reflexivity.
  - constructor.
Defined.

End LedgerMoreExamples.

(** ** The datafeed *)

Example parseInt_prefix :
  Datafeed.parseInt "60" = Some 60%Z /\ Datafeed.parseInt "1W" = Some 1%Z
  /\ Datafeed.parseInt "D" = None /\ Datafeed.parseInt " -12px" = Some (-12)%Z.
Proof. repeat split. Qed.

Section Feed.
Import Js Datafeed FeedSpec FeedFixtures.
Local Open Scope Q_scope.

(** *** Streaming intervals *)

Lemma setMember_named key handle record :
  key <> "__proto__" -> setMember key handle record = <[key := handle]> record.
Proof.
  intros H. unfold setMember. apply String.eqb_neq in H. rewrite H. reflexivity.
Qed.

Lemma setMember_proto handle record :
  record !! "__proto__" = None -> setMember "__proto__" handle record = record.
Proof.
  intros H. unfold setMember. rewrite String.eqb_refl.
  rewrite bool_decide_eq_true_2 by exact H. reflexivity.
Qed.

Lemma setMember_cases key handle record :
  (setMember key handle record = <[key := handle]> record)
  \/ (key = "__proto__" /\ record !! key = None
      /\ setMember key handle record = record).
Proof.
  unfold setMember. destruct (String.eqb_spec key "__proto__") as [->|Hn]; [|left; reflexivity].
  destruct (decide (record !! "__proto__" = None)) as [H|H].
  - right. rewrite bool_decide_eq_true_2 by exact H. auto.
  - left. rewrite bool_decide_eq_false_2 by exact H. reflexivity.
Qed.

(** For a subscriber that is not named "__proto__": after
    [subscribeBars] and then [unsubscribeBars] the record of streaming
    intervals has no entry for the subscriber and is the record from
    before without that entry, and the interval that the subscription
    started is not running.  [unsubscribeBars] for a subscriber without
    an entry changes nothing. *)
Lemma subscribe_unsubscribe (subscriberUID : string) (st : State) :
  subscriberUID <> "__proto__" ->
  let st' := Untyped.unsubscribeBars subscriberUID
               (Untyped.subscribeBars subscriberUID st) in
  streamingIntervals st' !! subscriberUID = None
  /\ streamingIntervals st' = delete subscriberUID (streamingIntervals st)
  /\ (nextHandle st ∉ timers st')
  /\ (streamingIntervals st !! subscriberUID = None ->
      streamingIntervals st' = streamingIntervals st
      /\ Untyped.unsubscribeBars subscriberUID st = st).
Proof.
  intros Hname. cbv zeta.
  unfold Untyped.unsubscribeBars, Untyped.subscribeBars, Untyped.startDemoStreaming.
  cbn [streamingIntervals timers]. rewrite (setMember_named _ _ _ Hname).
  rewrite lookup_insert_eq.
  cbn [streamingIntervals timers]. rewrite delete_insert_eq.
  split; [apply lookup_delete_eq|]. split; [reflexivity|].
  split.
  { intros [_ Hn]%elem_of_difference. apply Hn, elem_of_singleton. reflexivity. }
  intros Hnone. rewrite Hnone. split; [apply delete_id; exact Hnone|reflexivity].
Qed.

(** C10.  The code breaks the round trip for the subscriber named
    "__proto__": [subscribeBars] starts an interval and stores nothing
    in the record, so [unsubscribeBars] finds no interval to clear and
    the interval keeps running, after [destroy] too.  For every other
    name the round trip is as the claim says. *)
Theorem subscribe_unsubscribe_proto :
  let subscribed := Untyped.subscribeBars "__proto__" created in
  let st' := Untyped.unsubscribeBars "__proto__" subscribed in
  streamingIntervals subscribed = streamingIntervals created
  /\ st' = subscribed
  /\ timers created = ∅
  /\ 1%positive ∈ timers st'
  /\ 1%positive ∈ timers (fst (Untyped.destroy st'))
  /\ (forall st,
        streamingIntervals st !! "__proto__" = None ->
        nextHandle st ∈
          timers (Untyped.unsubscribeBars "__proto__"
                    (Untyped.subscribeBars "__proto__" st)))
  /\ (forall subscriberUID st,
        subscriberUID <> "__proto__" ->
        nextHandle st ∉
          timers (Untyped.unsubscribeBars subscriberUID
                    (Untyped.subscribeBars subscriberUID st))).
Proof.
  cbv zeta.
  assert (Hgen : forall st,
             streamingIntervals st !! "__proto__" = None ->
             Untyped.unsubscribeBars "__proto__" (Untyped.subscribeBars "__proto__" st)
             = Untyped.subscribeBars "__proto__" st
             /\ streamingIntervals (Untyped.subscribeBars "__proto__" st)
                = streamingIntervals st
             /\ nextHandle st ∈ timers (Untyped.subscribeBars "__proto__" st)).
  { intros st H.
    unfold Untyped.unsubscribeBars, Untyped.subscribeBars, Untyped.startDemoStreaming.
    cbn [streamingIntervals timers]. rewrite (setMember_proto _ _ H), H.
    repeat split. apply elem_of_union. right. apply elem_of_singleton. reflexivity. }
  destruct (Hgen created eq_refl) as (Hsame & Hrecord & Hruns).
  split; [exact Hrecord|]. split; [exact Hsame|]. split; [reflexivity|].
  rewrite Hsame. split; [exact Hruns|]. split.
  - unfold Untyped.destroy. cbn [fst timers]. apply elem_of_difference.
    split; [exact Hruns|]. rewrite Hrecord. cbn [streamingIntervals created].
    rewrite map_img_empty. apply not_elem_of_empty.
  - split.
    + intros st H. destruct (Hgen st H) as (-> & _ & Hr). exact Hr.
    + intros subscriberUID st Hname.
      apply (subscribe_unsubscribe subscriberUID st Hname).
Qed.

(** *** The symbol cache *)

Lemma resolveSymbol_hit w symbolName st info :
  symbolCache st !! symbolName = Some info ->
  Untyped.resolveSymbol w symbolName st = (st, [OnResolve info]).
Proof. intros H. unfold Untyped.resolveSymbol. rewrite H. reflexivity. Qed.

Lemma resolveSymbol_stores w symbolName st info :
  In (OnResolve info) (snd (Untyped.resolveSymbol w symbolName st)) ->
  symbolCache (fst (Untyped.resolveSymbol w symbolName st)) !! symbolName = Some info.
Proof.
  unfold Untyped.resolveSymbol.
  destruct (symbolCache st !! symbolName) as [c|] eqn:Hc; simpl.
  - intros [[= <-]|[]]. exact Hc.
  - destruct (exactSearch w symbolName) as [m|]; simpl.
    + intros [[=]|[[= <-]|[]]]. apply lookup_insert_eq.
    + destruct (Untyped.resolveSymbolLocally symbolName) as [i|e]; simpl.
      * intros [[=]|[[= <-]|[]]]. apply lookup_insert_eq.
      * intros [[=]|[[=]|[]]].
Qed.

Lemma call_keeps_cache c st symbolName info :
  isDestroy c = false ->
  symbolCache st !! symbolName = Some info ->
  symbolCache (call c st) !! symbolName = Some info.
Proof.
  destruct c as [w n|w u cb|u|u|]; simpl; intros Hd Hc; try discriminate; auto.
  - unfold Untyped.resolveSymbol.
    destruct (symbolCache st !! n) as [c|] eqn:Hn; simpl; [exact Hc|].
    assert (n <> symbolName) by congruence.
    destruct (exactSearch w n) as [m|]; simpl.
    + rewrite lookup_insert_ne by assumption. exact Hc.
    + destruct (Untyped.resolveSymbolLocally n); simpl; [|exact Hc].
      rewrite lookup_insert_ne by assumption. exact Hc.
  - unfold Untyped.unsubscribeBars. destruct (streamingIntervals st !! u); exact Hc.
Qed.

Lemma calls_keep_cache l : forall st symbolName info,
  forallb (fun c => negb (isDestroy c)) l = true ->
  symbolCache st !! symbolName = Some info ->
  symbolCache (calls l st) !! symbolName = Some info.
Proof.
  induction l as [|c l IH]; simpl; intros st n info Hl Hc; [exact Hc|].
  apply andb_true_iff in Hl as [H1 H2]. apply negb_true_iff in H1.
  apply IH; [exact H2|]. apply call_keeps_cache; assumption.
Qed.

(** C9.  When [resolveSymbol] hands a symbol object to [onResolve], the
    cache holds that object under the name; after any further calls
    other than [destroy], [resolveSymbol] of the name hands the same
    object to [onResolve], does nothing else (no request is made) and
    leaves the state as it is; [destroy] empties the cache. *)
Theorem resolveSymbol_cached (w : World) (symbolName : string) (st : State)
    (info : json) :
  In (OnResolve info) (snd (Untyped.resolveSymbol w symbolName st)) ->
  let st1 := fst (Untyped.resolveSymbol w symbolName st) in
  symbolCache st1 !! symbolName = Some info
  /\ (forall (l : list Call) (w' : World),
        forallb (fun c => negb (isDestroy c)) l = true ->
        Untyped.resolveSymbol w' symbolName (calls l st1)
        = (calls l st1, [OnResolve info]))
  /\ (forall l : list Call, symbolCache (call Destroy (calls l st1)) = ∅).
Proof.
  intros Hin. cbv zeta.
  pose proof (resolveSymbol_stores _ _ _ _ Hin) as Hst.
  split; [exact Hst|]. split.
  - intros l w' Hl. apply resolveSymbol_hit. apply calls_keep_cache; assumption.
  - intros l. reflexivity.
Qed.

Lemma resolveSymbol_cached_witness :
  exists info,
    snd (Untyped.resolveSymbol offline "BYBIT:FUTURE:BTCUSDT" created)
    = [ExactSearchRequest "BYBIT:FUTURE:BTCUSDT"; OnResolve info]
    /\ snd (Untyped.resolveSymbol offline "BYBIT:FUTURE:BTCUSDT"
              (calls [SubscribeBars "chart_1"; ResolveSymbol offline "NASDAQ:AAPL"]
                 (fst (Untyped.resolveSymbol offline "BYBIT:FUTURE:BTCUSDT" created))))
       = [OnResolve info].
Proof.
  eexists. split; [reflexivity|].
  edestruct (resolveSymbol_cached offline "BYBIT:FUTURE:BTCUSDT" created) as (_ & H & _).
  { right. left. reflexivity. }
  rewrite (H [SubscribeBars "chart_1"; ResolveSymbol offline "NASDAQ:AAPL"] offline eq_refl).
  reflexivity.
Defined.

(** The second edition caches in the same way: what it hands to
    [onResolve] is truthy and cached, and the next call hits the cache. *)
Lemma typed_resolveSymbol_cached w symbolName st info :
  In (OnResolve info) (snd (Typed.resolveSymbol w symbolName st)) ->
  let st1 := fst (Typed.resolveSymbol w symbolName st) in
  symbolCache st1 !! symbolName = Some info
  /\ forall w', Typed.resolveSymbol w' symbolName st1 = (st1, [OnResolve info]).
Proof.
  intros Hin. cbv zeta.
  assert (H : symbolCache (fst (Typed.resolveSymbol w symbolName st)) !! symbolName
              = Some info /\ truthy info = true).
  { revert Hin. unfold Typed.resolveSymbol, Typed.resolveUncached.
    assert (Hl : forall i, Typed.resolveSymbolLocally symbolName = Ok i -> truthy i = true).
    { intros i. unfold Typed.resolveSymbolLocally, Typed.createMockSymbolInfo.
      repeat match goal with
             | |- context [if ?b then _ else _] => destruct b
             | |- context [match ?x with _ => _ end] => destruct x
             end; intros [= <-]; reflexivity. }
    destruct (symbolCache st !! symbolName) as [c|] eqn:Hc; simpl.
    - destruct (truthy c) eqn:Ht; simpl.
      + intros [[= <-]|[]]. auto.
      + destruct (exactSearch w symbolName) as [m|]; simpl.
        * intros [[=]|[[= <-]|[]]]. split; [apply lookup_insert_eq|reflexivity].
        * destruct (Typed.resolveSymbolLocally symbolName) as [i|e] eqn:El; simpl.
          -- intros [[=]|[[= <-]|[]]]. split; [apply lookup_insert_eq|auto].
          -- intros [[=]|[[=]|[]]].
    - destruct (exactSearch w symbolName) as [m|]; simpl.
      + intros [[=]|[[= <-]|[]]]. split; [apply lookup_insert_eq|reflexivity].
      + destruct (Typed.resolveSymbolLocally symbolName) as [i|e] eqn:El; simpl.
        * intros [[=]|[[= <-]|[]]]. split; [apply lookup_insert_eq|auto].
        * intros [[=]|[[=]|[]]]. }
  destruct H as [Hc Ht]. split; [exact Hc|].
  intros w'. unfold Typed.resolveSymbol at 1. rewrite Hc, Ht. reflexivity.
Qed.

(** *** The interval of a kline request *)

(** C6 does not hold of the code.  A string resolution gets its label
    ("5m" gives "5", "1h" gives "60", "1D" gives "D", an unknown string
    gives "D"), and [deriveIntervalLabel] gives "5" for 5 minutes; but in
    the object branch [getBybitBars] passes the units for the scale and
    the scale for the units, so every resolution object gets "D": the
    object of scale 5 and units "minutes" is requested with the interval
    "D". *)
Theorem klineInterval_object :
  Untyped.klineInterval (ResString "5m") = Ok "5"
  /\ Untyped.klineInterval (ResString "1h") = Ok "60"
  /\ Untyped.klineInterval (ResString "1D") = Ok "D"
  /\ Untyped.klineInterval (ResString "7x") = Ok "D"
  /\ Untyped.deriveIntervalLabel (VNum 5) (VStr "minutes") = "5"
  /\ Untyped.klineInterval (ResObject 5 "minutes") = Ok "D"
  /\ (forall (w : World) (p : PeriodParams),
        Untyped.getBybitBars w btcusdt (ResObject 5 "minutes") p
        = Untyped.getBybitBars w btcusdt (ResString "1D") p)
  /\ (forall (scale : Z) (units : string),
        Untyped.klineInterval (ResObject scale units) = Ok "D"
        /\ Typed.klineInterval (ResObject scale units) = Ok "D").
Proof.
  repeat split; reflexivity.
Qed.

End Feed.

Section Bars.
Import Js Datafeed FeedSpec FeedFixtures.
Local Open Scope Q_scope.

(** *** The fallback bars *)

Lemma above (m r : Q) : 0 <= r -> m <= m + r * 500.
Proof. intros H. lra. Qed.

Lemma below (m r : Q) : 0 <= r -> m - r * 500 <= m.
Proof. intros H. lra. Qed.

Lemma demoLoop_walk (random : nat -> Q) (interval endTime : Q) :
  (forall n, 0 <= random n) ->
  forall fuel k basePrice currentTime bars,
    Untyped.demoLoop fuel random k interval endTime basePrice currentTime = Some bars ->
    walk interval currentTime basePrice bars
    /\ Forall (fun bar => time bar < endTime) bars.
Proof.
  intros Hr. induction fuel as [|fuel IH]; intros k price t bars; simpl.
  - destruct (Qle_bool endTime t); [|discriminate]. intros [= <-]. simpl. auto.
  - destruct (Qle_bool endTime t) eqn:E; [intros [= <-]; simpl; auto|].
    destruct (Untyped.demoLoop fuel random (k + 4) interval endTime _ _) as [rest|] eqn:R;
      [|discriminate].
    simpl. intros [= <-]. destruct (IH _ _ _ _ R) as [Hw Hb].
    split.
    + simpl. repeat split; auto.
      * apply above, Hr.
      * apply below, Hr.
    + constructor; [|exact Hb]. simpl.
      apply Qnot_le_lt. intros Hle. apply Qle_bool_iff in Hle. congruence.
Qed.

Lemma demoLoop_returns (random : nat -> Q) (interval endTime : Q) :
  0 < interval ->
  forall (n : nat) k basePrice currentTime,
    endTime - currentTime <= inject_Z (Z.of_nat n) * interval ->
    exists bars,
      Untyped.demoLoop n random k interval endTime basePrice currentTime = Some bars.
Proof.
  intros Hi. induction n as [|n IH]; intros k price t Hn; simpl.
  - destruct (Qle_bool endTime t) eqn:E; [eauto|].
    exfalso. change (inject_Z (Z.of_nat 0)) with 0 in Hn.
    assert (endTime <= t) by lra.
    apply Qle_bool_iff in H. congruence.
  - destruct (Qle_bool endTime t) eqn:E; [eauto|].
    destruct (IH (k + 4)%nat (price + (random k - (1 # 2)) * 1000) (t + interval))
      as [rest Hrest].
    + rewrite Nat2Z.inj_succ in Hn. unfold Z.succ in Hn.
      rewrite inject_Z_plus, Qmult_plus_distr_l in Hn.
      change (inject_Z 1) with 1 in Hn.
      set (a := inject_Z (Z.of_nat n) * interval) in *. lra.
    + rewrite Hrest. simpl. eauto.
Qed.

Lemma demoLoop_never (random : nat -> Q) (interval endTime : Q) :
  interval <= 0 ->
  forall fuel k basePrice currentTime,
    currentTime < endTime ->
    Untyped.demoLoop fuel random k interval endTime basePrice currentTime = None.
Proof.
  intros Hi. induction fuel as [|fuel IH]; intros k price t Ht; simpl.
  - destruct (Qle_bool endTime t) eqn:E; [|reflexivity].
    apply Qle_bool_iff in E. lra.
  - destruct (Qle_bool endTime t) eqn:E; [apply Qle_bool_iff in E; lra|].
    rewrite IH by lra. reflexivity.
Qed.

(** Enough iterations for a range. *)
Lemma enough_fuel (x interval : Q) :
  0 < interval ->
  exists n : nat, x <= inject_Z (Z.of_nat n) * interval.
Proof.
  intros Hi. exists (Z.to_nat (Z.max 0 (Qceiling (x / interval)))).
  rewrite Z2Nat.id by lia.
  assert (H1 : x / interval <= inject_Z (Z.max 0 (Qceiling (x / interval)))).
  { eapply Qle_trans; [apply Qle_ceiling|]. rewrite <- Zle_Qle. lia. }
  apply (Qmult_le_compat_r _ _ interval) in H1; [|lra].
  eapply Qle_trans; [|exact H1].
  apply Qle_lteq. right. field. lra.
Qed.

(** What is right in C4: with a positive step and draws that are not
    negative, [generateDemoData] returns, and its bars start at the
    [from] time in seconds and at 50000, each a step after and opening
    at the close of the one before, with the high and the low outside
    the open and the close, and every time before the end. *)
Lemma generateDemoData_walk (random : nat -> Q) (from to : Z) (resolution : Resolution) :
  (forall n, 0 <= random n) ->
  0 < Untyped.demoInterval resolution ->
  exists fuel bars,
    (forall fuel', (fuel <= fuel')%nat ->
       Untyped.generateDemoData fuel' random from to resolution = Some bars)
    /\ walk (Untyped.demoInterval resolution) (inject_Z from / 1000) 50000 bars
    /\ Forall (fun bar => time bar < inject_Z to / 1000) bars.
Proof.
  intros Hr Hi. unfold Untyped.generateDemoData.
  destruct (enough_fuel (inject_Z to / 1000 - inject_Z from / 1000) _ Hi) as [n Hn].
  destruct (demoLoop_returns random _ (inject_Z to / 1000) Hi n 0%nat 50000
              (inject_Z from / 1000) Hn) as [bars Hbars].
  exists n, bars. split; [|exact (demoLoop_walk random _ _ Hr _ _ _ _ _ Hbars)].
  intros fuel' Hle.
  assert (Hmono : forall a b k price t bs,
             Untyped.demoLoop a random k (Untyped.demoInterval resolution)
               (inject_Z to / 1000) price t = Some bs ->
             Untyped.demoLoop (a + b) random k (Untyped.demoInterval resolution)
               (inject_Z to / 1000) price t = Some bs).
  { induction a as [|a IH]; intros b k price t bs; simpl.
    - destruct (Qle_bool _ t) eqn:E; [|discriminate].
      intros [= <-]. destruct b; simpl; rewrite E; reflexivity.
    - destruct (Qle_bool _ t) eqn:E; [auto|].
      destruct (Untyped.demoLoop a random (k + 4) _ _ _ _) as [rest|] eqn:R; [|discriminate].
      rewrite (IH b _ _ _ _ R). auto. }
  replace fuel' with (n + (fuel' - n))%nat by lia. apply Hmono. exact Hbars.
Qed.

(** C4 does not hold of the code.  [parseInt] reads the leading digits
    of "1D", so the step for the daily resolution is 60 seconds, not
    86400: from 0 to 180 seconds there are three bars, at 0, 60 and 120,
    where a step of a day leaves one.  For the resolution "0" the step
    is 0 and the loop has no end. *)
Theorem generateDemoData_daily :
  parseInt "1D" = Some 1%Z
  /\ Untyped.demoInterval (ResString "1D") == 60
  /\ Untyped.demoInterval ResOther == 86400
  /\ (map (fun bar => Qred (time bar)) <$>
        Untyped.generateDemoData 10 (fun _ => 1 # 2) 0 180000 (ResString "1D"))
     = Some [0; 60; 120]
  /\ (forall (fuel : nat) (random : nat -> Q),
        Untyped.generateDemoData fuel random 0 1000 (ResString "0") = None).
Proof.
  split; [reflexivity|]. split; [reflexivity|]. split; [reflexivity|].
  split; [vm_compute; reflexivity|].
  intros fuel random. unfold Untyped.generateDemoData.
  apply demoLoop_never; [discriminate|reflexivity].
Qed.

(** *** [getBars] *)

Lemma pushBar_parallel acc bar : lengths_agree acc -> lengths_agree (pushBar acc bar).
Proof.
  destruct acc as [[[[[t o] h] l] c] v]. unfold pushBar, lengths_agree, parallel.
  intros (Ho & Hh & Hl & Hc & Hv).
  destruct (negb (Qeq_bool (time bar) 0)); [|destruct (date bar)];
    rewrite ?length_app; simpl; repeat split; lia.
Qed.

Lemma convertToUDFFormat_parallel (rawBars : list RawBar) :
  parallel (Untyped.convertToUDFFormat rawBars).
Proof.
  unfold Untyped.convertToUDFFormat. destruct rawBars as [|b bs]; [exact I|].
  assert (H : forall l acc, lengths_agree acc -> lengths_agree (foldl pushBar acc l)).
  { induction l as [|x l IH]; simpl; intros acc Ha; [exact Ha|].
    apply IH, pushBar_parallel, Ha. }
  specialize (H (b :: bs) ([], [], [], [], [], [])).
  destruct (foldl pushBar _ (b :: bs)) as [[[[[t o] h] l] c] v].
  apply H. simpl. auto.
Qed.

(** What is right in C2: [getBars] never rejects; it resolves to the
    Bybit bars when the exchange is BYBIT and the request succeeds, and
    to the fallback bars in every other case in which the fallback loop
    returns; what it resolves to is no-data for no bars and otherwise
    six arrays of one length. *)
Lemma convertToUDFFormat_no_data (rawBars : list RawBar) :
  Untyped.convertToUDFFormat rawBars = UdfNoData <-> rawBars = [].
Proof.
  unfold Untyped.convertToUDFFormat. destruct rawBars as [|b bs].
  - split; reflexivity.
  - destruct (foldl pushBar _ (b :: bs)) as [[[[[t o] h] l] c] v].
    split; discriminate.
Qed.

Lemma getBars_present (fuel : nat) (w : World) (symbolInfo : json)
    (resolution : Resolution) (p : PeriodParams) :
  symbolInfo <> JNull -> symbolInfo <> JUndef ->
  Untyped.getBars fuel w symbolInfo resolution p =
  let demo :=
    option_map (fun rawBars => Ok (Untyped.convertToUDFFormat rawBars))
      (Untyped.generateDemoData fuel (random w) (from p) (to p) resolution) in
  if bool_decide (str_member "exchange" symbolInfo = Some "BYBIT") then
    match Untyped.getBybitBars w symbolInfo resolution p with
    | Ok rawBars => Some (Ok (Untyped.convertToUDFFormat rawBars))
    | Throw _ => demo
    end
  else demo.
Proof.
  intros Hn Hu. unfold Untyped.getBars. destruct symbolInfo; try reflexivity; congruence.
Qed.

(** [getBars] rejects when it is given no symbol object. *)
Lemma getBars_rejects (fuel : nat) (w : World) (resolution : Resolution)
    (p : PeriodParams) :
  Untyped.getBars fuel w JNull resolution p = Some (Throw "TypeError")
  /\ Untyped.getBars fuel w JUndef resolution p = Some (Throw "TypeError").
Proof. split; reflexivity. Qed.

(** Given a symbol object, [getBars] never rejects. *)
Lemma getBars_settles (fuel : nat) (w : World) (symbolInfo : json)
    (resolution : Resolution) (p : PeriodParams) :
  symbolInfo <> JNull -> symbolInfo <> JUndef ->
  let fallback :=
    (fun rawBars => Ok (Untyped.convertToUDFFormat rawBars)) <$>
      Untyped.generateDemoData fuel (random w) (from p) (to p) resolution in
  (forall message, Untyped.getBars fuel w symbolInfo resolution p <> Some (Throw message))
  /\ (forall u, Untyped.getBars fuel w symbolInfo resolution p = Some (Ok u) -> parallel u)
  /\ (str_member "exchange" symbolInfo <> Some "BYBIT" ->
      Untyped.getBars fuel w symbolInfo resolution p = fallback)
  /\ (forall message,
        Untyped.getBybitBars w symbolInfo resolution p = Throw message ->
        Untyped.getBars fuel w symbolInfo resolution p = fallback)
  /\ (forall rawBars,
        str_member "exchange" symbolInfo = Some "BYBIT" ->
        Untyped.getBybitBars w symbolInfo resolution p = Ok rawBars ->
        Untyped.getBars fuel w symbolInfo resolution p
        = Some (Ok (Untyped.convertToUDFFormat rawBars))).
Proof.
  intros Hn Hu. cbv zeta. rewrite (getBars_present _ _ _ _ _ Hn Hu). cbv zeta.
  repeat split.
  - intros message.
    case_bool_decide; [destruct (Untyped.getBybitBars _ _ _ _); [discriminate|]|];
      destruct (Untyped.generateDemoData _ _ _ _ _); discriminate.
  - intros u. case_bool_decide; [destruct (Untyped.getBybitBars _ _ _ _)|];
      try destruct (Untyped.generateDemoData _ _ _ _ _); simpl;
      intros [= <-]; apply convertToUDFFormat_parallel.
  - intros Hne. case_bool_decide; [contradiction|reflexivity].
  - intros message Hm. rewrite Hm. case_bool_decide; reflexivity.
  - intros rawBars He Hb. rewrite Hb. case_bool_decide; [reflexivity|contradiction].
Qed.

(** C2 does not hold of the code: for the resolution "0" the fallback
    loop has a step of 0 and no end, so [getBars] returns nothing, for a
    symbol of another exchange as well as for a BYBIT symbol whose
    request fails. *)
Theorem getBars_hangs (fuel : nat) :
  (forall w : World,
      Untyped.getBars fuel w
        (JObj [("exchange", JStr "NASDAQ"); ("symbol", JStr "AAPL")])
        (ResString "0") (mkPeriod 0 1000 false None) = None)
  /\ Untyped.getBybitBars offline btcusdt (ResString "0") (mkPeriod 0 1000 false None)
     = Throw "fetch"
  /\ Untyped.getBars fuel offline btcusdt (ResString "0") (mkPeriod 0 1000 false None)
     = None.
Proof.
  assert (H : forall w, Untyped.generateDemoData fuel (random w) 0 1000 (ResString "0") = None).
  { intros w. unfold Untyped.generateDemoData.
    apply demoLoop_never; [discriminate|reflexivity]. }
  split; [|split].
  - intros w. unfold Untyped.getBars. cbn [from to]. rewrite H. reflexivity.
  - reflexivity.
  - unfold Untyped.getBars. cbn [from to]. rewrite H. reflexivity.
Qed.

End Bars.

Section Editions.
Import Js Datafeed FeedSpec FeedFixtures.
Local Open Scope Q_scope.

(** *** The two editions *)

(** A symbol object that has a non-empty [symbol] or [ticker]. *)
Lemma named_symbol (symbolInfo : json) (s : string) :
  s <> "" ->
  or_str (str_member "symbol" symbolInfo) (str_member "ticker" symbolInfo) = Some s ->
  forall name : option string,
    default "undefined"
      (or_str (or_str (str_member "symbol" symbolInfo) (str_member "ticker" symbolInfo)) name)
    = str_or (or_str (str_member "symbol" symbolInfo) (str_member "ticker" symbolInfo)) "".
Proof.
  intros Hs -> name. destruct s as [|a s]; [contradiction|]. reflexivity.
Qed.

(** C7, as the code has it.  The two editions agree, in result and in
    state, on [destroy], [convertToUDFFormat],
    [convertIntervalToResolution], [deriveIntervalLabel],
    [generateDemoData], [subscribeBars] and [unsubscribeBars], and on
    [getBybitBars] and [getBars] for a symbol object with a non-empty
    [symbol] or [ticker]. *)
Theorem editions_agree :
  (forall st, Untyped.destroy st = Typed.destroy st)
  /\ (forall rawBars, Untyped.convertToUDFFormat rawBars = Typed.convertToUDFFormat rawBars)
  /\ (forall s, Untyped.convertIntervalToResolution s = Typed.convertIntervalToResolution s)
  /\ (forall scale units,
        Untyped.deriveIntervalLabel scale units = Typed.deriveIntervalLabel scale units)
  /\ (forall fuel random from to resolution,
        Untyped.generateDemoData fuel random from to resolution
        = Typed.generateDemoData fuel random from to resolution)
  /\ (forall uid st,
        Untyped.subscribeBars uid st = Typed.subscribeBars uid st
        /\ Untyped.unsubscribeBars uid st = Typed.unsubscribeBars uid st)
  /\ (forall w symbolInfo resolution p s,
        s <> "" ->
        or_str (str_member "symbol" symbolInfo) (str_member "ticker" symbolInfo) = Some s ->
        Untyped.getBybitBars w symbolInfo resolution p
        = Typed.getBybitBars w symbolInfo resolution p
        /\ forall fuel,
            Untyped.getBars fuel w symbolInfo resolution p
            = Typed.getBars fuel w symbolInfo resolution p).
Proof.
  repeat split; try reflexivity.
  - unfold Untyped.getBybitBars, Typed.getBybitBars.
    rewrite (named_symbol symbolInfo s H H0). reflexivity.
  - intros fuel. unfold Untyped.getBars, Typed.getBars.
    assert (E : Untyped.getBybitBars w symbolInfo resolution p
                = Typed.getBybitBars w symbolInfo resolution p).
    { unfold Untyped.getBybitBars, Typed.getBybitBars.
      rewrite (named_symbol symbolInfo s H H0). reflexivity. }
    rewrite E. reflexivity.
Qed.

Lemma editions_agree_witness :
  or_str (str_member "symbol" btcusdt) (str_member "ticker" btcusdt) = Some "BTCUSDT"
  /\ Untyped.getBars 5 offline btcusdt (ResString "1D") (mkPeriod 0 60000 false None)
     = Typed.getBars 5 offline btcusdt (ResString "1D") (mkPeriod 0 60000 false None).
Proof.
  split; [reflexivity|].
  destruct editions_agree as (_ & _ & _ & _ & _ & _ & H).
  destruct (H offline btcusdt (ResString "1D") (mkPeriod 0 60000 false None) "BTCUSDT")
    as [_ Hbars]; [discriminate|reflexivity|].
  exact (Hbars 5%nat).
Defined.

(** C7 fails as stated, in three ways.  With the exact-search endpoint
    down, [resolveSymbol] of "NASDAQ:AAPL" hands [onResolve] an object
    whose tick size is 1 in the first edition and 0.01 in the second.
    With the search endpoint down, [searchSymbols] hands its callback the
    array of matches in the first edition and an object holding it in
    the second.  For a symbol object that has a [name] and neither
    [symbol] nor [ticker], [getBybitBars] asks for that name in the first
    edition and for the empty symbol in the second, so that [getBars]
    resolves to the bars of Bybit in the one and to fallback bars in the
    other. *)
Lemma editions_agree_counterexample :
  (exists i1 i2,
      snd (Untyped.resolveSymbol offline "NASDAQ:AAPL" created)
      = [ExactSearchRequest "NASDAQ:AAPL"; OnResolve i1]
      /\ snd (Typed.resolveSymbol offline "NASDAQ:AAPL" created)
         = [ExactSearchRequest "NASDAQ:AAPL"; OnResolve i2]
      /\ member "tick_size" i1 = JNum 1
      /\ member "tick_size" i2 = JNum (1 # 100))
  /\ (exists matches,
         snd (Untyped.searchSymbols offline "aapl" true created)
         = [SearchRequest "aapl"; SearchCallback (SymbolArray matches)]
         /\ snd (Typed.searchSymbols offline "aapl" true created)
            = [SearchRequest "aapl"; SearchCallback (SearchResult false matches)])
  /\ (exists bars,
         Untyped.getBars 0 onlyBtcusdt nameOnly (ResString "1D")
           (mkPeriod 0 0 false None) = Some (Ok (UdfOk [1] bars bars bars bars bars))
         /\ Typed.getBars 0 onlyBtcusdt nameOnly (ResString "1D")
              (mkPeriod 0 0 false None) = Some (Ok UdfNoData)).
Proof.
  split; [|split].
  - eexists _, _. split; [vm_compute; reflexivity|]. split; [vm_compute; reflexivity|].
    split; reflexivity.
  - eexists. split; vm_compute; reflexivity.
  - eexists. split; vm_compute; reflexivity.
Qed.

End Editions.

(** ** Further properties of the datafeed *)

Section FeedMoreFacts.
Import Js Datafeed FeedSpec FeedMore FeedFixtures.
Local Open Scope Q_scope.

(** *** The arrays of [convertToUDFFormat] *)

Lemma pushBar_stamp acc bar :
  pushBar acc bar =
  match stamp bar with
  | Some ts =>
      let '(t, o, h, l, c, v) := acc in
      (t ++ [ts], o ++ [open bar], h ++ [high bar], l ++ [low bar],
       c ++ [close bar], v ++ [num_or (Some (volume bar)) 0])
  | None => acc
  end.
Proof.
  destruct acc as [[[[[t o] h] l] c] v]. unfold pushBar, stamp.
  destruct (Qeq_bool (time bar) 0); simpl; [|reflexivity].
  destruct (date bar); reflexivity.
Qed.

Lemma foldl_pushBar rawBars : forall t o h l c v,
  foldl pushBar (t, o, h, l, c, v) rawBars =
  (t ++ (fst <$> stamped rawBars),
   o ++ ((fun sb => open sb.2) <$> stamped rawBars),
   h ++ ((fun sb => high sb.2) <$> stamped rawBars),
   l ++ ((fun sb => low sb.2) <$> stamped rawBars),
   c ++ ((fun sb => close sb.2) <$> stamped rawBars),
   v ++ ((fun sb => num_or (Some (volume sb.2)) 0) <$> stamped rawBars)).
Proof.
  induction rawBars as [|bar rest IH]; intros t o h l c v.
  - simpl. rewrite !app_nil_r. reflexivity.
  - cbn [foldl]. rewrite pushBar_stamp. unfold stamped. cbn [omap list_omap].
    fold (stamped rest). destruct (stamp bar) as [ts|]; cbn [fmap option_fmap option_map].
    + rewrite IH. cbn. rewrite <- !app_assoc. reflexivity.
    + apply IH.
Qed.

(** X11.  For a list of bars that is not empty, [convertToUDFFormat]
    answers ok with the six columns of the bars it keeps, in their
    order: a bar is kept with its [time] when that is not 0, with the
    second of its [date] when its time is 0, and is dropped when its time
    is 0 and it has no date.  When every bar has a time other than 0 the
    arrays are the columns of all the bars. *)
Theorem convertToUDFFormat_columns (rawBars : list RawBar) :
  rawBars <> [] ->
  Untyped.convertToUDFFormat rawBars =
    UdfOk (fst <$> stamped rawBars)
      ((fun sb => open sb.2) <$> stamped rawBars)
      ((fun sb => high sb.2) <$> stamped rawBars)
      ((fun sb => low sb.2) <$> stamped rawBars)
      ((fun sb => close sb.2) <$> stamped rawBars)
      ((fun sb => num_or (Some (volume sb.2)) 0) <$> stamped rawBars)
  /\ (Forall (fun bar => ~ time bar == 0) rawBars ->
      stamped rawBars = (fun bar => (time bar, bar)) <$> rawBars).
Proof.
  intros Hne. split.
  - unfold Untyped.convertToUDFFormat. destruct rawBars as [|b bs]; [contradiction|].
    rewrite foldl_pushBar. reflexivity.
  - clear Hne. induction 1 as [|bar rest Hbar Hrest IH]; [reflexivity|].
    unfold stamped. cbn [omap list_omap]. fold (stamped rest). rewrite IH.
    unfold stamp. destruct (Qeq_bool (time bar) 0) eqn:E.
    + apply Qeq_bool_eq in E. contradiction.
    + reflexivity.
Qed.

(** *** The order of the Bybit bars *)

Lemma StronglySorted_snoc {A} (R : A -> A -> Prop) (l : list A) (x : A) :
  StronglySorted R l -> Forall (fun y => R y x) l -> StronglySorted R (l ++ [x]).
Proof.
  induction 1 as [|a l Hl IH Ha]; intros Hx; simpl.
  - repeat constructor.
  - inversion Hx; subst. constructor; [apply IH; assumption|].
    apply Forall_app. split; [exact Ha|]. repeat constructor. assumption.
Qed.

Lemma StronglySorted_rev_flip {A} (R : A -> A -> Prop) (l : list A) :
  StronglySorted R l -> StronglySorted (fun a b => R b a) (rev l).
Proof.
  induction 1 as [|a l Hl IH Ha]; simpl; [constructor|].
  apply StronglySorted_snoc; [exact IH|].
  apply Forall_rev. exact Ha.
Qed.

Lemma fmap_rev {A B} (f : A -> B) (l : list A) : f <$> rev l = rev (f <$> l).
Proof.
  induction l as [|a l IH]; [reflexivity|].
  simpl. rewrite fmap_app, IH. reflexivity.
Qed.

Lemma barOfRow_time_mono (a b : KlineRow) :
  (r_timestamp a <= r_timestamp b)%Z -> time (Untyped.barOfRow a) <= time (Untyped.barOfRow b).
Proof.
  intros H. unfold Untyped.barOfRow. simpl. rewrite <- Zle_Qle.
  apply Z.div_le_mono; lia.
Qed.

(** X12.  When Bybit lists its rows newest first, [getBybitBars] returns
    as many bars, oldest first: each bar's time, the whole second of the
    row's millisecond timestamp, is at most that of every later bar. *)
Theorem getBybitBars_oldest_first (w : World) (symbolInfo : json)
    (resolution : Resolution) (p : PeriodParams) (rawBars : list RawBar) :
  (forall request rows,
      kline w request = KlineList rows ->
      StronglySorted (fun a b => (r_timestamp b <= r_timestamp a)%Z) rows) ->
  Untyped.getBybitBars w symbolInfo resolution p = Ok rawBars ->
  StronglySorted (fun a b => time a <= time b) rawBars
  /\ exists request rows,
       kline w request = KlineList rows
       /\ length rawBars = length rows
       /\ time <$> rawBars = rev ((fun row => inject_Z (r_timestamp row / 1000)) <$> rows).
Proof.
  intros Hw. unfold Untyped.getBybitBars.
  destruct (Untyped.klineInterval resolution) as [interval|]; [|discriminate].
  match goal with |- context [kline w ?r] => set (request := r) end.
  destruct (kline w request) as [| |rows] eqn:E; try discriminate.
  intros [= <-]. split.
  - apply (StronglySorted_rev_flip (fun a b => time b <= time a)).
    specialize (Hw _ _ E). clear E.
    induction Hw as [|a l Hl IH Ha]; [constructor|].
    rewrite fmap_cons. constructor; [exact IH|].
    apply Forall_fmap. eapply Forall_impl; [exact Ha|].
    intros b Hb. apply barOfRow_time_mono. exact Hb.
  - exists request, rows. split; [exact E|]. split.
    + rewrite length_rev, length_fmap. reflexivity.
    + rewrite <- !fmap_rev, <- list_fmap_compose. reflexivity.
Qed.

(** *** The interval table and [deriveIntervalLabel] *)

(** X13.  The label that the interval table stores for an interval
    string is the one that [deriveIntervalLabel] derives from the scale
    and the units stored with it. *)
Theorem intervalMap_labels (intervalString : string) (r : ResolutionInfo) :
  intervalMap intervalString = Some r ->
  Untyped.deriveIntervalLabel (VNum (ri_scale r)) (VStr (ri_units r)) = ri_label r
  /\ Untyped.convertIntervalToResolution intervalString = r.
Proof.
  intros H. split.
  - revert H. unfold intervalMap.
    repeat match goal with
           | |- context [if ?b then _ else _] => destruct b
           end; intros [= <-]; reflexivity.
  - unfold Untyped.convertIntervalToResolution. rewrite H. reflexivity.
Qed.


(** *** Names that do not resolve *)

Lemma split_on_nonempty sep s : split_on sep s <> [].
Proof.
  destruct s as [|c r]; simpl; [discriminate|].
  destruct (Ascii.eqb c sep); [discriminate|].
  destruct (split_on sep r); discriminate.
Qed.

Lemma split_on_single sep s w : split_on sep s = [w] -> w = s.
Proof.
  revert w. induction s as [|c r IH]; intros w; simpl.
  - intros [= <-]. reflexivity.
  - destruct (Ascii.eqb c sep).
    + intros [= <- H]. exfalso. exact (split_on_nonempty _ _ H).
    + destruct (split_on sep r) as [|x xs] eqn:E.
      * exfalso. exact (split_on_nonempty _ _ E).
      * intros [= <- ->]. rewrite (IH x eq_refl). reflexivity.
Qed.

Lemma isCrypto_names exchange :
  isCrypto exchange = true <-> exchange = "BYBIT" \/ exchange = "BINANCE".
Proof. unfold isCrypto. rewrite orb_true_iff, !String.eqb_eq. reflexivity. Qed.

Lemma symbolParts_ticker symbolName exchange instrumentType :
  symbolParts symbolName = (exchange, None, instrumentType) -> exchange = symbolName.
Proof.
  unfold symbolParts.
  destruct (split_on ":" symbolName) as [|e [|t [|i [|x xs]]]] eqn:E;
    intros [= <-]; try discriminate.
  - exfalso. exact (split_on_nonempty _ _ E).
  - exact (split_on_single _ _ _ E).
Qed.

Lemma local_throws symbolName :
  (exists message, Untyped.resolveSymbolLocally symbolName = Throw message)
  <-> unresolvable symbolName.
Proof.
  split.
  - intros [message H]. revert H. unfold Untyped.resolveSymbolLocally.
    destruct (String.eqb_spec symbolName "INVALID:SYMBOL") as [->|Hn]; [left; reflexivity|].
    destruct (String.eqb_spec symbolName "NASDAQ:AAPL") as [->|Ha]; [discriminate|].
    destruct (String.eqb_spec symbolName "NASDAQ:TSLA") as [->|Ht]; [discriminate|].
    cbn [orb].
    destruct (symbolParts symbolName) as [[exchange ticker] instrumentType] eqn:P.
    destruct (getExchangeInfo exchange) as [[timezone session] cc].
    unfold getPriceScale, getCurrencyCode.
    destruct (isCrypto exchange) eqn:C; [|discriminate].
    destruct ticker as [t|].
    + repeat match goal with
             | |- context [if ?b then _ else _] => destruct b
             end; discriminate.
    + intros _. right. apply symbolParts_ticker in P. subst exchange.
      apply isCrypto_names. exact C.
  - intros [->|[->| ->]]; eexists; reflexivity.
Qed.

(** X14.  [resolveSymbol] reports an error exactly when the name is not
    cached, the exact-search endpoint fails and the name is
    "INVALID:SYMBOL", "BYBIT" or "BINANCE" (the names on which the local
    resolution throws); it then makes one request, calls [onError] once
    with "Failed to resolve symbol", and caches nothing.  In every other
    case it calls [onResolve] once and never [onError]. *)
Theorem resolveSymbol_errors (w : World) (symbolName : string) (st : State) :
  let st' := fst (Untyped.resolveSymbol w symbolName st) in
  let done := snd (Untyped.resolveSymbol w symbolName st) in
  ((exists message, Untyped.resolveSymbolLocally symbolName = Throw message)
   <-> unresolvable symbolName)
  /\ ((exists message, In (OnError message) done)
      <-> symbolCache st !! symbolName = None
          /\ exactSearch w symbolName = None
          /\ unresolvable symbolName)
  /\ ((exists message, In (OnError message) done) ->
      st' = st
      /\ done = [ExactSearchRequest symbolName; OnError "Failed to resolve symbol"])
  /\ ((forall message, ~ In (OnError message) done) ->
      exists info, symbolCache st' !! symbolName = Some info
                   /\ (done = [OnResolve info]
                       \/ done = [ExactSearchRequest symbolName; OnResolve info])).
Proof.
  cbv zeta. split; [apply local_throws|].
  unfold Untyped.resolveSymbol.
  destruct (symbolCache st !! symbolName) as [c|] eqn:Hc.
  { simpl. split; [|split].
    - split; [intros [m [[=]|[]]]|intros [[=] _]].
    - intros [m [[=]|[]]].
    - intros _. exists c. split; [exact Hc|]. left. reflexivity. }
  destruct (exactSearch w symbolName) as [members|] eqn:Hx.
  { simpl. split; [|split].
    - split; [intros [m [[=]|[[=]|[]]]]|intros (_ & [=] & _)].
    - intros [m [[=]|[[=]|[]]]].
    - intros _. eexists. split; [apply lookup_insert_eq|]. right. reflexivity. }
  destruct (Untyped.resolveSymbolLocally symbolName) as [info|message] eqn:Hl.
  { simpl. split; [|split].
    - split; [intros [m [[=]|[[=]|[]]]]|].
      intros (_ & _ & Hu). apply local_throws in Hu as [m Hm]. congruence.
    - intros [m [[=]|[[=]|[]]]].
    - intros _. eexists. split; [apply lookup_insert_eq|]. right. reflexivity. }
  simpl. split; [|split].
  - split; [intros _|intros _; eexists; right; left; reflexivity].
    repeat split. apply local_throws. eauto.
  - intros _. split; reflexivity.
  - intros H. exfalso. apply (H "Failed to resolve symbol"). right. left. reflexivity.
Qed.

(** *** Intervals that leak *)

Lemma startDemoStreaming_kept key st stray :
  kept st stray ->
  kept (Untyped.startDemoStreaming key st) (stray ∪ strayOf (SubscribeBars key) st).
Proof.
  intros (Hrun & Hstray & Hheld & Hinj).
  assert (Hnext : nextHandle st ∉ stray).
  { intros H. apply Hstray in H. lia. }
  assert (Hfresh : forall u, streamingIntervals st !! u <> Some (nextHandle st)).
  { intros u Hu. apply Hheld in Hu as [Hu _]. lia. }
  assert (Hold : forall h, h ∈ (match streamingIntervals st !! key with
                               | Some handle => timers st ∖ {[handle]}
                               | None => timers st
                               end)
                           <-> h ∈ timers st /\ streamingIntervals st !! key <> Some h).
  { intros h. destruct (streamingIntervals st !! key) as [h0|] eqn:E.
    - rewrite elem_of_difference, elem_of_singleton. split.
      + intros [H1 H2]. split; [exact H1|]. intros [= ->]. apply H2. reflexivity.
      + intros [H1 H2]. split; [exact H1|]. intros ->. apply H2. reflexivity.
    - split; [intros H; split; [exact H|discriminate]|intros [H _]; exact H]. }
  unfold Untyped.startDemoStreaming, kept, strayOf.
  cbn [timers streamingIntervals nextHandle].
  destruct (setMember_cases key (nextHandle st) (streamingIntervals st))
    as [E|(-> & Hnone & E)]; rewrite E.
  - assert (Es : (if String.eqb key "__proto__"
                     && bool_decide (streamingIntervals st !! key = None)
                  then {[nextHandle st]} else ∅) = (∅ : gset positive)).
    { revert E. unfold setMember.
      destruct (String.eqb key "__proto__"
                && bool_decide (streamingIntervals st !! key = None)) eqn:B;
        [|reflexivity].
      intros E. exfalso. apply (Hfresh key). rewrite E. apply lookup_insert_eq. }
    rewrite Es. clear Es. split; [|split; [|split]].
    + intros h. rewrite elem_of_union, elem_of_singleton, Hold. split.
      * intros [[Hin Hne]| ->].
        -- apply Hrun in Hin as [[u Hu]|Hs].
           ++ left. exists u. rewrite lookup_insert_ne; [exact Hu|].
              intros <-. contradiction.
           ++ right. apply elem_of_union. left. exact Hs.
        -- left. exists key. apply lookup_insert_eq.
      * intros [[u Hu]|Hs].
        -- destruct (decide (key = u)) as [<-|Hne].
           ++ rewrite lookup_insert_eq in Hu. injection Hu as <-. right. reflexivity.
           ++ rewrite lookup_insert_ne in Hu by exact Hne. left. split.
              ** apply Hrun. left. eauto.
              ** intros Hk. apply Hne. exact (Hinj _ _ _ Hk Hu).
        -- apply elem_of_union in Hs as [Hs|[]%not_elem_of_empty]. left. split.
           ++ apply Hrun. right. exact Hs.
           ++ intros Hk. apply Hheld in Hk as [_ Hk]. contradiction.
    + intros h [Hs|[]%not_elem_of_empty]%elem_of_union. apply Hstray in Hs. lia.
    + intros u h Hu. destruct (decide (key = u)) as [<-|Hne].
      * rewrite lookup_insert_eq in Hu. injection Hu as <-. split; [lia|].
        intros [Hs|[]%not_elem_of_empty]%elem_of_union. contradiction.
      * rewrite lookup_insert_ne in Hu by exact Hne.
        apply Hheld in Hu as [Hb Hs]. split; [lia|].
        intros [Hs'|[]%not_elem_of_empty]%elem_of_union. contradiction.
    + intros u1 u2 h H1 H2.
      destruct (decide (key = u1)) as [<-|N1]; destruct (decide (key = u2)) as [<-|N2];
        try reflexivity.
      * rewrite lookup_insert_eq in H1. injection H1 as <-.
        rewrite lookup_insert_ne in H2 by exact N2. exfalso. exact (Hfresh _ H2).
      * rewrite lookup_insert_eq in H2. injection H2 as <-.
        rewrite lookup_insert_ne in H1 by exact N1. exfalso. exact (Hfresh _ H1).
      * rewrite lookup_insert_ne in H1 by exact N1.
        rewrite lookup_insert_ne in H2 by exact N2. exact (Hinj _ _ _ H1 H2).
  - rewrite String.eqb_refl, (bool_decide_eq_true_2 _ Hnone). cbn [andb].
    split; [|split; [|split]].
    + intros h. rewrite elem_of_union, elem_of_singleton, Hold, Hnone. split.
      * intros [[Hin _]| ->].
        -- apply Hrun in Hin as [Hu|Hs]; [left; exact Hu|].
           right. apply elem_of_union. left. exact Hs.
        -- right. apply elem_of_union. right. apply elem_of_singleton. reflexivity.
      * intros [Hu|Hs].
        -- left. split; [apply Hrun; left; exact Hu|discriminate].
        -- apply elem_of_union in Hs as [Hs| ->%elem_of_singleton].
           ++ left. split; [apply Hrun; right; exact Hs|discriminate].
           ++ right. reflexivity.
    + intros h [Hs| ->%elem_of_singleton]%elem_of_union; [apply Hstray in Hs|]; lia.
    + intros u h Hu. pose proof (Hfresh u) as Hf.
      apply Hheld in Hu as [Hb Hs]. split; [lia|].
      intros [Hs'| ->%elem_of_singleton]%elem_of_union; [contradiction|lia].
    + exact Hinj.
Qed.

Lemma unsubscribeBars_kept key st stray :
  kept st stray -> kept (Untyped.unsubscribeBars key st) stray.
Proof.
  intros (Hrun & Hstray & Hheld & Hinj). unfold Untyped.unsubscribeBars.
  destruct (streamingIntervals st !! key) as [h0|] eqn:E;
    [|exact (conj Hrun (conj Hstray (conj Hheld Hinj)))].
  unfold kept. cbn [timers streamingIntervals nextHandle]. split; [|split; [|split]].
  - intros h. rewrite elem_of_difference, elem_of_singleton. split.
    + intros [Hin Hne]. apply Hrun in Hin as [[u Hu]|Hs]; [|right; exact Hs].
      left. exists u. rewrite lookup_delete_ne; [exact Hu|]. intros <-.
      apply Hne. congruence.
    + intros [[u Hu]|Hs].
      * destruct (decide (key = u)) as [<-|Hne].
        -- rewrite lookup_delete_eq in Hu. discriminate.
        -- rewrite lookup_delete_ne in Hu by exact Hne. split.
           ++ apply Hrun. left. eauto.
           ++ intros ->. apply Hne. exact (Hinj _ _ _ E Hu).
      * split; [apply Hrun; right; exact Hs|].
        intros ->. apply Hheld in E as [_ E]. contradiction.
  - exact Hstray.
  - intros u h Hu. destruct (decide (key = u)) as [<-|Hne].
    + rewrite lookup_delete_eq in Hu. discriminate.
    + rewrite lookup_delete_ne in Hu by exact Hne. exact (Hheld _ _ Hu).
  - intros u1 u2 h H1 H2.
    destruct (decide (key = u1)) as [<-|N1]; [rewrite lookup_delete_eq in H1; discriminate|].
    destruct (decide (key = u2)) as [<-|N2]; [rewrite lookup_delete_eq in H2; discriminate|].
    rewrite lookup_delete_ne in H1 by exact N1.
    rewrite lookup_delete_ne in H2 by exact N2. exact (Hinj _ _ _ H1 H2).
Qed.

Lemma destroy_kept st stray :
  kept st stray ->
  kept (fst (Untyped.destroy st)) stray
  /\ timers (fst (Untyped.destroy st)) = stray
  /\ streamingIntervals (fst (Untyped.destroy st)) = ∅
  /\ symbolCache (fst (Untyped.destroy st)) = ∅.
Proof.
  intros (Hrun & Hstray & Hheld & Hinj).
  assert (Ht : forall h, h ∈ timers st ∖ map_img (streamingIntervals st) <-> h ∈ stray).
  { intros h. rewrite elem_of_difference, elem_of_map_img. split.
    - intros [Hin Hout]. apply Hrun in Hin as [Hu|Hs]; [contradiction|exact Hs].
    - intros Hs. split; [apply Hrun; right; exact Hs|].
      intros [u Hu]. apply Hheld in Hu as [_ Hu]. contradiction. }
  unfold Untyped.destroy. cbn [fst timers streamingIntervals symbolCache].
  split; [|split; [apply set_eq; exact Ht|split; reflexivity]].
  unfold kept. cbn [timers streamingIntervals nextHandle]. split; [|split; [|split]].
  - intros h. rewrite Ht. split; [intros H; right; exact H|].
    intros [[u Hu]|H]; [rewrite lookup_empty in Hu; discriminate|exact H].
  - exact Hstray.
  - intros u h Hu. rewrite lookup_empty in Hu. discriminate.
  - intros u1 u2 h Hu. rewrite lookup_empty in Hu. discriminate.
Qed.

Lemma union_empty_r_gset (X : gset positive) : X ∪ ∅ = X.
Proof. apply set_eq. intros h. rewrite elem_of_union. split; [intros [H|[]%not_elem_of_empty]; exact H|auto]. Qed.

Lemma call_kept c st stray : kept st stray -> kept (call c st) (stray ∪ strayOf c st).
Proof.
  intros Hk. destruct c as [w n|w u cb|u|u|]; cbn [call strayOf];
    try rewrite union_empty_r_gset.
  - unfold Untyped.resolveSymbol.
    destruct (symbolCache st !! n); [exact Hk|].
    destruct (exactSearch w n); [exact Hk|].
    destruct (Untyped.resolveSymbolLocally n); exact Hk.
  - exact Hk.
  - apply (startDemoStreaming_kept u st stray Hk).
  - apply unsubscribeBars_kept. exact Hk.
  - apply destroy_kept. exact Hk.
Qed.

Lemma calls_kept l : forall st stray,
  kept st stray -> kept (calls l st) (stray ∪ strays l st).
Proof.
  induction l as [|c l IH]; intros st stray Hk.
  - cbn [strays]. rewrite union_empty_r_gset. exact Hk.
  - unfold calls. cbn [foldl strays].
    replace (stray ∪ (strayOf c st ∪ strays l (call c st)))
      with ((stray ∪ strayOf c st) ∪ strays l (call c st)).
    + apply IH, call_kept, Hk.
    + apply set_eq. intros h. rewrite !elem_of_union. tauto.
Qed.

Lemma kept_tidy st stray : kept st stray -> tidy st.
Proof.
  intros (Hrun & _ & Hheld & Hinj). split; [|exact Hinj].
  intros u h Hu. split; [apply Hrun; left; eauto|apply (Hheld _ _ Hu)].
Qed.

Lemma kept_created : kept created ∅.
Proof.
  unfold kept, created. cbn. split; [|split; [|split]].
  - intros h. split; [intros []%not_elem_of_empty|].
    intros [[u Hu]|[]%not_elem_of_empty]. rewrite lookup_empty in Hu. discriminate.
  - intros h []%not_elem_of_empty.
  - intros u h Hu. rewrite lookup_empty in Hu. discriminate.
  - intros u1 u2 h Hu. rewrite lookup_empty in Hu. discriminate.
Qed.

Lemma strays_named l : forall st,
  forallb (fun c => negb (isProto c)) l = true -> strays l st = ∅.
Proof.
  induction l as [|c l IH]; intros st H; [reflexivity|].
  cbn [forallb] in H. apply andb_true_iff in H as [Hc Hl].
  cbn [strays]. rewrite (IH _ Hl), union_empty_r_gset.
  destruct c as [w n|w u cb|u|u|]; try reflexivity.
  cbn [isProto strayOf] in *. apply negb_true_iff in Hc. rewrite Hc. reflexivity.
Qed.

(** X15.  Whatever calls a datafeed has served since it was created,
    every interval that the record holds is running and is held under
    one key alone (subscribing again replaces the interval).  [destroy]
    leaves no subscriber registered and no symbol cached, and leaves
    running exactly the intervals that were started for a subscriber
    named "__proto__", which the record never takes: none when no
    subscriber had that name. *)
Theorem intervals_do_not_leak (l : list Call) :
  tidy (calls l created)
  /\ timers (call Destroy (calls l created)) = strays l created
  /\ (forallb (fun c => negb (isProto c)) l = true ->
      timers (call Destroy (calls l created)) = ∅)
  /\ streamingIntervals (call Destroy (calls l created)) = ∅
  /\ symbolCache (call Destroy (calls l created)) = ∅.
Proof.
  pose proof (calls_kept l created ∅ kept_created) as Hk.
  assert (E : (∅ : gset positive) ∪ strays l created = strays l created).
  { apply set_eq. intros h. rewrite elem_of_union.
    split; [intros [[]%not_elem_of_empty|H]; exact H|auto]. }
  rewrite E in Hk.
  destruct (destroy_kept _ _ Hk) as (_ & Ht & Hs & Hc).
  split; [exact (kept_tidy _ _ Hk)|]. cbn [call].
  split; [exact Ht|]. split; [|split; [exact Hs|exact Hc]].
  intros Hn. rewrite Ht. apply strays_named. exact Hn.
Qed.

(** *** When the fallback bars come *)


(** *** Searching and resolving without the endpoints *)

(** X22.  [searchSymbols] with a callback answers exactly once, whether
    the endpoint answers or fails; a failed search answers with a bare
    array that holds every mock symbol whose symbol or description
    contains the input, letter case apart, and no other, in the order
    of the list, and so all six for an empty input; without a callback
    nothing is answered.  The earlier controller, if there is one, is aborted
    once, and a controller is left in place. *)
Theorem searchSymbols_answers_once (w : World) (userInput : string) (st : State) :
  let done := snd (Untyped.searchSymbols w userInput true st) in
  (exists payload, searchAnswers done = [payload])
  /\ (search w userInput = None ->
      exists symbols,
        searchAnswers done = [SymbolArray symbols]
        /\ symbols `sublist_of` mockSymbols
        /\ Forall (fun s => matchesInput userInput s = true) symbols
        /\ (forall s, s ∈ mockSymbols -> matchesInput userInput s = true -> s ∈ symbols)
        /\ (userInput = "" -> symbols = mockSymbols))
  /\ searchAnswers (snd (Untyped.searchSymbols w userInput false st)) = []
  /\ searchSymbolController (fst (Untyped.searchSymbols w userInput true st)) = true
  /\ aborts done = (if searchSymbolController st then 1 else 0)%nat.
Proof.
  cbv zeta. unfold Untyped.searchSymbols, Untyped.searchSymbolsMock.
  cbn [fst snd].
  assert (Ha : forall rest, searchAnswers
                 ((if searchSymbolController st then [AbortSearch] else [])
                  ++ [SearchRequest userInput] ++ rest) = searchAnswers rest).
  { intros rest. destruct (searchSymbolController st); reflexivity. }
  rewrite !Ha. split; [|split; [|split; [|split]]].
  - destruct (search w userInput); eexists; reflexivity.
  - intros ->. eexists. split; [reflexivity|]. split; [apply sublist_filter|].
    split; [|split].
    + apply Forall_forall. intros s Hs.
      apply list_elem_of_filter in Hs as [Hs _]. apply Is_true_true. exact Hs.
    + intros s Hs Hm. apply list_elem_of_filter. split; [|exact Hs].
      apply Is_true_true. exact Hm.
    + intros ->. reflexivity.
  - destruct (search w userInput); reflexivity.
  - reflexivity.
  - unfold aborts. rewrite !List.filter_app, !length_app.
    destruct (searchSymbolController st), (search w userInput); reflexivity.
Qed.

(** X23.  A symbol that is resolved locally carries the name that was
    asked for as its [full_name], price steps of 1 on a scale of 100 or
    of 100000000, and the nine resolutions of the datafeed. *)
Theorem resolveSymbolLocally_shape (symbolName : string) (symbolInfo : json) :
  Untyped.resolveSymbolLocally symbolName = Ok symbolInfo ->
  member "full_name" symbolInfo = JStr symbolName
  /\ member "minmov" symbolInfo = JNum 1
  /\ (member "pricescale" symbolInfo = JNum 100
      \/ member "pricescale" symbolInfo = JNum 100000000)
  /\ member "supported_resolutions" symbolInfo = jstrs resolutions9
  /\ member "has_intraday" symbolInfo = JBool true
  /\ member "data_status" symbolInfo = JStr "streaming".
Proof.
  unfold Untyped.resolveSymbolLocally.
  destruct (String.eqb symbolName "INVALID:SYMBOL"); [discriminate|].
  destruct (String.eqb_spec symbolName "NASDAQ:AAPL") as [->|Ha].
  { intros [= <-]. cbn. tauto. }
  destruct (String.eqb_spec symbolName "NASDAQ:TSLA") as [->|Ht].
  { intros [= <-]. cbn. tauto. }
  cbn [orb].
  destruct (symbolParts symbolName) as [[exchange ticker] instrumentType].
  destruct (getExchangeInfo exchange) as [[timezone session] cc].
  assert (Hp : forall pricescale, getPriceScale exchange ticker = Ok pricescale ->
                                  pricescale = 100%Z \/ pricescale = 100000000%Z).
  { intros p. unfold getPriceScale. destruct (isCrypto exchange); [|intros [= <-]; auto].
    destruct ticker as [t|]; [|discriminate].
    destruct (includes "USDT" t || includes "USD" t); intros [= <-]; auto. }
  destruct (getPriceScale exchange ticker) as [pricescale|]; [|discriminate].
  destruct (getCurrencyCode exchange ticker) as [currency_code|]; [|discriminate].
  intros [= <-]. cbn [member member_of String.eqb Ascii.eqb Bool.eqb].
  repeat split. destruct (Hp _ eq_refl) as [-> | ->]; auto.
Qed.

End FeedMoreFacts.

(** ** Properties of the tick stream *)

Section StreamFacts.
Import Js Datafeed FeedSpec FeedMore Streaming StreamSpec StreamFixtures.
Local Open Scope Q_scope.

(** *** The channel map *)

Lemma mapGet_split k (m : Channels) item :
  mapGet k m = Some item ->
  exists pre post, m = pre ++ (k, item) :: post /\ k ∉ fst <$> pre.
Proof.
  induction m as [|[k' v] m IH]; simpl; [discriminate|].
  destruct (String.eqb_spec k' k) as [->|Hne].
  - intros [= ->]. exists [], m. split; [reflexivity|]. apply not_elem_of_nil.
  - intros H. destruct (IH H) as (pre & post & -> & Hpre).
    exists ((k', v) :: pre), post. split; [reflexivity|].
    simpl. intros [Heq|Hin]%elem_of_cons; [congruence|contradiction].
Qed.

Lemma mapGet_None k (m : Channels) : mapGet k m = None -> k ∉ fst <$> m.
Proof.
  induction m as [|[k' v] m IH]; simpl; [intros _; apply not_elem_of_nil|].
  destruct (String.eqb_spec k' k) as [->|Hne]; [discriminate|].
  intros H [Heq|Hin]%elem_of_cons; [congruence|]. exact (IH H Hin).
Qed.


Lemma mapSet_split k item item' (pre : Channels) post :
  k ∉ fst <$> pre ->
  mapSet k item' (pre ++ (k, item) :: post) = pre ++ (k, item') :: post.
Proof.
  induction pre as [|[k' v] pre IH]; simpl; intros Hk.
  - rewrite String.eqb_refl. reflexivity.
  - destruct (String.eqb_spec k' k) as [->|Hne].
    + exfalso. apply Hk. left.
    + rewrite IH; [reflexivity|]. intros Hin. apply Hk. right. exact Hin.
Qed.

Lemma mapSet_new k item (m : Channels) : k ∉ fst <$> m -> mapSet k item m = m ++ [(k, item)].
Proof.
  induction m as [|[k' v] m IH]; simpl; intros Hk; [reflexivity|].
  destruct (String.eqb_spec k' k) as [->|Hne].
  - exfalso. apply Hk. left.
  - rewrite IH; [reflexivity|]. intros Hin. apply Hk. right. exact Hin.
Qed.

Lemma mapDelete_absent k (m : Channels) : k ∉ fst <$> m -> mapDelete k m = m.
Proof.
  induction m as [|[k' v] m IH]; intros Hk; [reflexivity|].
  unfold mapDelete. cbn [List.filter fst].
  destruct (String.eqb_spec k' k) as [->|Hne]; cbn [negb].
  - exfalso. apply Hk. left.
  - fold (mapDelete k m). rewrite IH; [reflexivity|].
    intros Hin. apply Hk. right. exact Hin.
Qed.

Lemma mapDelete_split k item (pre post : Channels) :
  k ∉ fst <$> pre -> k ∉ fst <$> post ->
  mapDelete k (pre ++ (k, item) :: post) = pre ++ post.
Proof.
  intros Hpre Hpost. unfold mapDelete. rewrite List.filter_app. simpl.
  rewrite String.eqb_refl. simpl.
  fold (mapDelete k pre). fold (mapDelete k post).
  rewrite !mapDelete_absent by assumption. reflexivity.
Qed.

Lemma NoDup_middle (pre post : Channels) k item :
  NoDup (fst <$> (pre ++ (k, item) :: post)) ->
  (k ∉ fst <$> pre) /\ (k ∉ fst <$> post) /\ NoDup (fst <$> (pre ++ post)).
Proof.
  rewrite !fmap_app, fmap_cons. simpl. intros H.
  apply NoDup_app in H as (Hpre & Hdis & Hpost).
  apply NoDup_cons in Hpost as [Hk Hpost].
  repeat split.
  - intros Hin. apply (Hdis _ Hin). left.
  - exact Hk.
  - apply NoDup_app. repeat split; [exact Hpre| |exact Hpost].
    intros x Hx Hx'. apply (Hdis _ Hx). right. exact Hx'.
Qed.


Lemma allHandlers_app (a b : Channels) : allHandlers (a ++ b) = allHandlers a ++ allHandlers b.
Proof. unfold allHandlers. apply flat_map_app. Qed.

(** *** Finding a handler *)

Lemma findIndex_app {A} (f : A -> bool) (a b : list A) :
  findIndex f (a ++ b) =
  match findIndex f a with
  | Some i => Some i
  | None => option_map (Nat.add (length a)) (findIndex f b)
  end.
Proof.
  induction a as [|x a IH]; simpl.
  - destruct (findIndex f b); reflexivity.
  - destruct (f x); [reflexivity|]. rewrite IH.
    destruct (findIndex f a); simpl; [reflexivity|].
    destruct (findIndex f b); reflexivity.
Qed.

Lemma findIndex_bound {A} (f : A -> bool) (l : list A) (i : nat) :
  findIndex f l = Some i -> (i < length l)%nat.
Proof.
  intros H. destruct (findIndex_Some _ _ _ H) as (x & Hx & _).
  apply lookup_lt_Some in Hx. exact Hx.
Qed.

Lemma splice1_app_r {A} (a b : list A) (i : nat) :
  splice1 (length a + i) (a ++ b) = a ++ splice1 i b.
Proof.
  unfold splice1. rewrite take_app, drop_app.
  rewrite take_ge by lia. rewrite drop_ge by lia.
  replace (length a + i - length a)%nat with i by lia.
  replace (S (length a + i) - length a)%nat with (S i) by lia.
  simpl. rewrite <- app_assoc. reflexivity.
Qed.

Lemma splice1_app_l {A} (a b : list A) (i : nat) :
  (i < length a)%nat -> splice1 i (a ++ b) = splice1 i a ++ b.
Proof.
  intros Hi. unfold splice1. rewrite take_app, drop_app.
  replace (i - length a)%nat with 0%nat by lia.
  replace (S i - length a)%nat with 0%nat by lia.
  simpl. rewrite app_nil_r, <- app_assoc. reflexivity.
Qed.

Lemma findHandler_None subscriberUID m :
  findHandler subscriberUID m = None
  <-> Forall (fun h => hasId subscriberUID h = false) (allHandlers m).
Proof.
  induction m as [|[k item] m IH]; simpl.
  - split; [constructor|reflexivity].
  - change (allHandlers ((k, item) :: m)) with (handlers item ++ allHandlers m).
    rewrite Forall_app, <- IH, <- findIndex_None.
    destruct (findIndex (hasId subscriberUID) (handlers item)); split;
      try discriminate; intuition discriminate.
Qed.


Lemma findHandler_split subscriberUID m channel item i :
  findHandler subscriberUID m = Some (channel, item, i) ->
  exists pre post,
    m = pre ++ (channel, item) :: post
    /\ Forall (fun h => hasId subscriberUID h = false) (allHandlers pre)
    /\ findIndex (hasId subscriberUID) (handlers item) = Some i.
Proof.
  induction m as [|[k v] m IH]; simpl; [discriminate|].
  destruct (findIndex (hasId subscriberUID) (handlers v)) as [j|] eqn:E.
  - intros [= -> -> ->]. exists [], m. repeat split; [constructor|exact E].
  - intros H. destruct (IH H) as (pre & post & -> & Hpre & Hi).
    exists ((k, v) :: pre), post. repeat split; [|exact Hi].
    change (allHandlers ((k, v) :: pre)) with (handlers v ++ allHandlers pre).
    apply Forall_app. split; [apply findIndex_None; exact E|exact Hpre].
Qed.

Lemma unknown_hasId subscriberUID m :
  unknown subscriberUID m
  <-> Forall (fun h => hasId subscriberUID h = false) (allHandlers m).
Proof.
  unfold unknown, hasId. apply Forall_iff. intros h.
  rewrite String.eqb_neq. reflexivity.
Qed.

(** *** What the methods do to the registry *)

Lemma initializeDemoSocket_frame info feed :
  channelToSubscription (fst (initializeDemoSocket info feed)) = channelToSubscription feed
  /\ datafeed (fst (initializeDemoSocket info feed)) = datafeed feed.
Proof.
  unfold initializeDemoSocket.
  destruct (isOpen (demoSocket feed)); [split; reflexivity|].
  destruct (isBybit info); split; reflexivity.
Qed.

Lemma sendDemoSubscription_frame request item feed :
  channelToSubscription (fst (sendDemoSubscription request item feed))
  = channelToSubscription feed
  /\ (datafeed (fst (sendDemoSubscription request item feed)) = datafeed feed
      \/ datafeed (fst (sendDemoSubscription request item feed))
         = Untyped.startDemoStreaming (channelString item) (datafeed feed)).
Proof.
  unfold sendDemoSubscription.
  destruct (isOpen (demoSocket feed)).
  { destruct (isBybit (symbolInfo item)); simpl; auto. }
  pose proof (initializeDemoSocket_frame (symbolInfo item) feed) as [Hc Hd].
  destruct (demoSocket feed) as [s|].
  - destruct (readyState s =? CONNECTING)%Z.
    + destruct (isBybit (symbolInfo item) && isWebSocket s); simpl; auto.
    + destruct (isBybit (symbolInfo item)); [|simpl; auto].
      destruct (initializeDemoSocket (symbolInfo item) feed) as [feed1 wire].
      simpl in *. auto.
  - destruct (isBybit (symbolInfo item)); [|simpl; auto].
    destruct (initializeDemoSocket (symbolInfo item) feed) as [feed1 wire].
    simpl in *. auto.
Qed.

(** The registry after [subscribeOnStream]. *)
Lemma subscribeOnStream_channels info resolution callback subscriberUID feed :
  channels (fst (subscribeOnStream info resolution callback subscriberUID feed))
  = match mapGet (channelOf info) (channels feed) with
    | Some item =>
        mapSet (channelOf info)
          (with_handlers (handlers item ++ [mkHandler subscriberUID callback resolution])
             item)
          (channels feed)
    | None =>
        mapSet (channelOf info)
          (mkItem subscriberUID resolution [mkHandler subscriberUID callback resolution]
             info (channelOf info))
          (channels feed)
    end.
Proof.
  unfold subscribeOnStream, channels.
  set (m := default [] (channelToSubscription feed)).
  set (start := match demoSocket feed with
                | None => initializeDemoSocket info (mkFeed (datafeed feed) (Some m) None)
                | Some _ => (mkFeed (datafeed feed) (Some m) (demoSocket feed), [])
                end).
  destruct start as [feed1 wire1].
  destruct (mapGet (channelOf info) m) as [item|]; [reflexivity|].
  match goal with
  | |- context [sendDemoSubscription ?r ?i ?f] =>
      pose proof (sendDemoSubscription_frame r i f) as [Hc _];
      destruct (sendDemoSubscription r i f) as [feed3 wire3]
  end.
  simpl in *. rewrite Hc. reflexivity.
Qed.

Lemma subscribeOnStream_datafeed info resolution callback subscriberUID feed :
  (mapGet (channelOf info) (channels feed) <> None ->
   datafeed (fst (subscribeOnStream info resolution callback subscriberUID feed))
   = datafeed feed)
  /\ (datafeed (fst (subscribeOnStream info resolution callback subscriberUID feed))
      = datafeed feed
      \/ datafeed (fst (subscribeOnStream info resolution callback subscriberUID feed))
         = Untyped.startDemoStreaming (channelOf info) (datafeed feed)).
Proof.
  unfold subscribeOnStream, channels.
  set (m := default [] (channelToSubscription feed)).
  assert (Hs : datafeed
                 (fst match demoSocket feed with
                      | None =>
                          initializeDemoSocket info (mkFeed (datafeed feed) (Some m) None)
                      | Some _ => (mkFeed (datafeed feed) (Some m) (demoSocket feed), [])
                      end) = datafeed feed).
  { destruct (demoSocket feed); [reflexivity|].
    apply (initializeDemoSocket_frame info (mkFeed (datafeed feed) (Some m) None)). }
  destruct (match demoSocket feed with
            | None => initializeDemoSocket info (mkFeed (datafeed feed) (Some m) None)
            | Some _ => (mkFeed (datafeed feed) (Some m) (demoSocket feed), [])
            end) as [feed1 wire1].
  simpl in Hs.
  destruct (mapGet (channelOf info) m) as [item|].
  - simpl. auto.
  - split; [intros H; contradiction|].
    match goal with
    | |- context [sendDemoSubscription ?r ?i ?f] =>
        pose proof (sendDemoSubscription_frame r i f) as [_ Hd];
        destruct (sendDemoSubscription r i f) as [feed3 wire3]
    end.
    simpl in *. rewrite Hs in Hd. exact Hd.
Qed.

Lemma registered_nil : registered [].
Proof. split; constructor. Qed.

Lemma subscribeOnStream_registered info resolution callback subscriberUID feed :
  registered (channels feed) ->
  registered (channels (fst (subscribeOnStream info resolution callback subscriberUID feed))).
Proof.
  intros [Hnd Hall]. rewrite subscribeOnStream_channels.
  destruct (mapGet (channelOf info) (channels feed)) as [item|] eqn:E.
  - destruct (mapGet_split _ _ _ E) as (pre & post & Hm & Hpre).
    rewrite Hm in *. rewrite mapSet_split by exact Hpre. split.
    + rewrite fmap_app, fmap_cons in *. exact Hnd.
    + apply Forall_app in Hall as [H1 H2]. apply Forall_cons in H2 as [[Hk _] H2].
      apply Forall_app. split; [exact H1|]. constructor; [|exact H2].
      simpl in *. split; [exact Hk|]. intros H. apply app_eq_nil in H as [_ H].
      discriminate.
  - apply mapGet_None in E. rewrite mapSet_new by exact E. split.
    + rewrite fmap_app. apply NoDup_app. repeat split; [exact Hnd| |].
      * intros x Hx Hx'. simpl in Hx'. apply list_elem_of_singleton in Hx'. subst x.
        exact (E Hx).
      * simpl. apply NoDup_singleton.
    + apply Forall_app. split; [exact Hall|]. constructor; [|constructor].
      simpl. split; [reflexivity|discriminate].
Qed.

(** The registry after [unsubscribeFromStream]. *)
Lemma unsubscribeFromStream_channels subscriberUID feed :
  registered (channels feed) ->
  (findHandler subscriberUID (channels feed) = None
   /\ unsubscribeFromStream subscriberUID feed = (feed, []))
  \/ exists pre channel item post i,
       channels feed = pre ++ (channel, item) :: post
       /\ Forall (fun h => hasId subscriberUID h = false) (allHandlers pre)
       /\ findIndex (hasId subscriberUID) (handlers item) = Some i
       /\ ((splice1 i (handlers item) = []
            /\ channels (fst (unsubscribeFromStream subscriberUID feed)) = pre ++ post
            /\ datafeed (fst (unsubscribeFromStream subscriberUID feed))
               = Untyped.unsubscribeBars channel (datafeed feed))
           \/ (splice1 i (handlers item) <> []
               /\ channels (fst (unsubscribeFromStream subscriberUID feed))
                  = pre ++ (channel, with_handlers (splice1 i (handlers item)) item) :: post
               /\ datafeed (fst (unsubscribeFromStream subscriberUID feed))
                  = datafeed feed)).
Proof.
  intros [Hnd _]. unfold unsubscribeFromStream, channels in *.
  destruct (channelToSubscription feed) as [m|]; [|left; split; reflexivity].
  simpl in *.
  destruct (findHandler subscriberUID m) as [[[channel item] i]|] eqn:E;
    [|left; split; reflexivity].
  right. destruct (findHandler_split _ _ _ _ _ E) as (pre & post & -> & Hpre & Hi).
  destruct (NoDup_middle _ _ _ _ Hnd) as (Hk & Hk' & _).
  exists pre, channel, item, post, i. repeat split; try assumption.
  rewrite mapSet_split by exact Hk.
  destruct (splice1 i (handlers item)) as [|h hs] eqn:Es.
  - left. simpl. rewrite mapDelete_split by assumption. repeat split.
  - right. simpl. repeat split. discriminate.
Qed.

Lemma unsubscribeFromStream_registered subscriberUID feed :
  registered (channels feed) ->
  registered (channels (fst (unsubscribeFromStream subscriberUID feed))).
Proof.
  intros Hr.
  destruct (unsubscribeFromStream_channels subscriberUID feed Hr)
    as [[_ ->]|(pre & channel & item & post & i & Hm & _ & _ & H)]; [exact Hr|].
  destruct Hr as [Hnd Hall]. rewrite Hm in *.
  apply Forall_app in Hall as [H1 H2]. apply Forall_cons in H2 as [[Hk _] H2].
  destruct H as [(_ & -> & _)|(Hne & -> & _)].
  - split; [apply (NoDup_middle _ _ _ _ Hnd)|]. apply Forall_app. split; assumption.
  - split.
    + rewrite fmap_app, fmap_cons in *. exact Hnd.
    + apply Forall_app. split; [exact H1|]. constructor; [|exact H2].
      simpl in *. split; assumption.
Qed.

(** X17.  Whatever happens to a datafeed since it was created (tick
    subscriptions and unsubscriptions, timers firing, the socket
    changing state, the other methods being served), every channel is
    registered once, under its own name, with at least one handler, and
    every interval that the record of intervals holds is running and is
    held under one key alone. *)
Theorem stream_registry (l : list Step) :
  registered (channels (run l createdFeed)) /\ tidy (datafeed (run l createdFeed)).
Proof.
  assert (Hstep : forall s feed,
             registered (channels feed) /\ (exists stray, kept (datafeed feed) stray) ->
             registered (channels (step s feed))
             /\ (exists stray, kept (datafeed (step s feed)) stray)).
  { intros s feed [Hr [stray Hk]].
    destruct s as [info res cb uid|uid|request item|state|c];
      cbn [step]; unfold subscribeTicks, unsubscribeTicks.
    - split; [apply subscribeOnStream_registered, Hr|].
      destruct (subscribeOnStream_datafeed info res cb uid feed) as [_ [-> | ->]];
        [eauto|]. eexists. apply (startDemoStreaming_kept _ _ _ Hk).
    - split; [apply unsubscribeFromStream_registered, Hr|].
      destruct (unsubscribeFromStream_channels uid feed Hr)
        as [[_ ->]|(pre & channel & item & post & i & _ & _ & _ & H)]; [eauto|].
      destruct H as [(_ & _ & ->)|(_ & _ & ->)]; [|eauto].
      eexists. apply unsubscribeBars_kept, Hk.
    - unfold connected. destruct (demoSocket feed) as [[r|r]|]; [eauto| |eauto].
      split; [exact Hr|]. eexists. apply (startDemoStreaming_kept _ _ _ Hk).
    - destruct (demoSocket feed) as [[r|r]|]; eauto.
    - split; [exact Hr|]. eexists. apply (call_kept _ _ _ Hk). }
  assert (Hrun : forall l feed,
             registered (channels feed) /\ (exists stray, kept (datafeed feed) stray) ->
             registered (channels (run l feed))
             /\ (exists stray, kept (datafeed (run l feed)) stray)).
  { clear l. induction l as [|s l IH]; intros feed H; [exact H|].
    unfold run. simpl. apply IH, Hstep, H. }
  destruct (Hrun l createdFeed) as [Hr [stray Hk]].
  { split; [apply registered_nil|]. exists ∅. apply kept_created. }
  split; [exact Hr|exact (kept_tidy _ _ Hk)].
Qed.

(** X18.  [unsubscribeFromStream] takes the first handler of the
    subscriber, in the order of the channels and of their handlers, out
    of the registry and leaves every other handler where it is; the
    channel goes with its last handler; when the subscriber has no
    handler, nothing changes and nothing is sent. *)
Theorem unsubscribeFromStream_first (subscriberUID : string) (feed : Feed) :
  registered (channels feed) ->
  allHandlers (channels (fst (unsubscribeFromStream subscriberUID feed)))
  = withoutFirst subscriberUID (allHandlers (channels feed))
  /\ Forall (fun kv => handlers (snd kv) <> [])
       (channels (fst (unsubscribeFromStream subscriberUID feed)))
  /\ (unknown subscriberUID (channels feed) ->
      unsubscribeFromStream subscriberUID feed = (feed, [])).
Proof.
  intros Hr. split; [|split].
  - unfold withoutFirst.
    destruct (unsubscribeFromStream_channels subscriberUID feed Hr)
      as [[Hn ->]|(pre & channel & item & post & i & Hm & Hpre & Hi & H)].
    + apply (proj1 (findHandler_None _ _)) in Hn.
      apply (proj2 (findIndex_None (hasId subscriberUID) _)) in Hn.
      simpl. rewrite Hn. reflexivity.
    + rewrite Hm. rewrite allHandlers_app.
      change (allHandlers ((channel, item) :: post))
        with (handlers item ++ allHandlers post).
      rewrite findIndex_app. apply findIndex_None in Hpre. rewrite Hpre.
      rewrite findIndex_app, Hi. cbn [option_map].
      rewrite splice1_app_r, (splice1_app_l _ _ _ (findIndex_bound _ _ _ Hi)).
      destruct H as [(He & -> & _)|(_ & -> & _)].
      * rewrite He, allHandlers_app. reflexivity.
      * rewrite allHandlers_app. reflexivity.
  - destruct (unsubscribeFromStream_registered subscriberUID feed Hr) as [_ Hall].
    eapply Forall_impl; [exact Hall|]. intros kv [_ H]. exact H.
  - intros Hu. apply (proj1 (unknown_hasId _ _)) in Hu.
    apply (proj2 (findHandler_None _ _)) in Hu.
    unfold unsubscribeFromStream, channels in *.
    destruct (channelToSubscription feed) as [m|]; [|reflexivity].
    simpl in Hu. rewrite Hu. reflexivity.
Qed.

Lemma with_handlers_id item : with_handlers (handlers item) item = item.
Proof. destruct item. reflexivity. Qed.



(** *** Trades *)






End StreamFacts.

(** ** The further properties of the datafeed at work *)

Section FeedMoreExamples.
Import Js Datafeed FeedSpec FeedMore FeedFixtures.
Import Streaming StreamSpec StreamFixtures MoreFeedFixtures.
Local Open Scope Q_scope.

Lemma convertToUDFFormat_columns_witness :
  Untyped.convertToUDFFormat threeBars
  = UdfOk [60; inject_Z 120] [1; 2] [2; 3] [1; 2] [2; 3] [10; 0].
Proof.
  destruct (convertToUDFFormat_columns threeBars) as [H _]; [discriminate|].
  rewrite H. reflexivity.
Defined.

Lemma getBybitBars_oldest_first_witness :
  exists rawBars,
    Untyped.getBybitBars newestFirst btcusdt (ResString "1") (mkPeriod 0 180000 true None)
    = Ok rawBars
    /\ StronglySorted (fun a b => time a <= time b) rawBars.
Proof.
  eexists. split; [reflexivity|].
  refine (proj1 (getBybitBars_oldest_first newestFirst btcusdt (ResString "1")
                   (mkPeriod 0 180000 true None) _ _ eq_refl)).
  intros request rows_ [= <-].
  repeat constructor; discriminate.
Defined.

Lemma intervalMap_labels_witness :
  Untyped.deriveIntervalLabel (VNum 4) (VStr "hours") = "240"
  /\ Untyped.convertIntervalToResolution "4h" = mkResolutionInfo 4 "hours" "240".
Proof.
  exact (intervalMap_labels "4h" (mkResolutionInfo 4 "hours" "240") eq_refl).
Defined.

Lemma unsubscribeFromStream_first_witness :
  hd_id <$> allHandlers (channels threeSubscribers) = ["sub_1"; "sub_2"; "sub_3"]
  /\ hd_id <$> allHandlers (channels (fst (unsubscribeFromStream "sub_2" threeSubscribers)))
     = ["sub_1"; "sub_3"].
Proof.
  split; [reflexivity|].
  destruct (unsubscribeFromStream_first "sub_2" threeSubscribers) as [H _].
  - split.
    + change (NoDup ["demoTrade.AAPL"; "publicTrade.BTCUSDT"]).
      apply NoDup_cons. split; [|apply NoDup_singleton].
      intros H. apply list_elem_of_singleton in H. discriminate H.
    + repeat constructor; discriminate.
  - rewrite H. reflexivity.
Defined.


Lemma resolveSymbolLocally_shape_witness :
  exists symbolInfo,
    Untyped.resolveSymbolLocally "BINANCE:BTC" = Ok symbolInfo
    /\ member "full_name" symbolInfo = JStr "BINANCE:BTC"
    /\ member "pricescale" symbolInfo = JNum 100000000.
Proof.
  eexists. split; [reflexivity|].
  destruct (resolveSymbolLocally_shape "BINANCE:BTC" _ eq_refl) as (Hn & _).
  split; [exact Hn|reflexivity].
Defined.

Lemma resolveSymbol_errors_witness :
  snd (Untyped.resolveSymbol offline "BYBIT" created)
  = [ExactSearchRequest "BYBIT"; OnError "Failed to resolve symbol"]
  /\ fst (Untyped.resolveSymbol offline "BYBIT" created) = created.
Proof.
  destruct (resolveSymbol_errors offline "BYBIT" created) as (_ & Hiff & Herr & _).
  destruct Herr as [Hst Hdone].
  - apply Hiff. split; [reflexivity|]. split; [reflexivity|]. right. left. reflexivity.
  - split; [exact Hdone|exact Hst].
Defined.

Lemma intervals_do_not_leak_witness :
  timers (call Destroy
            (calls [SubscribeBars "chart_1"; SubscribeBars "chart_1";
                    SubscribeBars "chart_2"; UnsubscribeBars "chart_3"] created)) = ∅
  /\ timers (call Destroy
               (calls [SubscribeBars "chart_1"; SubscribeBars "__proto__";
                       UnsubscribeBars "__proto__"] created)) = {[2%positive]}.
Proof.
  split.
  - apply (intervals_do_not_leak
             [SubscribeBars "chart_1"; SubscribeBars "chart_1";
              SubscribeBars "chart_2"; UnsubscribeBars "chart_3"]).
    reflexivity.
  - destruct (intervals_do_not_leak
                [SubscribeBars "chart_1"; SubscribeBars "__proto__";
                 UnsubscribeBars "__proto__"]) as (_ & H & _).
    rewrite H. vm_compute. reflexivity.
Defined.


Lemma stream_registry_witness :
  Forall (fun kv => handlers (snd kv) <> [])
    (channels (run [UnsubscribeTicks "sub_1"; UnsubscribeTicks "sub_3"; Served Destroy]
                 threeSubscribers)).
Proof.
  destruct (stream_registry
              [SubscribeTicks aapl (ResString "1") 0 "sub_1";
               SubscribeTicks aapl (ResString "5") 1 "sub_2";
               SubscribeTicks bybitBtc (ResString "1") 2 "sub_3";
               UnsubscribeTicks "sub_1"; UnsubscribeTicks "sub_3"; Served Destroy])
    as [[_ H] _].
  eapply Forall_impl; [exact H|]. intros kv [_ Hh]. exact Hh.
Defined.



Lemma searchSymbols_answers_once_witness :
  exists symbols,
    searchAnswers (snd (Untyped.searchSymbols offline "BitCoin" true created))
    = [SymbolArray symbols]
    /\ str_member "symbol" <$> symbols = [Some "BTCUSDT"; Some "BTC"]
    /\ Forall (fun s => includes "bitcoin"
                          (toLowerCase (default "" (str_member "symbol" s))) = false)
         symbols.
Proof.
  destruct (searchSymbols_answers_once offline "BitCoin" created) as (_ & H & _).
  destruct (H eq_refl) as (symbols & Hs & _).
  exists symbols. split; [exact Hs|].
  injection Hs as <-. split; [reflexivity|].
  repeat constructor.
Defined.

End FeedMoreExamples.
